(** * mnexec: the Mininet execution utility, modelled and checked

    The program is a straight-line sequence of system and C library calls
    whose results decide which branch is taken.  It is embedded as a
    program tree: every call is a node whose continuation receives the
    value the operating system returned.  A run is obtained by giving the
    tree a handler (an operating system with a state of its own); the
    sequence of calls with their results is the trace of the run. *)

From Stdlib Require Import ZArith String Ascii List Lia Bool.
From Stdlib Require Import DecimalString DecimalZ.
Import ListNotations.

Local Open Scope string_scope.
Local Open Scope Z_scope.

Set Implicit Arguments.

(** ** Constants of the system headers *)

(** <linux/sched.h> *)
Definition CLONE_NEWNS  : Z := 0x00020000.
Definition CLONE_NEWUTS : Z := 0x04000000.
Definition CLONE_NEWPID : Z := 0x20000000.
Definition CLONE_NEWNET : Z := 0x40000000.

(** <sys/mount.h> *)
Definition MS_NOSUID  : Z := 2.
Definition MS_NODEV   : Z := 4.
Definition MS_NOEXEC  : Z := 8.
Definition MS_REC     : Z := 16384.
Definition MS_PRIVATE : Z := 262144.
Definition MS_MGC_VAL : Z := 0xC0ED0000.

(** <sched.h>, <fcntl.h>, <limits.h> *)
Definition SCHED_RR : Z := 2.
Definition O_RDONLY : Z := 0.
Definition PATH_MAX : nat := 4096.

(** #define VERSION "(devel)" *)
Definition VERSION : string := "(devel)".

(** ** Text helpers of the C library *)

Definition nl : string := String "010" "".

(** printf's [%d]: an optional minus sign and the decimal digits. *)
Definition fmt_d (z : Z) : string := NilZero.string_of_int (Z.to_int z).

(** [snprintf(buf, size, ...)] keeps at most [size - 1] characters. *)
Definition snprintf (size : nat) (s : string) : string :=
  substring 0 (size - 1) s.

(** [isalnum] in the C locale. *)
Definition isalnum (c : ascii) : bool :=
  let n := nat_of_ascii c in
  ((48 <=? n) && (n <=? 57) || (65 <=? n) && (n <=? 90)
   || (97 <=? n) && (n <=? 122))%nat.

(** ** System calls, events and program trees *)

(** How a process ends. *)
Inductive outcome : Type :=
| Exited (status : Z)                          (* exit(status), return from main *)
| Execed (file : string) (argv : list string)  (* image replaced by execvp *)
| Aborted                                      (* a failed assert *)
| Undefined.                                   (* a null pointer read by the C library *)

(** The calls the program makes, indexed by the type of what they give
    back.  A pointer that may be NULL is an [option]. *)
Inductive syscall : Type -> Type :=
| Getpid : syscall Z
| Getpgrp : syscall Z
| Getdtablesize : syscall Z
| Close (fd : Z) : syscall Z
| Get_current_dir_name : syscall (option string)
| Stat (path : string) : syscall (option (Z * Z))
    (* Some (st_dev, st_ino) when stat returns 0 *)
| Open (path : string) (oflag : Z) : syscall Z
| Setns (fd nstype : Z) : syscall Z
| Chroot (path : string) : syscall Z
| Chdir (path : option string) : syscall Z
| Unshare (flags : Z) : syscall Z
| Setsid : syscall Z
| Setpgid (pid pgid : Z) : syscall Z
| Fork : syscall Z
| Wait : syscall (Z * Z)                      (* return value, status *)
| Fopen (path mode : string) : syscall (option Z)
| Fprintf (f : Z) (s : string) : syscall Z
| Fclose (f : Z) : syscall Z
| Printf (s : string) : syscall Z             (* to stdout *)
| Fflush_stdout : syscall Z
| Eprintf (s : string) : syscall Z            (* fprintf(stderr, ...) *)
| Perror (s : option string) : syscall unit
| Mount (source target : string) (fstype : option string) (flags : Z)
        (data : option string) : syscall Z
| Sched_setscheduler (pid policy prio : Z) : syscall Z
| Execvp (file : string) (argv : list string) : syscall (option Z).
    (* None: the image was replaced; Some r: execvp returned r *)

(** A call together with its result. *)
Inductive event : Type :=
| EGetpid (r : Z)
| EGetpgrp (r : Z)
| EGetdtablesize (r : Z)
| EClose (fd : Z) (r : Z)
| EGet_current_dir_name (r : option string)
| EStat (path : string) (r : option (Z * Z))
| EOpen (path : string) (oflag : Z) (r : Z)
| ESetns (fd nstype : Z) (r : Z)
| EChroot (path : string) (r : Z)
| EChdir (path : option string) (r : Z)
| EUnshare (flags : Z) (r : Z)
| ESetsid (r : Z)
| ESetpgid (pid pgid : Z) (r : Z)
| EFork (r : Z)
| EWait (r : Z * Z)
| EFopen (path mode : string) (r : option Z)
| EFprintf (f : Z) (s : string) (r : Z)
| EFclose (f : Z) (r : Z)
| EPrintf (s : string) (r : Z)
| EFflush_stdout (r : Z)
| EEprintf (s : string) (r : Z)
| EPerror (s : option string) (r : unit)
| EMount (source target : string) (fstype : option string) (flags : Z)
         (data : option string) (r : Z)
| ESched_setscheduler (pid policy prio : Z) (r : Z)
| EExecvp (file : string) (argv : list string) (r : option Z).

Definition ev {R : Type} (c : syscall R) : R -> event :=
  match c in syscall R return R -> event with
  | Getpid => EGetpid
  | Getpgrp => EGetpgrp
  | Getdtablesize => EGetdtablesize
  | Close fd => EClose fd
  | Get_current_dir_name => EGet_current_dir_name
  | Stat path => EStat path
  | Open path oflag => EOpen path oflag
  | Setns fd nstype => ESetns fd nstype
  | Chroot path => EChroot path
  | Chdir path => EChdir path
  | Unshare flags => EUnshare flags
  | Setsid => ESetsid
  | Setpgid pid pgid => ESetpgid pid pgid
  | Fork => EFork
  | Wait => EWait
  | Fopen path mode => EFopen path mode
  | Fprintf f s => EFprintf f s
  | Fclose f => EFclose f
  | Printf s => EPrintf s
  | Fflush_stdout => EFflush_stdout
  | Eprintf s => EEprintf s
  | Perror s => EPerror s
  | Mount source target fstype flags data =>
      EMount source target fstype flags data
  | Sched_setscheduler pid policy prio => ESched_setscheduler pid policy prio
  | Execvp file argv => EExecvp file argv
  end.

Definition trace : Type := list event.

(** Program trees. [Stop] ends the process whatever the continuation. *)
Inductive prog (A : Type) : Type :=
| Ret (a : A)
| Stop (o : outcome)
| Call (R : Type) (c : syscall R) (k : R -> prog A).

Arguments Ret {A} a.
Arguments Stop {A} o.
Arguments Call {A R} c k.

Fixpoint bind {A B : Type} (p : prog A) (f : A -> prog B) : prog B :=
  match p with
  | Ret a => f a
  | Stop o => Stop o
  | Call c k => Call c (fun r => bind (k r) f)
  end.

Definition call {R : Type} (c : syscall R) : prog R := Call c (fun r => Ret r).

Declare Scope prog_scope.
Delimit Scope prog_scope with prog.
Notation "x <- p ;; q" := (bind p (fun x => q))
  (at level 100, p at next level, right associativity) : prog_scope.
Notation "p ;; q" := (bind p (fun _ => q))
  (at level 100, right associativity) : prog_scope.
Local Open Scope prog_scope.

(** What a program gives: a value, or the end of the process. *)
Inductive result (A : Type) : Type :=
| Val (a : A)
| Halt (o : outcome).

Arguments Val {A} a.
Arguments Halt {A} o.

(** An operating system: a state and an answer to every call. *)
Definition handler (W : Type) : Type := forall R : Type, syscall R -> W -> R * W.

Record run_of (W A : Type) : Type := MkRun {
  run_result : result A;
  run_world : W;
  run_trace : trace
}.

Fixpoint run {W A : Type} (os : handler W) (p : prog A) (w : W) : run_of W A :=
  match p with
  | Ret a => MkRun (Val a) w []
  | Stop o => MkRun (Halt o) w []
  | Call c k =>
      let (r, w') := os _ c w in
      let rest := run os (k r) w' in
      MkRun (run_result rest) (run_world rest) (ev c r :: run_trace rest)
  end.

(** [exec p t res]: [t] is a sequence of calls of [p] with some results,
    after which [p] gives [res]. *)
Fixpoint exec {A : Type} (p : prog A) (t : trace) (res : result A) : Prop :=
  match p with
  | Ret a => t = [] /\ res = Val a
  | Stop o => t = [] /\ res = Halt o
  | Call c k => exists r t', t = ev c r :: t' /\ exec (k r) t' res
  end.

(** ** More of the C library: atoi *)

Definition isspace (c : ascii) : bool :=
  let n := nat_of_ascii c in
  ((n =? 32) || (9 <=? n) && (n <=? 13))%nat.

Definition digit_val (c : ascii) : option Z :=
  let n := nat_of_ascii c in
  if ((48 <=? n) && (n <=? 57))%nat then Some (Z.of_nat n - 48) else None.

Fixpoint atoi_digits (acc : Z) (s : string) : Z :=
  match s with
  | String c s' =>
      match digit_val c with
      | Some d => atoi_digits (10 * acc + d) s'
      | None => acc
      end
  | EmptyString => acc
  end.

Fixpoint atoi_skip (s : string) : string :=
  match s with
  | String c s' => if isspace c then atoi_skip s' else s
  | EmptyString => s
  end.

(** The integer that a text spells for [strtol] in base 10: leading
    white space, an optional sign, then the digits up to the first other
    character. *)
Definition decimal_value (s : string) : Z :=
  match atoi_skip s with
  | String c s' =>
      if (c =? "-")%char then - atoi_digits 0 s'
      else if (c =? "+")%char then atoi_digits 0 s'
      else atoi_digits 0 (String c s')
  | EmptyString => 0
  end.

(** <limits.h>, with a 32-bit int and a 64-bit long *)
Definition INT_MIN : Z := -2147483648.
Definition INT_MAX : Z := 2147483647.
Definition LONG_MIN : Z := -9223372036854775808.
Definition LONG_MAX : Z := 9223372036854775807.

(** [strtol(s, NULL, 10)]: the value, or LONG_MAX or LONG_MIN when it
    does not fit a long. *)
Definition strtol (s : string) : Z :=
  Z.max LONG_MIN (Z.min LONG_MAX (decimal_value s)).

(** The conversion of a long to int keeps the low 32 bits. *)
Definition to_int (z : Z) : Z := (z - INT_MIN) mod 2 ^ 32 + INT_MIN.

(** [atoi], as the GNU C library has it: [(int) strtol(s, NULL, 10)].
    Its result is an int: a text whose value does not fit one is read
    as another number (4294967338 as 42, 4294967296 as 0).  A library
    that computes in int and wraps agrees with this on every text whose
    value fits a long.  (C leaves a value that does not fit an int
    undefined.) *)
Definition atoi (s : string) : Z := to_int (strtol s).

Fixpoint all_digits (s : string) : bool :=
  match s with
  | EmptyString => true
  | String c s' =>
      match digit_val c with
      | Some _ => all_digits s'
      | None => false
      end
  end.

(** [atoi(NULL)] reads through a null pointer. *)
Definition atoi_ptr (p : option string) : prog Z :=
  match p with
  | Some s => Ret (atoi s)
  | None => Stop Undefined
  end.

(** ** The program: mnexec *)

Definition truthy (z : Z) : bool := negb (z =? 0).

(** [x & bit] used as a condition *)
Definition has_flag (x bit : Z) : bool := truthy (Z.land x bit).

Definition perror (s : string) : prog unit := call (Perror (Some s)).

(** <assert.h>, without NDEBUG *)
Definition assert (b : bool) : prog unit :=
  if b then Ret tt else Stop Aborted.

Definition usage_text (name : string) : string :=
  "Execution utility for Mininet" ++ nl ++ nl ++
  "Usage: " ++ name ++
  " [-cdmnPpu] [-a pid] [-g group] [-r rtprio] cmd args..." ++ nl ++ nl ++
  "Options:" ++ nl ++
  "  -c: close all file descriptors except stdin/out/error" ++ nl ++
  "  -d: detach from tty by calling setsid()" ++ nl ++
  "  -m: run in a new mount namespace" ++ nl ++
  "  -n: run in a new network namespace" ++ nl ++
  "  -P: run in a new pid namespace (implies -m)" ++ nl ++
  "  -u: run in a new UTS (ipc, hostname) namespace" ++ nl ++
  "  -p: print ^A + pid" ++ nl ++
  "  -a pid: attach to pid's namespaces" ++ nl ++
  "  -g group: add to cgroup" ++ nl ++
  "  -r rtprio: run with SCHED_RR (usually requires -g)" ++ nl ++
  "  -v: print version" ++ nl.

Definition usage (name : string) : prog unit :=
  call (Printf (usage_text name));; Ret tt.

Record namespace : Type := { type : Z; name : string }.

(** List of namespaces supported by this command *)
Definition namespaces : list namespace :=
  [ {| type := CLONE_NEWNET; name := "net" |};
    {| type := CLONE_NEWPID; name := "pid" |};
    {| type := CLONE_NEWUTS; name := "uts" |};
    {| type := CLONE_NEWNS;  name := "mnt" |} ].

(** Validate alphanumeric path foo1/bar2/baz *)
Fixpoint validate_from (path s : string) : prog unit :=
  match s with
  | EmptyString => Ret tt
  | String c s' =>
      if negb (isalnum c) && negb (c =? "/")%char then
        call (Eprintf ("invalid path: " ++ path ++ nl));;
        Stop (Exited 1)
      else validate_from path s'
  end.

Definition validate (path : string) : prog unit := validate_from path path.

Definition groups : list string := ["cpu"; "cpuacct"; "cpuset"].

Definition tasks_path (g gname : string) : string :=
  snprintf PATH_MAX ("/sys/fs/cgroup/" ++ g ++ "/" ++ gname ++ "/tasks").

(** The loop of [cgroup] over the controllers; gives the final [count]. *)
Fixpoint cgroup_loop (gptr : list string) (gname : string) (pid count : Z)
  : prog Z :=
  match gptr with
  | [] => Ret count
  | g :: gptr' =>
      f <- call (Fopen (tasks_path g gname) "w");;
      match f with
      | Some fp =>
          call (Fprintf fp (fmt_d pid ++ nl));;
          call (Fclose fp);;
          cgroup_loop gptr' gname pid (count + 1)
      | None => cgroup_loop gptr' gname pid count
      end
  end.

(** Add our pid to cgroup *)
Definition cgroup (gname : string) : prog unit :=
  pid <- call Getpid;;
  validate gname;;
  count <- cgroup_loop groups gname pid 0;;
  if truthy count then Ret tt
  else
    call (Eprintf ("cgroup: could not add to cgroup " ++ gname ++ nl));;
    Stop (Exited 1).

Definition ns_path (pid : Z) (ns : namespace) : string :=
  snprintf PATH_MAX ("/proc/" ++ fmt_d pid ++ "/ns/" ++ name ns).

Definition ns_self (ns : namespace) : string :=
  snprintf PATH_MAX ("/proc/self/ns/" ++ name ns).

(** The test of lines 135-137 on the two stat results. *)
Definition same_ns (stat1 stat2 : option (Z * Z)) : bool :=
  match stat1, stat2 with
  | Some (dev1, ino1), Some (dev2, ino2) => (dev1 =? dev2) && (ino1 =? ino2)
  | _, _ => false
  end.

(** Attach to ns if present.
    Returns ns flag (> 0) on success, 0 if ns is not different from
    caller's, and < 0 on err *)
Definition attachns (pid : Z) (ns : namespace) : prog Z :=
  let path := ns_path pid ns in
  let self := ns_self ns in
  stat1 <- call (Stat path);;
  stat2 <- call (Stat self);;
  if same_ns stat1 stat2 then Ret 0
  else
    nsid <- call (Open path O_RDONLY);;
    if nsid <? 0 then
      perror "open";;
      call (Eprintf ("Could not open: " ++ path ++ nl));;
      Ret nsid
    else
      err <- call (Setns nsid 0);;
      if err <? 0 then
        perror "setns";;
        call (Eprintf ("Could not attach to " ++ name ns ++ " namespace" ++ nl));;
        Ret err
      else Ret (type ns).

Definition root_path (pid : Z) : string := "/proc/" ++ fmt_d pid ++ "/root".

(** The loop of [attach]: [None] is the [return -1] taken inside the
    loop, [Some flag] the value of [flag] when the loop ends. *)
Fixpoint attach_loop (pid : Z) (nss : list namespace) (flag : Z)
  : prog (option Z) :=
  match nss with
  | [] => Ret (Some flag)
  | ns :: nss' =>
      ret <- attachns pid ns;;
      if ret <? 0 then
        if type ns =? CLONE_NEWNS then
          (* Plan B: chroot into pid's root file system *)
          r <- call (Chroot (root_path pid));;
          if r <? 0 then perror (root_path pid);; Ret None
          else attach_loop pid nss' (Z.lor flag ret)
        else Ret None
      else attach_loop pid nss' (Z.lor flag ret)
  end.

(** Attach to pid's namespaces; returns flags of mounted namespaces *)
Definition attach (pid : Z) : prog Z :=
  cwd <- call Get_current_dir_name;;
  r <- attach_loop pid namespaces 0;;
  match r with
  | None => Ret (-1)
  | Some flag =>
      (* chdir to correct working directory *)
      c <- call (Chdir cwd);;
      if negb (c =? 0) then call (Perror cwd);; Ret (-1)
      else Ret flag
  end.

(** *** main *)

(** The local variables of [main]. *)
Record locals : Type := MkLocals {
  flags : Z;
  closefds : Z;
  attachpid : Z;
  cgrouparg : option string;
  detachtty : Z;
  printpid : Z;
  rtprio : Z;
  dofork : Z
}.

Definition init_locals : locals :=
  {| flags := 0; closefds := 0; attachpid := 0; cgrouparg := None;
     detachtty := 0; printpid := 0; rtprio := 0; dofork := 0 |}.

Definition set_flags (l : locals) (v : Z) : locals :=
  MkLocals v (closefds l) (attachpid l) (cgrouparg l) (detachtty l)
           (printpid l) (rtprio l) (dofork l).
Definition set_closefds (l : locals) (v : Z) : locals :=
  MkLocals (flags l) v (attachpid l) (cgrouparg l) (detachtty l)
           (printpid l) (rtprio l) (dofork l).
Definition set_attachpid (l : locals) (v : Z) : locals :=
  MkLocals (flags l) (closefds l) v (cgrouparg l) (detachtty l)
           (printpid l) (rtprio l) (dofork l).
Definition set_cgrouparg (l : locals) (v : option string) : locals :=
  MkLocals (flags l) (closefds l) (attachpid l) v (detachtty l)
           (printpid l) (rtprio l) (dofork l).
Definition set_detachtty (l : locals) (v : Z) : locals :=
  MkLocals (flags l) (closefds l) (attachpid l) (cgrouparg l) v
           (printpid l) (rtprio l) (dofork l).
Definition set_printpid (l : locals) (v : Z) : locals :=
  MkLocals (flags l) (closefds l) (attachpid l) (cgrouparg l) (detachtty l)
           v (rtprio l) (dofork l).
Definition set_rtprio (l : locals) (v : Z) : locals :=
  MkLocals (flags l) (closefds l) (attachpid l) (cgrouparg l) (detachtty l)
           (printpid l) v (dofork l).
Definition set_dofork (l : locals) (v : Z) : locals :=
  MkLocals (flags l) (closefds l) (attachpid l) (cgrouparg l) (detachtty l)
           (printpid l) (rtprio l) v.

(** One call of [getopt] that found an option: the character it returned
    and what [optarg] points to once it has returned. *)
Record getopt_step : Type := { go_c : ascii; go_optarg : option string }.

(** An invocation, as [main] sees it through [getopt]: the argument
    vector ([argv[0]] is taken to be present), the calls of [getopt] that
    returned an option, in order, and the values of [optarg] and [optind]
    left by the call that returned -1. *)
Record invocation : Type := {
  argv : list string;
  inv_getopt : list getopt_step;
  optarg : option string;
  optind : nat
}.

Definition argv0 (inv : invocation) : string := nth 0 (argv inv) "".

(** The body of the [switch] (lines 202-216). *)
Definition main_switch (inv : invocation) (o : getopt_step) (l : locals)
  : prog locals :=
  let c := go_c o in
  if (c =? "c")%char then Ret (set_closefds l 1)
  else if (c =? "d")%char then Ret (set_detachtty l 1)
  else if (c =? "m")%char then Ret (set_flags l (Z.lor (flags l) CLONE_NEWNS))
  else if (c =? "n")%char then
    Ret (set_flags l (Z.lor (flags l) (Z.lor CLONE_NEWNET CLONE_NEWNS)))
  else if (c =? "p")%char then Ret (set_printpid l 1)
  else if (c =? "P")%char then
    Ret (set_flags l (Z.lor (flags l) (Z.lor CLONE_NEWPID CLONE_NEWNS)))
  else if (c =? "a")%char then
    v <- atoi_ptr (go_optarg o);; Ret (set_attachpid l v)
  else if (c =? "g")%char then Ret (set_cgrouparg l (go_optarg o))
  else if (c =? "r")%char then
    v <- atoi_ptr (go_optarg o);; Ret (set_rtprio l v)
  else if (c =? "u")%char then
    Ret (set_flags l (Z.lor (flags l) CLONE_NEWUTS))
  else if (c =? "v")%char then
    call (Printf (VERSION ++ nl));; Stop (Exited 0)
  else if (c =? "h")%char then usage (argv0 inv);; Stop (Exited 0)
  else usage (argv0 inv);; Stop (Exited 1).

(** The [while] loop over the options (lines 201-216). *)
Fixpoint main_getopt (inv : invocation) (steps : list getopt_step)
  (l : locals) : prog locals :=
  match steps with
  | [] => Ret l
  | o :: steps' => l' <- main_switch inv o l;; main_getopt inv steps' l'
  end.

(** [for (; fd > 2; fd--) close(fd)], with the number of turns left. *)
Fixpoint close_down (turns : nat) (fd : Z) : prog unit :=
  match turns with
  | O => Ret tt
  | S turns' => call (Close fd);; close_down turns' (fd - 1)
  end.

(** close file descriptors except stdin/out/error (lines 218-222) *)
Definition main_closefds (l : locals) : prog unit :=
  if truthy (closefds l) then
    fd <- call Getdtablesize;;
    close_down (Z.to_nat (fd - 2)) fd
  else Ret tt.

(** Attach to existing namespace(s) or create new ones (lines 224-235);
    gives the locals with the effective [flags]. *)
Definition main_namespaces (l : locals) : prog locals :=
  if truthy (attachpid l) then
    f <- attach (attachpid l);;
    if f =? -1 then Stop (Exited 1) else Ret (set_flags l f)
  else
    r <- call (Unshare (flags l));;
    if r =? -1 then perror "unshare";; Stop (Exited 1)
    else Ret l.

(** Lines 189-235: options, descriptors, namespaces. *)
Definition main_setup (inv : invocation) : prog locals :=
  l <- main_getopt inv (inv_getopt inv) init_locals;;
  main_closefds l;;
  main_namespaces l.

(** Lines 237-254: is a fork needed, new session or new process group. *)
Definition main_session (l : locals) : prog locals :=
  let l := if has_flag (flags l) CLONE_NEWPID then set_dofork l 1 else l in
  leader <- (if truthy (detachtty l) then
               pgrp <- call Getpgrp;;
               pid <- call Getpid;;
               Ret (pgrp =? pid)
             else Ret false);;
  let l := if leader then set_dofork l 1 else set_detachtty l 0 in
  (if truthy (detachtty l) then call Setsid else call (Setpgid 0 0));;
  Ret l.

Definition pid_report (pid : Z) : string := String "001" (fmt_d pid ++ nl).

(** Lines 256-279: fork and then wait if necessary. *)
Definition main_fork (l : locals) : prog unit :=
  if truthy (dofork l) then
    pid <- call Fork;;
    if pid =? -1 then perror "fork";; Stop (Exited 1)
    else if pid =? 0 then Ret tt
    else
      (if truthy (printpid l) then
         call (Printf (pid_report pid));;
         call Fflush_stdout;;
         Ret tt
       else Ret tt);;
      (if has_flag (flags l) CLONE_NEWPID then call Wait;; Ret tt
       else Ret tt);;
      Stop (Exited 0)
  else Ret tt.

(** Lines 281-286: print our own pid if we did not fork. *)
Definition main_printpid (l : locals) : prog unit :=
  if truthy (printpid l) && negb (truthy (dofork l)) then
    assert (negb (has_flag (flags l) CLONE_NEWPID));;
    pid <- call Getpid;;
    call (Printf (pid_report pid));;
    call Fflush_stdout;;
    Ret tt
  else Ret tt.

(** Line 290: attach to cgroup if necessary. *)
Definition main_cgroup (l : locals) : prog unit :=
  match cgrouparg l with
  | Some gname => cgroup gname
  | None => Ret tt
  end.

(** Lines 292-312: private propagation, /sys and /proc. *)
Definition main_mounts (l : locals) : prog unit :=
  if negb (truthy (attachpid l)) && has_flag (flags l) CLONE_NEWNS then
    r <- call (Mount "none" "/" None (Z.lor MS_REC MS_PRIVATE) None);;
    if r =? -1 then perror "set / propagation to private";; Stop (Exited 1)
    else
      (if has_flag (flags l) CLONE_NEWNET then
         r <- call (Mount "sysfs" "/sys" (Some "sysfs") MS_MGC_VAL None);;
         if r =? -1 then perror "mount /sys";; Stop (Exited 1)
         else Ret tt
       else Ret tt);;
      (if has_flag (flags l) CLONE_NEWPID then
         r <- call (Mount "proc" "/proc" (Some "proc")
                      (Z.lor (Z.lor MS_NOSUID MS_NOEXEC) MS_NODEV) None);;
         if r =? -1 then perror "mount /proc";; Stop (Exited 1)
         else Ret tt
       else Ret tt)
  else Ret tt.

(** Lines 315-323: set RT scheduling priority. *)
Definition main_rtprio (inv : invocation) (l : locals) : prog unit :=
  if negb (rtprio l =? 0) then
    prio <- atoi_ptr (optarg inv);;
    pid <- call Getpid;;
    r <- call (Sched_setscheduler pid SCHED_RR prio);;
    if r <? 0 then perror "sched_setscheduler";; Stop (Exited 1)
    else Ret tt
  else Ret tt.

(** Lines 325-333: run the command, or print the usage. *)
Definition main_exec (inv : invocation) : prog Z :=
  match skipn (optind inv) (argv inv) with
  | file :: rest =>
      r <- call (Execvp file (file :: rest));;
      match r with
      | None => Stop (Execed file (file :: rest))
      | Some _ => perror file;; Stop (Exited 1)
      end
  | [] => usage (argv0 inv);; Stop (Exited 0)
  end.

(** Lines 237-334, from the locals left by the setup. *)
Definition main_launch (inv : invocation) (l : locals) : prog Z :=
  l <- main_session l;;
  main_fork l;;
  main_printpid l;;
  main_cgroup l;;
  main_mounts l;;
  main_rtprio inv l;;
  main_exec inv.

Definition main (inv : invocation) : prog Z :=
  l <- main_setup inv;;
  main_launch inv l.

(** The exit status of the process, when it has one. *)
Definition exit_status (res : result Z) : option Z :=
  match res with
  | Val z => Some z
  | Halt (Exited z) => Some z
  | Halt _ => None
  end.

(** ** Reading traces *)

Definition is_fork (e : event) : bool :=
  match e with EFork _ => true | _ => false end.
Definition is_wait (e : event) : bool :=
  match e with EWait _ => true | _ => false end.
Definition is_execvp (e : event) : bool :=
  match e with EExecvp _ _ _ => true | _ => false end.
Definition is_mount (e : event) : bool :=
  match e with EMount _ _ _ _ _ _ => true | _ => false end.
Definition is_printf (e : event) : bool :=
  match e with EPrintf _ _ => true | _ => false end.
Definition is_setsid (e : event) : bool :=
  match e with ESetsid _ => true | _ => false end.
Definition is_setpgid (e : event) : bool :=
  match e with ESetpgid _ _ _ => true | _ => false end.
Definition is_getpgrp (e : event) : bool :=
  match e with EGetpgrp _ => true | _ => false end.
Definition is_open (e : event) : bool :=
  match e with EOpen _ _ _ => true | _ => false end.
Definition is_setns (e : event) : bool :=
  match e with ESetns _ _ _ => true | _ => false end.
Definition is_chroot (e : event) : bool :=
  match e with EChroot _ _ => true | _ => false end.
Definition is_sched (e : event) : bool :=
  match e with ESched_setscheduler _ _ _ _ => true | _ => false end.
Definition is_unshare (e : event) : bool :=
  match e with EUnshare _ _ => true | _ => false end.
Definition is_stat (e : event) : bool :=
  match e with EStat _ _ => true | _ => false end.

(** No event of the trace is of the kind [f]. *)
Definition never (f : event -> bool) (t : trace) : Prop :=
  Forall (fun e => f e = false) t.

(** How many events of the trace are of the kind [f]. *)
Definition count (f : event -> bool) (t : trace) : nat :=
  length (filter f t).

(** Every call a program can make, whatever it is answered, gives an
    event of the class [cls]. *)
Fixpoint emits {A : Type} (cls : event -> bool) (p : prog A) : Prop :=
  match p with
  | Ret _ => True
  | Stop _ => True
  | Call c k => forall r, cls (ev c r) = true /\ emits cls (k r)
  end.

(** The calls of closing descriptors and of entering namespaces. *)
Definition cls_namespaces (e : event) : bool :=
  match e with
  | EGetdtablesize _ | EClose _ _ | EGet_current_dir_name _ | EStat _ _
  | EOpen _ _ _ | ESetns _ _ _ | EChroot _ _ | EChdir _ _
  | EPerror _ _ | EEprintf _ _ => true
  | _ => false
  end.

(** The calls of [attachns]. *)
Definition cls_attachns (e : event) : bool :=
  match e with
  | EStat _ _ | EOpen _ _ _ | ESetns _ _ _ | EPerror _ _ | EEprintf _ _ =>
      true
  | _ => false
  end.

(** The same with the call that creates namespaces. *)
Definition cls_setup (e : event) : bool := cls_namespaces e || is_unshare e.

(** The calls of joining a cgroup. *)
Definition cls_cgroup (e : event) : bool :=
  match e with
  | EGetpid _ | EEprintf _ _ | EFopen _ _ _ | EFprintf _ _ _ | EFclose _ _ =>
      true
  | _ => false
  end.

(** The calls of each later part of [main]. *)
Definition cls_session (e : event) : bool :=
  match e with
  | EGetpgrp _ | EGetpid _ | ESetsid _ | ESetpgid _ _ _ => true
  | _ => false
  end.

Definition cls_fork (e : event) : bool :=
  match e with
  | EFork _ | EPerror _ _ | EPrintf _ _ | EFflush_stdout _ | EWait _ => true
  | _ => false
  end.

Definition cls_printpid (e : event) : bool :=
  match e with
  | EGetpid _ | EPrintf _ _ | EFflush_stdout _ => true
  | _ => false
  end.

Definition cls_mounts (e : event) : bool :=
  match e with
  | EMount _ _ _ _ _ _ | EPerror _ _ => true
  | _ => false
  end.

Definition cls_rtprio (e : event) : bool :=
  match e with
  | EGetpid _ | ESched_setscheduler _ _ _ _ | EPerror _ _ => true
  | _ => false
  end.

Definition cls_exec (e : event) : bool :=
  match e with
  | EExecvp _ _ _ | EPerror _ _ | EPrintf _ _ => true
  | _ => false
  end.

(** The calls of lines 237-334. *)
Definition cls_launch (e : event) : bool :=
  cls_session e || cls_fork e || cls_printpid e || cls_cgroup e
  || cls_mounts e || cls_rtprio e || cls_exec e.

(** ** The parts of a run of main *)

(** [follows r p t r']: after a part that gave [r], the next part [p] runs
    with trace [t] and gives [r'], or does not run at all when [r] ended
    the process. *)
Definition follows {A B : Type} (r : result A) (p : prog B) (t : trace)
  (r' : result B) : Prop :=
  match r with
  | Val _ => exec p t r'
  | Halt o => t = [] /\ r' = Halt o
  end.

(** A run of lines 237-334, part by part. *)
Definition launch_parts (inv : invocation) (l0 : locals) (t : trace)
  (res : result Z) : Prop :=
  exists (l : locals) (ts tf tp tc tm tr te : trace)
         (rf rp rc rm rr : result unit),
    exec (main_session l0) ts (Val l) /\
    exec (main_fork l) tf rf /\
    follows rf (main_printpid l) tp rp /\
    follows rp (main_cgroup l) tc rc /\
    follows rc (main_mounts l) tm rm /\
    follows rm (main_rtprio inv l) tr rr /\
    follows rr (main_exec inv) te res /\
    t = (ts ++ tf ++ tp ++ tc ++ tm ++ tr ++ te)%list.

(** Every way the program can end the process satisfies [P]. *)
Fixpoint halts_in {A : Type} (P : outcome -> Prop) (p : prog A) : Prop :=
  match p with
  | Ret _ => True
  | Stop o => P o
  | Call c k => forall r, halts_in P (k r)
  end.

Definition not_aborted (o : outcome) : Prop := o <> Aborted.

(** ** Operating systems and invocations for the examples *)

(** An operating system without state: what every call returns. *)
Definition answers : Type := forall R : Type, syscall R -> R.

Definition os_of (a : answers) : handler unit := fun R c w => (a R c, w).

(** Every call succeeds. We are pid 100 in process group 50, every
    namespace entry has the same identity, and fork returns in the child. *)
Definition all_ok : answers :=
  fun R c =>
    match c in syscall R return R with
    | Getpid => 100
    | Getpgrp => 50
    | Getdtablesize => 5
    | Close _ => 0
    | Get_current_dir_name => Some "/root"
    | Stat _ => Some (1, 1)
    | Open _ _ => 3
    | Setns _ _ => 0
    | Chroot _ => 0
    | Chdir _ => 0
    | Unshare _ => 0
    | Setsid => 100
    | Setpgid _ _ => 0
    | Fork => 0
    | Wait => (101, 0)
    | Fopen _ _ => Some 7
    | Fprintf _ s => Z.of_nat (String.length s)
    | Fclose _ => 0
    | Printf s => Z.of_nat (String.length s)
    | Fflush_stdout => 0
    | Eprintf s => Z.of_nat (String.length s)
    | Perror _ => tt
    | Mount _ _ _ _ _ => 0
    | Sched_setscheduler _ _ _ => 0
    | Execvp _ _ => None
    end.

(** [override a f] answers as [f] where [f] has an answer, else as [a]. *)
Definition override (a : answers) (f : forall R : Type, syscall R -> option R)
  : answers :=
  fun R c => match f R c with Some r => r | None => a R c end.

(** fork returns in the parent, the child being pid 101 *)
Definition fork_parent : forall R : Type, syscall R -> option R :=
  fun R c =>
    match c in syscall R return option R with
    | Fork => Some 101
    | _ => None
    end.

(** we are the leader of our process group *)
Definition group_leader : forall R : Type, syscall R -> option R :=
  fun R c =>
    match c in syscall R return option R with
    | Getpgrp => Some 100
    | _ => None
    end.

Definition opt (c : ascii) : getopt_step :=
  {| go_c := c; go_optarg := None |}.

Definition opt_arg (c : ascii) (s : string) : getopt_step :=
  {| go_c := c; go_optarg := Some s |}.

(** mnexec -p ls *)
Definition inv_print : invocation :=
  {| argv := ["mnexec"; "-p"; "ls"]; inv_getopt := [opt "p"];
     optarg := None; optind := 2 |}.

(** ** Reading the cgroup calls *)

(** The names [validate] lets through. *)
Fixpoint valid_path (s : string) : bool :=
  match s with
  | EmptyString => true
  | String c s' => (isalnum c || (c =? "/")%char) && valid_path s'
  end.

(** The calls for one controller [g]: the open alone when it fails
    ([None]), else the open giving stream [f], the write of the pid line
    returning [n] and the close returning [c]. *)
Definition join_events (gname : string) (pid : Z) (g : string)
  (o : option (Z * Z * Z)) : trace :=
  match o with
  | None => [EFopen (tasks_path g gname) "w" None]
  | Some (f, n, c) =>
      [EFopen (tasks_path g gname) "w" (Some f);
       EFprintf f (fmt_d pid ++ nl) n;
       EFclose f c]
  end.

(** Some controller took the pid: a write to a stream did not fail and
    the close of that stream, which flushes it, returned 0. *)
Definition write_accepted (t : trace) : Prop :=
  exists f s n, In (EFprintf f s n) t /\ 0 <= n /\ In (EFclose f 0) t.

(** every close of a stream fails: the kernel refused the flushed write *)
Definition close_fails : forall R : Type, syscall R -> option R :=
  fun R c =>
    match c in syscall R return option R with
    | Fclose _ => Some (-1)
    | _ => None
    end.

(** no tasks file can be opened *)
Definition fopen_fails : forall R : Type, syscall R -> option R :=
  fun R c =>
    match c in syscall R return option R with
    | Fopen _ _ => Some None
    | _ => None
    end.

(** the mount namespace of pid 42 is not ours and cannot be opened *)
Definition mnt_open_fails : forall R : Type, syscall R -> option R :=
  fun R c =>
    match c in syscall R return option R with
    | Stat path =>
        if (path =? "/proc/42/ns/mnt")%string then Some (Some (1, 2)) else None
    | Open path _ =>
        if (path =? "/proc/42/ns/mnt")%string then Some (-1) else None
    | _ => None
    end.

(** the network namespace of pid 42 is not ours and cannot be opened *)
Definition net_open_fails : forall R : Type, syscall R -> option R :=
  fun R c =>
    match c in syscall R return option R with
    | Stat path =>
        if (path =? "/proc/42/ns/net")%string then Some (Some (1, 2)) else None
    | Open path _ =>
        if (path =? "/proc/42/ns/net")%string then Some (-1) else None
    | _ => None
    end.

(** mnexec -a 42 ls *)
Definition inv_attach : invocation :=
  {| argv := ["mnexec"; "-a"; "42"; "ls"]; inv_getopt := [opt_arg "a" "42"];
     optarg := Some "42"; optind := 3 |}.

(** mnexec -r 5 -g 7x ls, on a C library whose getopt leaves [optarg]
    at the argument of the last option that took one *)
Definition inv_rt : invocation :=
  {| argv := ["mnexec"; "-r"; "5"; "-g"; "7x"; "ls"];
     inv_getopt := [opt_arg "r" "5"; opt_arg "g" "7x"];
     optarg := Some "7x"; optind := 5 |}.

(** ** Reading the mount calls *)

(** The three mounts of main, with what the call returned. *)
Definition mount_private (r : Z) : event :=
  EMount "none" "/" None (Z.lor MS_REC MS_PRIVATE) None r.

Definition mount_sys (r : Z) : event :=
  EMount "sysfs" "/sys" (Some "sysfs") MS_MGC_VAL None r.

Definition mount_proc (r : Z) : event :=
  EMount "proc" "/proc" (Some "proc")
         (Z.lor (Z.lor MS_NOSUID MS_NOEXEC) MS_NODEV) None r.

(** What holds of the mounts in a trace [t], for the effective flags
    [fl]; [failed] says that the process exited with status 1. *)
Record mount_rules (fl : Z) (t : trace) (failed : Prop) : Prop := {
  (* only these three mounts are made, the private one first *)
  mounts_known : forall e, In e t -> is_mount e = true ->
    (exists r, e = mount_private r \/ e = mount_sys r \/ e = mount_proc r) /\
    exists r, In (mount_private r) t;
  (* /sys iff a network namespace *)
  mounts_sys : forall r, In (mount_private r) t -> r <> -1 ->
    ((exists rs, In (mount_sys rs) t) <-> has_flag fl CLONE_NEWNET = true);
  (* /proc iff a PID namespace *)
  mounts_proc : forall r, In (mount_private r) t -> r <> -1 ->
    (forall rs, In (mount_sys rs) t -> rs <> -1) ->
    ((exists rp, In (mount_proc rp) t) <-> has_flag fl CLONE_NEWPID = true);
  (* every step is fatal when it fails *)
  mounts_private_fatal : In (mount_private (-1)) t ->
    failed /\ (forall r, ~ In (mount_sys r) t) /\
    (forall r, ~ In (mount_proc r) t);
  mounts_sys_fatal : In (mount_sys (-1)) t ->
    failed /\ forall r, ~ In (mount_proc r) t;
  mounts_proc_fatal : In (mount_proc (-1)) t -> failed
}.

(** mnexec -n -P ls *)
Definition inv_net_pid : invocation :=
  {| argv := ["mnexec"; "-n"; "-P"; "ls"]; inv_getopt := [opt "n"; opt "P"];
     optarg := None; optind := 3 |}.

(** mnexec -P -p ls *)
Definition inv_pidns : invocation :=
  {| argv := ["mnexec"; "-P"; "-p"; "ls"]; inv_getopt := [opt "P"; opt "p"];
     optarg := None; optind := 3 |}.

(** mnexec -d ls *)
Definition inv_detach : invocation :=
  {| argv := ["mnexec"; "-d"; "ls"]; inv_getopt := [opt "d"];
     optarg := None; optind := 2 |}.

(** mnexec -d -P ls *)
Definition inv_detach_pidns : invocation :=
  {| argv := ["mnexec"; "-d"; "-P"; "ls"]; inv_getopt := [opt "d"; opt "P"];
     optarg := None; optind := 3 |}.

(** ** Reading the session and fork calls *)

(** The test of line 241 as it shows in a trace: getpgrp returned [pgrp]
    and the getpid next to it returned [pid]. *)
Definition leader_check (t : trace) (pgrp pid : Z) : Prop :=
  exists t1 t2, t = (t1 ++ EGetpgrp pgrp :: EGetpid pid :: t2)%list.

(** A PID namespace was created: unshare was given the flag and did not
    fail. *)
Definition pidns_created (t : trace) : Prop :=
  exists f r, In (EUnshare f r) t /\ r <> -1 /\
              has_flag f CLONE_NEWPID = true.

(** the pid namespace of pid 42 is not ours *)
Definition pid_ns_differs : forall R : Type, syscall R -> option R :=
  fun R c =>
    match c in syscall R return option R with
    | Stat path =>
        if (path =? "/proc/42/ns/pid")%string then Some (Some (1, 2)) else None
    | _ => None
    end.

(** ** More ways of reading a trace *)

Definition is_close (e : event) : bool :=
  match e with EClose _ _ => true | _ => false end.
Definition is_fopen (e : event) : bool :=
  match e with EFopen _ _ _ => true | _ => false end.
Definition is_chdir (e : event) : bool :=
  match e with EChdir _ _ => true | _ => false end.

(** The descriptors closed, in the order of the calls. *)
Fixpoint closed_fds (t : trace) : list Z :=
  match t with
  | [] => []
  | EClose fd _ :: t' => fd :: closed_fds t'
  | _ :: t' => closed_fds t'
  end.

(** [n, n - 1, ...], [k] numbers. *)
Fixpoint countdown (k : nat) (n : Z) : list Z :=
  match k with
  | O => []
  | S k' => n :: countdown k' (n - 1)
  end.

(** The calls of closing descriptors. *)
Definition cls_closefds (e : event) : bool :=
  match e with
  | EGetdtablesize _ | EClose _ _ => true
  | _ => false
  end.

(** The calls of [attach]. *)
Definition cls_attach (e : event) : bool :=
  match e with
  | EGet_current_dir_name _ | EStat _ _ | EOpen _ _ _ | ESetns _ _ _
  | EChroot _ _ | EChdir _ _ | EPerror _ _ | EEprintf _ _ => true
  | _ => false
  end.

(** The four namespace bits together. *)
Definition CLONE_ALL : Z :=
  Z.lor (Z.lor CLONE_NEWNET CLONE_NEWPID) (Z.lor CLONE_NEWUTS CLONE_NEWNS).

(** The flag sets the options can build: nothing but namespace bits, and
    the mount namespace with the network or the PID namespace. *)
Definition flags_built (f : Z) : Prop :=
  Z.lor f CLONE_ALL = CLONE_ALL /\
  (has_flag f CLONE_NEWNET = true -> has_flag f CLONE_NEWNS = true) /\
  (has_flag f CLONE_NEWPID = true -> has_flag f CLONE_NEWNS = true).

(** The option letters after which [main] goes on parsing. *)
Definition plain_option (c : ascii) : bool :=
  existsb (Ascii.eqb c)
    ["c"; "d"; "m"; "n"; "p"; "P"; "a"; "g"; "r"; "u"]%char.


(** The ways the launch can end, from the locals [l] it starts with. *)
Definition launch_outcome (inv : invocation) (l : locals) (o : outcome)
  : Prop :=
  o = Exited 0 \/ o = Exited 1 \/
  (exists file rest,
      skipn (optind inv) (argv inv) = file :: rest /\
      o = Execed file (file :: rest)) \/
  (o = Undefined /\ optarg inv = None /\ rtprio l <> 0).

(** The same, or the failed assertion. *)
Definition launch_end (inv : invocation) (l : locals) (o : outcome) : Prop :=
  launch_outcome inv l o \/ o = Aborted.

(** Some -r option has an argument that atoi does not read as 0. *)
Definition rtprio_asked (inv : invocation) : Prop :=
  exists o s, In o (inv_getopt inv) /\ go_c o = "r"%char /\
              go_optarg o = Some s /\ atoi s <> 0.

(** The ways a run of main can end. *)
Definition main_outcome (inv : invocation) (o : outcome) : Prop :=
  o = Exited 0 \/ o = Exited 1 \/
  (exists file rest,
      skipn (optind inv) (argv inv) = file :: rest /\
      o = Execed file (file :: rest)) \/
  (o = Undefined /\
   ((optarg inv = None /\ rtprio_asked inv) \/
    exists s, In s (inv_getopt inv) /\ go_optarg s = None /\
              (go_c s = "a"%char \/ go_c s = "r"%char))).

(** mnexec -c -n -h *)
Definition inv_help : invocation :=
  {| argv := ["mnexec"; "-c"; "-n"; "-h"];
     inv_getopt := [opt "c"; opt "n"; opt "h"];
     optarg := None; optind := 4 |}.

(** mnexec -c -a 42 ls *)
Definition inv_close_attach : invocation :=
  {| argv := ["mnexec"; "-c"; "-a"; "42"; "ls"];
     inv_getopt := [opt "c"; opt_arg "a" "42"];
     optarg := Some "42"; optind := 4 |}.

(** no namespace entry of pid 42 is ours *)
Definition all_ns_differ : forall R : Type, syscall R -> option R :=
  fun R c =>
    match c in syscall R return option R with
    | Stat path =>
        if String.prefix "/proc/42/" path then Some (Some (1, 2)) else None
    | _ => None
    end.


(** ** Diagnostics *)

(** A diagnostic on stderr. *)
Definition is_diag (e : event) : bool :=
  match e with
  | EPerror _ _ | EEprintf _ _ => true
  | _ => false
  end.

(** The program cannot return: every way through it stops the process,
    with exit status 1. *)
Fixpoint fatal {A : Type} (p : prog A) : Prop :=
  match p with
  | Ret _ => False
  | Stop o => o = Exited 1
  | Call _ k => forall r, fatal (k r)
  end.

(** Whenever the program prints a diagnostic, what is left of it is
    [fatal]. *)
Fixpoint diag_fatal {A : Type} (p : prog A) : Prop :=
  match p with
  | Ret _ => True
  | Stop _ => True
  | Call c k =>
      forall r, (is_diag (ev c r) = true -> fatal (k r)) /\ diag_fatal (k r)
  end.

(** open and setns report a failure as -1. *)
Definition minus_one_on_failure (t : trace) : Prop :=
  (forall p o r, In (EOpen p o r) t -> r < 0 -> r = -1) /\
  (forall fd ty r, In (ESetns fd ty r) t -> r < 0 -> r = -1).

(** mnexec -a 42 ls, the network namespace of pid 42 cannot be opened *)
Definition os_net_open_fails : handler unit :=
  os_of (override all_ok net_open_fails).


(** The calls that only [attach] makes. *)
Definition is_attach_call (e : event) : bool :=
  match e with
  | EGet_current_dir_name _ | EStat _ _ | EOpen _ _ _ | ESetns _ _ _
  | EChroot _ _ | EChdir _ _ => true
  | _ => false
  end.

(** The calls of the loop of [attach]. *)
Definition cls_attach_loop (e : event) : bool :=
  cls_attachns e || is_chroot e.

Definition is_getcwd (e : event) : bool :=
  match e with EGet_current_dir_name _ => true | _ => false end.

(** mnexec -a 42 ls, every namespace of pid 42 differs from ours *)
Definition os_all_ns_differ : handler unit :=
  os_of (override all_ok all_ns_differ).


(** The calls on the tasks files of the cgroup join. *)
Definition is_stream (e : event) : bool :=
  match e with
  | EFopen _ _ _ | EFprintf _ _ _ | EFclose _ _ => true
  | _ => false
  end.

(** What is done for the command alone: the cgroup join, the mounts,
    the scheduling priority and the execvp; and a fork. *)
Definition is_child_work (e : event) : bool :=
  is_stream e || is_mount e || is_sched e || is_execvp e || is_fork e.

(** mnexec -P -g 7x ls *)
Definition inv_pidns_group : invocation :=
  {| argv := ["mnexec"; "-P"; "-g"; "7x"; "ls"];
     inv_getopt := [opt "P"; opt_arg "g" "7x"];
     optarg := Some "7x"; optind := 4 |}.


(** mnexec -a x1 ls: the argument of -a is not a number *)
Definition inv_attach_text : invocation :=
  {| argv := ["mnexec"; "-a"; "x1"; "ls"]; inv_getopt := [opt_arg "a" "x1"];
     optarg := Some "x1"; optind := 3 |}.


(** mnexec -n: no command *)
Definition inv_no_command : invocation :=
  {| argv := ["mnexec"; "-n"]; inv_getopt := [opt "n"];
     optarg := None; optind := 2 |}.


(** ** Sessions and the kernel *)

(** The kernel refuses setsid to the leader of a process group (EPERM,
    setsid(2)): a setsid made right after getpgrp and getpid returned
    the same number returns -1. *)
Definition setsid_refused_to_leaders (t : trace) : Prop :=
  forall ta p r tb,
    t = (ta ++ EGetpgrp p :: EGetpid p :: ESetsid r :: tb)%list -> r = -1.

(** we are the leader of our process group, so setsid is refused *)
Definition leader_setsid_refused : forall R : Type, syscall R -> option R :=
  fun R c =>
    match c in syscall R return option R with
    | Getpgrp => Some 100
    | Setsid => Some (-1)
    | _ => None
    end.

(** mnexec -r 5 -g 7x ls on the GNU C library, whose getopt sets optarg
    to NULL at the start of every call, the last one included *)
Definition inv_rt_gnu : invocation :=
  {| argv := ["mnexec"; "-r"; "5"; "-g"; "7x"; "ls"];
     inv_getopt := [opt_arg "r" "5"; opt_arg "g" "7x"];
     optarg := None; optind := 5 |}.

(** * Properties *)

Local Open Scope list_scope.

(** ** The model on small inputs *)

Example report_bytes :
  nat_of_ascii "001" = 1%nat /\ nat_of_ascii "010" = 10%nat /\
  pid_report 4711 = String "001" ("4711" ++ nl).
Proof. repeat split. Qed.

Example fmt_d_samples :
  fmt_d 0 = "0" /\ fmt_d 1234 = "1234" /\ fmt_d (-50) = "-50".
Proof. repeat split. Qed.

Example atoi_samples :
  atoi "42" = 42 /\ atoi "  -7" = -7 /\ atoi "7x" = 7 /\ atoi "h1" = 0 /\
  atoi "+15 " = 15 /\ atoi "" = 0.
Proof. repeat split. Qed.

(** Texts whose value does not fit an int. *)
Example atoi_wraps :
  atoi "2147483647" = INT_MAX /\ atoi "2147483648" = INT_MIN /\
  atoi "4294967296" = 0 /\ atoi "4294967338" = 42 /\
  atoi "99999999999" = 1215752191 /\
  atoi "9223372036854775808" = -1 /\ atoi "-9223372036854775809" = 0.
Proof. repeat split. Qed.

Example isalnum_samples :
  isalnum "a" = true /\ isalnum "Z" = true /\ isalnum "7" = true /\
  isalnum "/" = false /\ isalnum "." = false /\ isalnum " " = false.
Proof. repeat split. Qed.

Example valid_path_samples :
  valid_path "foo1/bar2/baz" = true /\ valid_path "../etc" = false /\
  valid_path "a b" = false.
Proof. repeat split. Qed.

Example paths :
  ns_path 42 {| type := CLONE_NEWNS; name := "mnt" |} = "/proc/42/ns/mnt" /\
  ns_self {| type := CLONE_NEWNET; name := "net" |} = "/proc/self/ns/net" /\
  root_path 42 = "/proc/42/root" /\
  tasks_path "cpuacct" "h1" = "/sys/fs/cgroup/cpuacct/h1/tasks".
Proof. repeat split. Qed.

(** The namespace flags are four different bits. *)
Example flags_are_bits :
  CLONE_NEWNS = 2 ^ 17 /\ CLONE_NEWUTS = 2 ^ 26 /\ CLONE_NEWPID = 2 ^ 29 /\
  CLONE_NEWNET = 2 ^ 30.
Proof. repeat split. Qed.

(** -n and -P both bring the mount namespace along. *)
Example option_flags :
  run_result (run (os_of all_ok) (main_setup inv_net_pid) tt)
  = Val (set_flags init_locals
           (Z.lor (Z.lor CLONE_NEWNET CLONE_NEWPID) CLONE_NEWNS)).
Proof. reflexivity. Qed.

(** mnexec -p ls, run to the end: unshare with no flag, a new process
    group, the report of our own pid, then the command. *)
Example run_print :
  run (os_of all_ok) (main inv_print) tt
  = MkRun (Halt (Execed "ls" ["ls"])) tt
      [EUnshare 0 0; ESetpgid 0 0 0; EGetpid 100;
       EPrintf (pid_report 100) 5; EFflush_stdout 0;
       EExecvp "ls" ["ls"] None].
Proof. reflexivity. Qed.

(** -c closes every descriptor from the table size down to 3. *)
Example run_closefds :
  run_trace
    (run (os_of all_ok) (main_closefds (set_closefds init_locals 1)) tt)
  = [EGetdtablesize 5; EClose 5 0; EClose 4 0; EClose 3 0].
Proof. reflexivity. Qed.

(** ** Program trees and their runs *)

Lemma exec_bind_intro (A B : Type) (p : prog A) (f : A -> prog B) :
  forall t1 a t2 res,
    exec p t1 (Val a) -> exec (f a) t2 res -> exec (bind p f) (t1 ++ t2) res.
Proof.
  induction p as [a0 | o | R c k IH]; simpl; intros t1 a t2 res H1 H2.
  - destruct H1 as [-> E]. injection E as <-. exact H2.
  - destruct H1 as [_ E]. discriminate E.
  - destruct H1 as (r & t' & -> & H1).
    exists r, (t' ++ t2). split; [reflexivity | eauto].
Qed.

Lemma exec_bind_halt (A B : Type) (p : prog A) (f : A -> prog B) :
  forall t o, exec p t (Halt o) -> exec (bind p f) t (Halt o).
Proof.
  induction p as [a0 | o0 | R c k IH]; simpl; intros t o H.
  - destruct H as [_ E]. discriminate E.
  - destruct H as [-> E]. injection E as <-. auto.
  - destruct H as (r & t' & -> & H). exists r, t'. eauto.
Qed.

(** A run of [p ;; f] is a run of [p] that ends the process, or one that
    gives a value followed by a run of [f] on it. *)
Lemma exec_bind_inv (A B : Type) (p : prog A) (f : A -> prog B) :
  forall t res,
    exec (bind p f) t res ->
    (exists o, exec p t (Halt o) /\ res = Halt o) \/
    (exists a t1 t2, exec p t1 (Val a) /\ exec (f a) t2 res /\ t = t1 ++ t2).
Proof.
  induction p as [a0 | o | R c k IH]; simpl; intros t res H.
  - right. exists a0, [], t. auto.
  - left. exists o. destruct H as [-> ->]. auto.
  - destruct H as (r & t' & -> & H).
    destruct (IH r _ _ H) as [(o & Ho & ->) | (a & t1 & t2 & H1 & H2 & ->)].
    + left. exists o. split; [exists r, t'; auto | reflexivity].
    + right. exists a, (ev c r :: t1), t2. split; [exists r, t1; auto | auto].
Qed.

(** Every run under a handler is one of the runs [exec] describes. *)
Lemma run_exec (W A : Type) (os : handler W) (p : prog A) :
  forall w, exec p (run_trace (run os p w)) (run_result (run os p w)).
Proof.
  induction p as [a | o | R c k IH]; simpl; intros w; auto.
  destruct (os R c w) as [r w']. simpl. exists r, (run_trace (run os (k r) w')).
  split; [reflexivity | apply IH].
Qed.

Lemma run_bind (W A B : Type) (os : handler W) (p : prog A) (f : A -> prog B) :
  forall w,
    run os (bind p f) w =
    match run_result (run os p w) with
    | Val a =>
        let rest := run os (f a) (run_world (run os p w)) in
        MkRun (run_result rest) (run_world rest)
              (run_trace (run os p w) ++ run_trace rest)
    | Halt o => MkRun (Halt o) (run_world (run os p w)) (run_trace (run os p w))
    end.
Proof.
  induction p as [a | o | R c k IH]; simpl; intros w.
  - destruct (run os (f a) w); reflexivity.
  - reflexivity.
  - destruct (os R c w) as [r w']. rewrite IH. simpl.
    destruct (run_result (run os (k r) w')); reflexivity.
Qed.

(** ** Classes of events *)

Lemma emits_bind (A B : Type) (cls : event -> bool) (p : prog A)
  (f : A -> prog B) :
  emits cls p -> (forall a, emits cls (f a)) -> emits cls (bind p f).
Proof.
  induction p as [a | o | R c k IH]; simpl; intros Hp Hf; auto.
  intros r. destruct (Hp r) as [Hc Hk]. split; auto.
Qed.

Lemma emits_weaken (A : Type) (cls cls' : event -> bool) (p : prog A) :
  (forall e, cls e = true -> cls' e = true) -> emits cls p -> emits cls' p.
Proof.
  intros Hw. induction p as [a | o | R c k IH]; simpl; auto.
  intros Hp r. destruct (Hp r) as [Hc Hk]. split; auto.
Qed.

Lemma emits_exec (A : Type) (cls : event -> bool) (p : prog A) :
  emits cls p ->
  forall t res, exec p t res -> Forall (fun e => cls e = true) t.
Proof.
  induction p as [a | o | R c k IH]; simpl; intros Hp t res H.
  - destruct H as [-> _]. constructor.
  - destruct H as [-> _]. constructor.
  - destruct H as (r & t' & -> & H). destruct (Hp r) as [Hc Hk].
    constructor; eauto.
Qed.

Lemma emits_never (A : Type) (cls f : event -> bool) (p : prog A) :
  emits cls p ->
  (forall e, cls e = true -> f e = false) ->
  forall t res, exec p t res -> never f t.
Proof.
  intros Hp Hf t res H. unfold never.
  eapply Forall_impl; [| eapply emits_exec; eauto]. auto.
Qed.

(** ** attachns and attach *)

Lemma same_ns_refl (id : Z * Z) : same_ns (Some id) (Some id) = true.
Proof.
  destruct id as [dev ino]. simpl. now rewrite !Z.eqb_refl.
Qed.

(** The two stat calls always come first. *)
Lemma attachns_exec_stats (pid : Z) (ns : namespace) (t : trace)
  (res : result Z) :
  exec (attachns pid ns) t res ->
  exists stat1 stat2 t',
    t = EStat (ns_path pid ns) stat1 :: EStat (ns_self ns) stat2 :: t' /\
    (same_ns stat1 stat2 = true -> t' = [] /\ res = Val 0).
Proof.
  unfold attachns. simpl.
  intros (stat1 & t1 & -> & stat2 & t2 & -> & H).
  exists stat1, stat2, t2. split; [reflexivity |].
  intros Hs. rewrite Hs in H. simpl in H. destruct H as [-> ->]. auto.
Qed.

Lemma emits_call (R : Type) (cls : event -> bool) (c : syscall R) :
  (forall r, cls (ev c r) = true) -> emits cls (call c).
Proof. intros H r. split; [apply H | exact I]. Qed.

Create HintDb emits discriminated.

Ltac emits_step :=
  match goal with
  | |- emits _ (bind _ _) => apply emits_bind
  | |- emits _ (call _) => apply emits_call; intro; reflexivity
  | |- emits _ (perror _) => apply emits_call; intro; reflexivity
  | |- emits _ (Ret _) => exact I
  | |- emits _ (Stop _) => exact I
  | |- emits _ (if ?b then _ else _) => destruct b
  | |- emits _ (match ?x with _ => _ end) => destruct x
  | |- forall _, _ => intro
  | |- emits _ _ => solve [auto with emits]
  end.

Ltac emits_tac := repeat emits_step.

Lemma emits_attachns (pid : Z) (ns : namespace) :
  emits cls_namespaces (attachns pid ns).
Proof. unfold attachns. emits_tac. Qed.

#[local] Hint Resolve emits_attachns : emits.

Lemma emits_attach_loop (pid : Z) (nss : list namespace) :
  forall flag, emits cls_namespaces (attach_loop pid nss flag).
Proof.
  induction nss as [| ns nss IH]; intros flag; cbn [attach_loop];
    emits_tac; apply IH.
Qed.

#[local] Hint Resolve emits_attach_loop : emits.

Lemma emits_attach (pid : Z) : emits cls_namespaces (attach pid).
Proof. unfold attach. emits_tac. Qed.

#[local] Hint Resolve emits_attach : emits.

Lemma emits_close_down (turns : nat) :
  forall fd, emits cls_namespaces (close_down turns fd).
Proof.
  induction turns as [| turns IH]; intros fd; cbn [close_down];
    emits_tac; apply IH.
Qed.

#[local] Hint Resolve emits_close_down : emits.

Lemma emits_main_closefds (l : locals) : emits cls_namespaces (main_closefds l).
Proof. unfold main_closefds. emits_tac. Qed.

#[local] Hint Resolve emits_main_closefds : emits.

(** ** The calls of each part of main *)

Lemma emits_validate_from (path s : string) :
  emits cls_cgroup (validate_from path s).
Proof.
  induction s as [| c s IH]; cbn [validate_from]; emits_tac.
Qed.

#[local] Hint Resolve emits_validate_from : emits.

Lemma emits_cgroup_loop (gptr : list string) (gname : string) (pid : Z) :
  forall n, emits cls_cgroup (cgroup_loop gptr gname pid n).
Proof.
  induction gptr as [| g gptr IH]; intros n; cbn [cgroup_loop];
    emits_tac; try apply IH.
Qed.

#[local] Hint Resolve emits_cgroup_loop : emits.

Lemma emits_cgroup (gname : string) : emits cls_cgroup (cgroup gname).
Proof. unfold cgroup, validate. emits_tac. Qed.

#[local] Hint Resolve emits_cgroup : emits.

Lemma emits_main_cgroup (l : locals) : emits cls_cgroup (main_cgroup l).
Proof. unfold main_cgroup. emits_tac. Qed.

Lemma emits_main_session (l : locals) : emits cls_session (main_session l).
Proof. unfold main_session. emits_tac. Qed.

Lemma emits_main_fork (l : locals) : emits cls_fork (main_fork l).
Proof. unfold main_fork. emits_tac. Qed.

Lemma emits_main_printpid (l : locals) : emits cls_printpid (main_printpid l).
Proof. unfold main_printpid, assert. emits_tac. Qed.

Lemma emits_main_mounts (l : locals) : emits cls_mounts (main_mounts l).
Proof. unfold main_mounts. emits_tac. Qed.

Lemma emits_main_rtprio (inv : invocation) (l : locals) :
  emits cls_rtprio (main_rtprio inv l).
Proof. unfold main_rtprio, atoi_ptr. emits_tac. Qed.

Lemma emits_main_exec (inv : invocation) : emits cls_exec (main_exec inv).
Proof. unfold main_exec, usage. emits_tac. Qed.

#[local] Hint Resolve emits_main_cgroup emits_main_session emits_main_fork
  emits_main_printpid emits_main_mounts emits_main_rtprio emits_main_exec
  : emits.

(** ** Option parsing and setup *)

(** One option either updates the locals without any call, or ends the
    process: after the version or usage text, or in [atoi(NULL)]. *)
Lemma main_switch_exec (inv : invocation) (o : getopt_step) (l : locals)
  (t : trace) (res : result locals) :
  exec (main_switch inv o l) t res ->
  (t = [] /\ exists l', res = Val l' /\ dofork l' = dofork l) \/
  (t = [] /\ res = Halt Undefined) \/
  (exists s r st, t = [EPrintf s r] /\ res = Halt (Exited st) /\
     (s = (VERSION ++ nl)%string \/ s = usage_text (argv0 inv))).
Proof.
  unfold main_switch, atoi_ptr, usage.
  repeat match goal with
         | |- exec (if ?b then _ else _) _ _ -> _ => destruct b
         end;
    try (simpl; intros [-> ->]; left; split; [reflexivity |];
         eexists; split; reflexivity).
  - destruct (go_optarg o); simpl; intros [-> ->]; [left | right; left]; auto.
    split; [reflexivity |]. eexists; split; reflexivity.
  - destruct (go_optarg o); simpl; intros [-> ->]; [left | right; left]; auto.
    split; [reflexivity |]. eexists; split; reflexivity.
  - simpl. intros (r & t' & -> & -> & ->). right. right.
    exists (VERSION ++ nl)%string, r, 0. auto.
  - simpl. intros (r & t' & -> & -> & ->). right. right.
    exists (usage_text (argv0 inv)), r, 0. auto.
  - simpl. intros (r & t' & -> & -> & ->). right. right.
    exists (usage_text (argv0 inv)), r, 1. auto.
Qed.

Lemma main_getopt_exec (inv : invocation) (steps : list getopt_step) :
  forall (l : locals) (t : trace) (res : result locals),
    exec (main_getopt inv steps l) t res ->
    (t = [] /\ exists l', res = Val l' /\ dofork l' = dofork l) \/
    (t = [] /\ res = Halt Undefined) \/
    (exists s r st, t = [EPrintf s r] /\ res = Halt (Exited st) /\
       (s = (VERSION ++ nl)%string \/ s = usage_text (argv0 inv))).
Proof.
  induction steps as [| o steps IH]; intros l t res; cbn [main_getopt].
  - simpl. intros [-> ->]. left. split; [reflexivity |]. exists l. auto.
  - intros H. apply exec_bind_inv in H.
    destruct H as [(o' & H & ->) | (l1 & t1 & t2 & H1 & H2 & ->)].
    + apply main_switch_exec in H.
      destruct H as [(_ & l' & E & _) | H]; [discriminate E |].
      right; assumption.
    + apply main_switch_exec in H1.
      destruct H1 as [(-> & l' & E & Hd) | [(_ & E) | (s & r & st & _ & E & _)]];
        try discriminate E.
      injection E as <-. apply IH in H2. simpl.
      destruct H2 as [(-> & l'' & -> & Hd') | H2]; [| right; assumption].
      left. split; [reflexivity |]. exists l''. split; [reflexivity | congruence].
Qed.

Lemma cls_namespaces_setup (t : trace) :
  Forall (fun e => cls_namespaces e = true) t ->
  Forall (fun e => cls_setup e = true) t.
Proof.
  apply Forall_impl. intros e H. unfold cls_setup. now rewrite H.
Qed.

(** Attach mode makes calls of the namespace class only and never leaves
    -1 in the flags; create mode is the one call of unshare. *)
Lemma main_namespaces_exec (l : locals) (t : trace) (res : result locals) :
  exec (main_namespaces l) t res ->
  (attachpid l <> 0 /\ Forall (fun e => cls_namespaces e = true) t /\
   forall l0, res = Val l0 -> exists f, l0 = set_flags l f /\ f <> -1) \/
  (attachpid l = 0 /\ exists r,
     (r = -1 /\ t = [EUnshare (flags l) r; EPerror (Some "unshare") tt] /\
      res = Halt (Exited 1)) \/
     (r <> -1 /\ t = [EUnshare (flags l) r] /\ res = Val l)).
Proof.
  unfold main_namespaces, truthy.
  destruct (Z.eqb_spec (attachpid l) 0) as [Ha | Ha]; cbn [negb]; intros H.
  - right. split; [assumption |]. simpl in H.
    destruct H as (r & t' & -> & H). exists r.
    destruct (Z.eqb_spec r (-1)) as [-> | Hr]; simpl in H.
    + destruct H as ([] & t'' & -> & -> & ->). left. auto.
    + destruct H as [-> ->]. right. auto.
  - left. split; [assumption |]. apply exec_bind_inv in H.
    destruct H as [(o & H & ->) | (f & t1 & t2 & H1 & H2 & ->)].
    + split; [eapply emits_exec; [apply emits_attach | eassumption] |].
      intros l0 E. discriminate E.
    + assert (H3 : Forall (fun e => cls_namespaces e = true) t1)
        by (eapply emits_exec; [apply emits_attach | eassumption]).
      destruct (Z.eqb_spec f (-1)) as [-> | Hf]; simpl in H2;
        destruct H2 as [-> E2]; rewrite app_nil_r; (split; [assumption |]);
        intros l0 E; rewrite E2 in E; [discriminate E |].
      injection E as E. exists f. auto.
Qed.

(** What the setup leaves: it ends the process after the version or usage
    text, or makes only calls of the setup class; when it gives the
    locals, no fork has been asked for yet; in create mode the flags are
    those that the last call, unshare, was given with success; in attach
    mode unshare is not called and the flags are not -1. *)
Lemma main_setup_exec (inv : invocation) (t : trace) (res : result locals) :
  exec (main_setup inv) t res ->
  (exists s r st, t = [EPrintf s r] /\ res = Halt (Exited st) /\
     (s = (VERSION ++ nl)%string \/ s = usage_text (argv0 inv))) \/
  (Forall (fun e => cls_setup e = true) t /\
   forall l0, res = Val l0 ->
     dofork l0 = 0 /\
     (attachpid l0 = 0 ->
        exists t' r, t = t' ++ [EUnshare (flags l0) r] /\ r <> -1 /\
                     Forall (fun e => cls_namespaces e = true) t') /\
     (attachpid l0 <> 0 ->
        Forall (fun e => cls_namespaces e = true) t /\ flags l0 <> -1)).
Proof.
  unfold main_setup. intros H. apply exec_bind_inv in H.
  destruct H as [(o & H & ->) | (l1 & t1 & t2 & H1 & H2 & ->)].
  - apply main_getopt_exec in H.
    destruct H as [(_ & l' & E & _) | [(-> & _) | H]]; [discriminate E | |].
    + right. split; [constructor | intros l0 E; discriminate E].
    + left. assumption.
  - apply main_getopt_exec in H1.
    destruct H1 as [(-> & l' & E & Hd) | [(_ & E) | (s & r & st & _ & E & _)]];
      try discriminate E.
    injection E as E. subst l'. simpl in Hd. right. simpl.
    apply exec_bind_inv in H2.
    destruct H2 as [(o & H & ->) | ([] & t3 & t4 & H3 & H4 & ->)].
    + split; [| intros l0 E; discriminate E].
      apply cls_namespaces_setup.
      eapply emits_exec; [apply emits_main_closefds | eassumption].
    + assert (Hc : Forall (fun e => cls_namespaces e = true) t3)
        by (eapply emits_exec; [apply emits_main_closefds | eassumption]).
      apply main_namespaces_exec in H4.
      destruct H4 as [(Ha & Hn & Hl) | (Ha & r & [(-> & -> & ->) | (Hr & -> & ->)])].
      * split; [apply cls_namespaces_setup, Forall_app; auto |].
        intros l0 E. destruct (Hl l0 E) as (f & -> & Hf). simpl.
        split; [assumption |]. split; [intros E'; contradiction |].
        intros _. split; [apply Forall_app; auto | assumption].
      * split; [| intros l0 E; discriminate E].
        apply Forall_app. split; [apply cls_namespaces_setup; assumption |].
        repeat constructor.
      * split.
        { apply Forall_app. split; [apply cls_namespaces_setup; assumption |].
          repeat constructor. }
        intros l0 E. injection E as E. subst l0.
        split; [assumption |]. split; [| intros E'; contradiction].
        intros _. exists t3, r. auto.
Qed.

(** ** Session, fork and PID report *)

Lemma truthy_true (z : Z) : truthy z = true <-> z <> 0.
Proof.
  unfold truthy. rewrite negb_true_iff. apply Z.eqb_neq.
Qed.

Lemma truthy_false (z : Z) : truthy z = false <-> z = 0.
Proof.
  unfold truthy. rewrite negb_false_iff. apply Z.eqb_eq.
Qed.

(** The session part never ends the process. It leaves every local but
    [dofork] and [detachtty] as it was, and makes one of three sequences
    of calls. *)
Lemma main_session_exec (l0 : locals) (t : trace) (res : result locals) :
  exec (main_session l0) t res ->
  exists l, res = Val l /\
    flags l = flags l0 /\ printpid l = printpid l0 /\
    attachpid l = attachpid l0 /\ cgrouparg l = cgrouparg l0 /\
    rtprio l = rtprio l0 /\
    ((detachtty l0 = 0 /\ (exists r, t = [ESetpgid 0 0 r]) /\
      truthy (dofork l) = has_flag (flags l0) CLONE_NEWPID || truthy (dofork l0))
     \/
     (detachtty l0 <> 0 /\ exists pgrp pid r,
        (pgrp = pid /\ t = [EGetpgrp pgrp; EGetpid pid; ESetsid r] /\
         truthy (dofork l) = true) \/
        (pgrp <> pid /\ t = [EGetpgrp pgrp; EGetpid pid; ESetpgid 0 0 r] /\
         truthy (dofork l) =
           has_flag (flags l0) CLONE_NEWPID || truthy (dofork l0)))).
Proof.
  unfold main_session.
  destruct (has_flag (flags l0) CLONE_NEWPID) eqn:Hf;
    cbn [flags detachtty set_dofork dofork];
    (destruct (truthy (detachtty l0)) eqn:Hd;
     [apply truthy_true in Hd | apply truthy_false in Hd]); simpl.
  all: try (intros (pgrp & t1 & -> & pid & t2 & -> & H);
            destruct (Z.eqb_spec pgrp pid) as [E | E]; simpl in H;
            [rewrite (proj2 (truthy_true _) Hd) in H; simpl in H |];
            destruct H as (r & t3 & -> & -> & ->);
            eexists; (split; [reflexivity |]); simpl;
            repeat (split; [reflexivity |]);
            right; (split; [assumption |]); exists pgrp, pid, r;
            solve [left; auto | right; auto]).
  all: intros (r & t1 & -> & -> & ->); eexists; split; [reflexivity |]; simpl;
    repeat (split; [reflexivity |]); left; split; [assumption |];
    split; [exists r; reflexivity | reflexivity].
Qed.

(** The fork part: nothing without [dofork]; otherwise one fork, after
    which the process goes on only as the child. *)
Lemma main_fork_exec (l : locals) (t : trace) (res : result unit) :
  exec (main_fork l) t res ->
  (truthy (dofork l) = false /\ t = [] /\ res = Val tt) \/
  (truthy (dofork l) = true /\ exists pid,
     (pid = -1 /\ t = [EFork pid; EPerror (Some "fork") tt] /\
      res = Halt (Exited 1)) \/
     (pid = 0 /\ t = [EFork pid] /\ res = Val tt) \/
     (pid <> -1 /\ pid <> 0 /\ res = Halt (Exited 0) /\
      exists t1 t2,
        t = EFork pid :: t1 ++ t2 /\
        ((truthy (printpid l) = true /\
          exists r r', t1 = [EPrintf (pid_report pid) r; EFflush_stdout r']) \/
         (truthy (printpid l) = false /\ t1 = [])) /\
        ((has_flag (flags l) CLONE_NEWPID = true /\
          exists st, t2 = [EWait st]) \/
         (has_flag (flags l) CLONE_NEWPID = false /\ t2 = [])))).
Proof.
  unfold main_fork. destruct (truthy (dofork l)); [| simpl; intros [-> ->]; auto].
  simpl. intros (pid & t' & -> & H). right. split; [reflexivity |]. exists pid.
  destruct (Z.eqb_spec pid (-1)) as [E1 | E1]; simpl in H.
  { destruct H as ([] & t1 & -> & -> & ->). left. auto. }
  destruct (Z.eqb_spec pid 0) as [E0 | E0]; simpl in H.
  { destruct H as [-> ->]. right. left. auto. }
  right. right. split; [assumption |]. split; [assumption |].
  destruct (truthy (printpid l)); simpl in H.
  - destruct H as (r & t1 & -> & r' & t2 & -> & H).
    destruct (has_flag (flags l) CLONE_NEWPID); simpl in H.
    + destruct H as (st & t3 & -> & -> & ->). split; [reflexivity |].
      exists [EPrintf (pid_report pid) r; EFflush_stdout r'], [EWait st].
      split; [reflexivity |]. split; [left | left]; eauto.
    + destruct H as [-> ->]. split; [reflexivity |].
      exists [EPrintf (pid_report pid) r; EFflush_stdout r'], [].
      split; [reflexivity |]. split; [left | right]; eauto.
  - destruct (has_flag (flags l) CLONE_NEWPID); simpl in H.
    + destruct H as (st & t3 & -> & -> & ->). split; [reflexivity |].
      exists [], [EWait st]. split; [reflexivity |].
      split; [right | left]; eauto.
    + destruct H as [-> ->]. split; [reflexivity |].
      exists [], []. split; [reflexivity |]. split; [right | right]; eauto.
Qed.

(** The report of our own pid: made only without [dofork]. *)
Lemma main_printpid_exec (l : locals) (t : trace) (res : result unit) :
  exec (main_printpid l) t res ->
  (t = [] /\ res = Val tt) \/
  (truthy (printpid l) = true /\ truthy (dofork l) = false /\
   ((has_flag (flags l) CLONE_NEWPID = true /\ t = [] /\ res = Halt Aborted) \/
    (has_flag (flags l) CLONE_NEWPID = false /\ res = Val tt /\
     exists pid r r',
       t = [EGetpid pid; EPrintf (pid_report pid) r; EFflush_stdout r']))).
Proof.
  unfold main_printpid, assert.
  destruct (truthy (printpid l)); [| simpl; intros [-> ->]; auto].
  destruct (truthy (dofork l)); [simpl; intros [-> ->]; auto |].
  simpl. intros H. right. split; [reflexivity |]. split; [reflexivity |].
  destruct (has_flag (flags l) CLONE_NEWPID); simpl in H.
  - destruct H as [-> ->]. left. auto.
  - destruct H as (pid & t1 & -> & r & t2 & -> & r' & t3 & -> & -> & ->).
    right. split; [reflexivity |]. split; [reflexivity |].
    exists pid, r, r'. reflexivity.
Qed.

(** ** A run of main, part by part *)

Lemma follows_bind (A B C : Type) (q : prog B) (f : B -> prog C)
  (t : trace) (r : result A) (res : result C) :
  follows r (bind q f) t res ->
  exists t1 t2 r1,
    follows r q t1 r1 /\ t = t1 ++ t2 /\
    match r1 with
    | Val b => exec (f b) t2 res
    | Halt o => t2 = [] /\ res = Halt o
    end.
Proof.
  destruct r as [a | o]; simpl.
  - intros H. apply exec_bind_inv in H.
    destruct H as [(o & H & ->) | (b & t1 & t2 & H1 & H2 & ->)].
    + exists t, [], (Halt o). rewrite app_nil_r. auto.
    + exists t1, t2, (Val b). auto.
  - intros [-> ->]. exists [], [], (Halt o). auto.
Qed.

Lemma follows_emits (A B : Type) (cls : event -> bool) (r : result A)
  (p : prog B) (t : trace) (r' : result B) :
  emits cls p -> follows r p t r' -> Forall (fun e => cls e = true) t.
Proof.
  destruct r as [a | o]; simpl; intros Hp H.
  - eapply emits_exec; eassumption.
  - destruct H as [-> _]. constructor.
Qed.

Lemma follows_halt (A B : Type) (o : outcome) (p : prog B) (t : trace)
  (r' : result B) :
  follows (@Halt A o) p t r' -> t = [] /\ r' = Halt o.
Proof. exact (fun H => H). Qed.

Lemma main_launch_parts (inv : invocation) (l0 : locals) (t : trace)
  (res : result Z) :
  exec (main_launch inv l0) t res -> launch_parts inv l0 t res.
Proof.
  unfold main_launch, launch_parts. intros H.
  apply exec_bind_inv in H.
  destruct H as [(o & H & ->) | (l & ts & t1 & Hs & H & ->)].
  { apply main_session_exec in H. destruct H as (l & E & _). discriminate E. }
  exists l, ts.
  assert (Hf : follows (Val tt) (main_fork l;; main_printpid l;; main_cgroup l;;
                         main_mounts l;; main_rtprio inv l;; main_exec inv)
                 t1 res) by exact H.
  clear H.
  apply follows_bind in Hf. destruct Hf as (tf & t2 & rf & Hf & -> & H).
  assert (Hp : follows rf (main_printpid l;; main_cgroup l;; main_mounts l;;
                           main_rtprio inv l;; main_exec inv) t2 res)
    by (destruct rf as [[] |]; exact H).
  clear H.
  apply follows_bind in Hp. destruct Hp as (tp & t3 & rp & Hp & -> & H).
  assert (Hc : follows rp (main_cgroup l;; main_mounts l;;
                           main_rtprio inv l;; main_exec inv) t3 res)
    by (destruct rp as [[] |]; exact H).
  clear H.
  apply follows_bind in Hc. destruct Hc as (tc & t4 & rc & Hc & -> & H).
  assert (Hm : follows rc (main_mounts l;; main_rtprio inv l;; main_exec inv)
                 t4 res)
    by (destruct rc as [[] |]; exact H).
  clear H.
  apply follows_bind in Hm. destruct Hm as (tm & t5 & rm & Hm & -> & H).
  assert (Hr : follows rm (main_rtprio inv l;; main_exec inv) t5 res)
    by (destruct rm as [[] |]; exact H).
  clear H.
  apply follows_bind in Hr. destruct Hr as (tr & te & rr & Hr & -> & H).
  assert (He : follows rr (main_exec inv) te res)
    by (destruct rr as [[] |]; exact H).
  exists tf, tp, tc, tm, tr, te, rf, rp, rc, rm, rr.
  simpl in Hf. repeat (split; [assumption |]). reflexivity.
Qed.

Lemma main_exec_parts (inv : invocation) (t : trace) (res : result Z) :
  exec (main inv) t res ->
  (exists o, exec (main_setup inv) t (Halt o) /\ res = Halt o) \/
  (exists l0 t0 t1,
     exec (main_setup inv) t0 (Val l0) /\ launch_parts inv l0 t1 res /\
     t = t0 ++ t1).
Proof.
  unfold main. intros H. apply exec_bind_inv in H.
  destruct H as [H | (l0 & t0 & t1 & H0 & H1 & ->)]; [left; assumption |].
  right. exists l0, t0, t1. split; [assumption |].
  split; [apply main_launch_parts; assumption | reflexivity].
Qed.

(** The same for a run under a handler, from the locals the setup gave. *)
Lemma main_run_parts (W : Type) (os : handler W) (w : W) (inv : invocation)
  (l0 : locals) :
  run_result (run os (main_setup inv) w) = Val l0 ->
  exists t1,
    run_trace (run os (main inv) w)
    = run_trace (run os (main_setup inv) w) ++ t1 /\
    launch_parts inv l0 t1 (run_result (run os (main inv) w)).
Proof.
  intros E. unfold main. rewrite run_bind, E. simpl.
  eexists. split; [reflexivity |]. apply main_launch_parts, run_exec.
Qed.

Lemma main_run_setup_halt (W : Type) (os : handler W) (w : W)
  (inv : invocation) (o : outcome) :
  run_result (run os (main_setup inv) w) = Halt o ->
  run_trace (run os (main inv) w) = run_trace (run os (main_setup inv) w) /\
  run_result (run os (main inv) w) = Halt o.
Proof.
  intros E. unfold main. rewrite run_bind, E. simpl. auto.
Qed.

(** ** How the process can end *)

Lemma halts_in_bind (A B : Type) (P : outcome -> Prop) (p : prog A)
  (f : A -> prog B) :
  halts_in P p -> (forall a, halts_in P (f a)) -> halts_in P (bind p f).
Proof.
  induction p as [a | o | R c k IH]; simpl; intros Hp Hf; auto.
Qed.

Lemma halts_in_exec (A : Type) (P : outcome -> Prop) (p : prog A) :
  halts_in P p -> forall t o, exec p t (Halt o) -> P o.
Proof.
  induction p as [a | o' | R c k IH]; simpl; intros Hp t o H.
  - destruct H as [_ E]. discriminate E.
  - destruct H as [_ E]. injection E as <-. exact Hp.
  - destruct H as (r & t' & _ & H). eauto.
Qed.

Create HintDb halts discriminated.

Ltac halts_step :=
  match goal with
  | |- halts_in _ (bind _ _) => apply halts_in_bind
  | |- halts_in _ (call _) => intro; exact I
  | |- halts_in _ (perror _) => intro; exact I
  | |- halts_in _ (Ret _) => exact I
  | |- halts_in not_aborted (Stop _) => simpl; unfold not_aborted; discriminate
  | |- halts_in _ (if ?b then _ else _) => destruct b
  | |- halts_in _ (match ?x with _ => _ end) => destruct x
  | |- forall _, _ => intro
  | |- halts_in _ _ => solve [auto with halts]
  end.

Ltac halts_tac := repeat halts_step.

Lemma halts_main_switch (inv : invocation) (o : getopt_step) (l : locals) :
  halts_in not_aborted (main_switch inv o l).
Proof. unfold main_switch, atoi_ptr, usage. halts_tac. Qed.

#[local] Hint Resolve halts_main_switch : halts.

Lemma halts_main_getopt (inv : invocation) (steps : list getopt_step) :
  forall l, halts_in not_aborted (main_getopt inv steps l).
Proof.
  induction steps as [| o steps IH]; intros l; cbn [main_getopt]; halts_tac;
    try apply IH.
Qed.

#[local] Hint Resolve halts_main_getopt : halts.

Lemma halts_close_down (turns : nat) :
  forall fd, halts_in not_aborted (close_down turns fd).
Proof.
  induction turns as [| turns IH]; intros fd; cbn [close_down]; halts_tac;
    try apply IH.
Qed.

#[local] Hint Resolve halts_close_down : halts.

Lemma halts_attach_loop (pid : Z) (nss : list namespace) :
  forall flag, halts_in not_aborted (attach_loop pid nss flag).
Proof.
  induction nss as [| ns nss IH]; intros flag; cbn [attach_loop];
    unfold attachns; halts_tac; try apply IH.
Qed.

#[local] Hint Resolve halts_attach_loop : halts.

Lemma halts_main_setup (inv : invocation) :
  halts_in not_aborted (main_setup inv).
Proof.
  unfold main_setup, main_closefds, main_namespaces, attach. halts_tac.
Qed.

Lemma halts_validate_from (path s : string) :
  halts_in not_aborted (validate_from path s).
Proof.
  induction s as [| c s IH]; cbn [validate_from]; halts_tac.
Qed.

#[local] Hint Resolve halts_validate_from : halts.

Lemma halts_cgroup_loop (gptr : list string) (gname : string) (pid : Z) :
  forall n, halts_in not_aborted (cgroup_loop gptr gname pid n).
Proof.
  induction gptr as [| g gptr IH]; intros n; cbn [cgroup_loop]; halts_tac;
    try apply IH.
Qed.

#[local] Hint Resolve halts_cgroup_loop : halts.

Lemma halts_main_cgroup (l : locals) : halts_in not_aborted (main_cgroup l).
Proof. unfold main_cgroup, cgroup, validate. halts_tac. Qed.

Lemma halts_main_fork (l : locals) : halts_in not_aborted (main_fork l).
Proof. unfold main_fork. halts_tac. Qed.

Lemma halts_main_mounts (l : locals) : halts_in not_aborted (main_mounts l).
Proof. unfold main_mounts. halts_tac. Qed.

Lemma halts_main_rtprio (inv : invocation) (l : locals) :
  halts_in not_aborted (main_rtprio inv l).
Proof. unfold main_rtprio, atoi_ptr. halts_tac. Qed.

Lemma halts_main_exec (inv : invocation) : halts_in not_aborted (main_exec inv).
Proof. unfold main_exec, usage. halts_tac. Qed.

Lemma follows_not_aborted (A B : Type) (r : result A) (p : prog B) (t : trace)
  (r' : result B) :
  halts_in not_aborted p -> r <> Halt Aborted -> follows r p t r' ->
  r' <> Halt Aborted.
Proof.
  destruct r as [a | o]; simpl; intros Hp Hr H.
  - destruct r' as [b | o']; [discriminate |].
    intros E. injection E as ->.
    eapply halts_in_exec in H; [| exact Hp]. exact (H eq_refl).
  - destruct H as [_ ->]. intros E. apply Hr. injection E as ->. reflexivity.
Qed.

(** ** Kinds of events that a part never makes *)

Lemma never_app (f : event -> bool) (t1 t2 : trace) :
  never f (t1 ++ t2) <-> never f t1 /\ never f t2.
Proof. apply Forall_app. Qed.

Lemma never_nil (f : event -> bool) : never f [].
Proof. constructor. Qed.

Lemma never_cons (f : event -> bool) (e : event) (t : trace) :
  never f (e :: t) <-> f e = false /\ never f t.
Proof. apply Forall_cons_iff. Qed.

Lemma never_cls (cls f : event -> bool) (t : trace) :
  Forall (fun e => cls e = true) t ->
  (forall e, cls e = true -> f e = false) ->
  never f t.
Proof.
  intros H Hf. unfold never. eapply Forall_impl; [| exact H]. auto.
Qed.

Lemma never_In (f : event -> bool) (t : trace) (e : event) :
  never f t -> In e t -> f e = false.
Proof.
  unfold never. rewrite Forall_forall. auto.
Qed.

Lemma never_count (f : event -> bool) (t : trace) :
  never f t -> count f t = 0%nat.
Proof.
  unfold never, count. induction 1 as [| e t He _ IH]; simpl; [reflexivity |].
  rewrite He. exact IH.
Qed.

Lemma count_app (f : event -> bool) (t1 t2 : trace) :
  count f (t1 ++ t2) = (count f t1 + count f t2)%nat.
Proof.
  unfold count. rewrite filter_app. apply length_app.
Qed.

(** The class of every part, from its run. *)
Ltac pose_classes :=
  repeat match goal with
    | H : exec ?p ?t _ |- _ =>
        lazymatch goal with
        | _ : Forall (fun e => _ e = true) t |- _ => fail
        | _ =>
            let C := fresh "C" in
            assert (C := fun cls Hp => @emits_exec _ cls p Hp _ _ H);
            first [ specialize (C _ (emits_main_session _))
                  | specialize (C _ (emits_main_fork _))
                  | specialize (C _ (emits_main_printpid _))
                  | specialize (C _ (emits_main_cgroup _))
                  | specialize (C _ (emits_main_mounts _))
                  | specialize (C _ (emits_main_rtprio _ _))
                  | specialize (C _ (emits_main_exec _)) ]
        end
    | H : follows _ ?p ?t _ |- _ =>
        lazymatch goal with
        | _ : Forall (fun e => _ e = true) t |- _ => fail
        | _ =>
            let C := fresh "C" in
            assert (C := fun cls Hp => @follows_emits _ _ cls _ p _ _ Hp H);
            first [ specialize (C _ (emits_main_printpid _))
                  | specialize (C _ (emits_main_cgroup _))
                  | specialize (C _ (emits_main_mounts _))
                  | specialize (C _ (emits_main_rtprio _ _))
                  | specialize (C _ (emits_main_exec _)) ]
        end
    end.

Ltac cls_side :=
  let e := fresh "e" in
  intros e; destruct e; simpl; intros; try reflexivity; try discriminate.

(** Solves [never f t] for [t] built from parts whose class is known. *)
Ltac never_tac :=
  repeat match goal with
         | C : Forall _ (_ ++ _) |- _ =>
             apply Forall_app in C; destruct C as [? ?]
         | C : Forall _ (_ :: _) |- _ =>
             apply Forall_cons_iff in C; destruct C as [? ?]
         end;
  repeat (rewrite never_app || rewrite never_cons);
  repeat match goal with |- _ /\ _ => split end;
  first [ reflexivity
        | apply never_nil
        | assumption
        | eapply never_cls; [eassumption | cls_side] ].


(** ** The PID namespace flag forces the fork *)

Lemma session_pidns_forks (l0 l : locals) (ts : trace) :
  exec (main_session l0) ts (Val l) ->
  has_flag (flags l) CLONE_NEWPID = true -> truthy (dofork l) = true.
Proof.
  intros H Hf. apply main_session_exec in H.
  destruct H as (l' & E & Hfl & _ & _ & _ & _ & H). injection E as <-.
  rewrite Hfl in Hf.
  destruct H as [(_ & _ & Hd) | (_ & pgrp & pid & r & [(_ & _ & Hd) | (_ & _ & Hd)])];
    rewrite Hd; try reflexivity; rewrite Hf; reflexivity.
Qed.

Lemma main_printpid_not_aborted (l0 l : locals) (ts tp : trace)
  (rp : result unit) :
  exec (main_session l0) ts (Val l) -> exec (main_printpid l) tp rp ->
  rp <> Halt Aborted.
Proof.
  intros Hs Hp. apply main_printpid_exec in Hp.
  destruct Hp as [(_ & ->) | (_ & Hd & [(Hf & _) | (_ & -> & _)])];
    try discriminate.
  pose proof (@session_pidns_forks _ _ _ Hs Hf) as Hd'.
  rewrite Hd' in Hd. discriminate Hd.
Qed.

Lemma launch_not_aborted (inv : invocation) (l0 : locals) (t : trace)
  (res : result Z) :
  launch_parts inv l0 t res -> res <> Halt Aborted.
Proof.
  intros (l & ts & tf & tp & tc & tm & tr & te & rf & rp & rc & rm & rr &
          Hs & Hf & Hp & Hc & Hm & Hr & He & _).
  assert (Nf : rf <> Halt Aborted).
  { destruct rf as [u | o]; [discriminate |]. intros E. injection E as ->.
    eapply halts_in_exec in Hf; [| apply halts_main_fork].
    exact (Hf eq_refl). }
  assert (Np : rp <> Halt Aborted).
  { destruct rf as [u | o]; simpl in Hp.
    - eapply main_printpid_not_aborted; eassumption.
    - destruct Hp as [_ ->]. exact Nf. }
  assert (Nc : rc <> Halt Aborted)
    by (eapply follows_not_aborted; [apply halts_main_cgroup | | eassumption];
        assumption).
  assert (Nm : rm <> Halt Aborted)
    by (eapply follows_not_aborted; [apply halts_main_mounts | | eassumption];
        assumption).
  assert (Nr : rr <> Halt Aborted)
    by (eapply follows_not_aborted; [apply halts_main_rtprio | | eassumption];
        assumption).
  eapply follows_not_aborted; [apply halts_main_exec | | eassumption].
  assumption.
Qed.

Lemma main_not_aborted (inv : invocation) (t : trace) (res : result Z) :
  exec (main inv) t res -> res <> Halt Aborted.
Proof.
  intros H. apply main_exec_parts in H.
  destruct H as [(o & H & ->) | (l0 & t0 & t1 & _ & H & _)].
  - intros E. injection E as ->.
    eapply halts_in_exec in H; [| apply halts_main_setup]. exact (H eq_refl).
  - eapply launch_not_aborted; eassumption.
Qed.

(** With the PID namespace flag in the effective flags, the launch forks. *)
Lemma launch_pidns_fork (inv : invocation) (l0 : locals) (t : trace)
  (res : result Z) :
  launch_parts inv l0 t res ->
  has_flag (flags l0) CLONE_NEWPID = true ->
  exists pid, In (EFork pid) t.
Proof.
  intros (l & ts & tf & tp & tc & tm & tr & te & rf & rp & rc & rm & rr &
          Hs & Hf & _ & _ & _ & _ & _ & ->) Hflag.
  assert (Hd : truthy (dofork l) = true).
  { eapply session_pidns_forks; [eassumption |].
    apply main_session_exec in Hs. destruct Hs as (l' & E & Hfl & _).
    injection E as <-. rewrite Hfl. exact Hflag. }
  apply main_fork_exec in Hf. rewrite Hd in Hf.
  destruct Hf as [(E & _) | (_ & pid & Hf)]; [discriminate E |].
  exists pid. apply in_or_app. right. apply in_or_app. left.
  destruct Hf as [(_ & -> & _) | [(_ & -> & _) | (_ & _ & _ & t1 & t2 & -> & _)]];
    simpl; auto.
Qed.

(** C10: no run of main ends in the failed assertion of the PID report
    made without a fork; and a run that completes the setup and performs
    no fork cannot have the PID namespace flag in its effective flags,
    since that flag forces the fork. *)
Theorem pid_report_assert_never_fails (W : Type) (os : handler W) (w : W)
  (inv : invocation) :
  run_result (run os (main inv) w) <> Halt Aborted /\
  forall l0,
    run_result (run os (main_setup inv) w) = Val l0 ->
    never is_fork (run_trace (run os (main inv) w)) ->
    has_flag (flags l0) CLONE_NEWPID = false.
Proof.
  split.
  - eapply main_not_aborted. apply run_exec.
  - intros l0 E Hn. destruct (main_run_parts os w inv E) as (t1 & Et & Hp).
    destruct (has_flag (flags l0) CLONE_NEWPID) eqn:Hf; [| reflexivity].
    destruct (launch_pidns_fork Hp Hf) as (pid & Hin).
    rewrite Et in Hn. apply never_app in Hn. destruct Hn as [_ Hn].
    eapply never_In in Hin; [| exact Hn]. discriminate Hin.
Qed.

Lemma pid_report_assert_never_fails_witness :
  run_result (run (os_of all_ok) (main inv_print) tt) <> Halt Aborted /\
  has_flag (flags init_locals) CLONE_NEWPID = false.
Proof.
  destruct (@pid_report_assert_never_fails unit (os_of all_ok) tt inv_print)
    as [H1 H2].
  split; [exact H1 |].
  apply (H2 (set_printpid init_locals 1)).
  - reflexivity.
  - unfold never. vm_compute. repeat constructor.
Defined.

(** ** Attaching to namespaces that are already ours *)

Lemma attach_loop_same (pid : Z) (nss : list namespace) :
  forall (flag : Z) (t : trace) (res : result (option Z)),
    exec (attach_loop pid nss flag) t res ->
    (forall ns stat1 stat2,
        In ns nss ->
        In (EStat (ns_path pid ns) stat1) t ->
        In (EStat (ns_self ns) stat2) t ->
        same_ns stat1 stat2 = true) ->
    res = Val (Some flag) /\ Forall (fun e => is_stat e = true) t.
Proof.
  induction nss as [| ns nss IH]; intros flag t res H Hsame;
    cbn [attach_loop] in H.
  - destruct H as [-> ->]. split; constructor.
  - apply exec_bind_inv in H.
    destruct H as [(o & H & ->) | (ret & t1 & t2 & H1 & H2 & ->)].
    + exfalso. apply attachns_exec_stats in H.
      destruct H as (stat1 & stat2 & t' & -> & H).
      destruct H as [_ E]; [| discriminate E].
      apply (Hsame ns); simpl; auto.
    + apply attachns_exec_stats in H1.
      destruct H1 as (stat1 & stat2 & t' & -> & H1).
      destruct H1 as [-> E].
      { apply (Hsame ns); simpl; auto. }
      injection E as E. subst ret. simpl in H2. rewrite Z.lor_0_r in H2.
      apply IH in H2.
      * destruct H2 as (-> & Hs). split; [reflexivity |].
        simpl. repeat (constructor; [reflexivity |]). assumption.
      * intros ns' s1 s2 Hin Hi1 Hi2. apply (Hsame ns'); simpl; auto.
Qed.

Lemma attach_same (pid : Z) (t : trace) (res : result Z) :
  exec (attach pid) t res ->
  (forall ns stat1 stat2,
      In ns namespaces ->
      In (EStat (ns_path pid ns) stat1) t ->
      In (EStat (ns_self ns) stat2) t ->
      same_ns stat1 stat2 = true) ->
  never is_open t /\ never is_setns t /\ never is_chroot t /\
  forall cwd c, In (EChdir cwd c) t -> res = Val (if c =? 0 then 0 else -1).
Proof.
  unfold attach. intros H Hsame. apply exec_bind_inv in H.
  destruct H as [(o & H & _) | (cwd & tc & t0 & Hc & H & ->)];
    [destruct H as (r & t' & _ & _ & E); discriminate E |].
  destruct Hc as (r & t' & -> & -> & E). injection E as E. subst r.
  cbn [ev app] in *. apply exec_bind_inv in H.
  assert (Hsame' : forall ns stat1 stat2,
             In ns namespaces ->
             In (EStat (ns_path pid ns) stat1) t0 ->
             In (EStat (ns_self ns) stat2) t0 ->
             same_ns stat1 stat2 = true)
    by (intros ns s1 s2 Hin Hi1 Hi2; apply (Hsame ns); simpl; auto).
  destruct H as [(o & H & ->) | (r & t1 & t2 & H1 & H2 & ->)].
  - apply attach_loop_same in H; [| exact Hsame'].
    destruct H as (E & _). discriminate E.
  - apply attach_loop_same in H1.
    2:{ intros ns s1 s2 Hin Hi1 Hi2. apply (Hsame' ns); auto;
        apply in_or_app; auto. }
    destruct H1 as (E & Hs). injection E as E. subst r.
    simpl in H2. destruct H2 as (c & t3 & -> & H2).
    assert (Hchdir : forall cwd' c',
               In (EChdir cwd' c') t1 -> False).
    { intros cwd' c' Hin. rewrite Forall_forall in Hs.
      apply Hs in Hin. discriminate Hin. }
    destruct (Z.eqb_spec c 0) as [-> | Hc0]; simpl in H2.
    + destruct H2 as [-> ->].
      repeat split; try (never_tac; fail).
      intros cwd' c' [E | Hin]; [discriminate E |].
      apply in_app_or in Hin. destruct Hin as [Hin | [E | []]].
      * exfalso; eauto.
      * injection E as _ <-. reflexivity.
    + destruct H2 as ([] & t4 & -> & -> & ->).
      repeat split; try (never_tac; fail).
      intros cwd' c' [E | Hin]; [discriminate E |].
      apply in_app_or in Hin. destruct Hin as [Hin | [E | [E | []]]].
      * exfalso; eauto.
      * injection E as _ <-. destruct (Z.eqb_spec c 0); [contradiction |].
        reflexivity.
      * discriminate E.
Qed.

(** C9: for every namespace kind, when the entry of the target and our
    own entry have the same device and inode, attachns returns 0 after the
    two stat calls and neither opens nor joins anything; so attaching to a
    process all of whose entries are ours, as our own pid's are, opens
    nothing, joins nothing and changes no root, and gives the empty flag
    set once the working directory is restored. *)
Theorem attachns_same_namespace_unchanged (W : Type) (os : handler W) (w : W)
  (pid : Z) :
  (forall ns id rest,
      run_trace (run os (attachns pid ns) w)
      = EStat (ns_path pid ns) (Some id) :: EStat (ns_self ns) (Some id)
          :: rest ->
      run_result (run os (attachns pid ns) w) = Val 0 /\ rest = [] /\
      never is_open (run_trace (run os (attachns pid ns) w)) /\
      never is_setns (run_trace (run os (attachns pid ns) w))) /\
  ((forall ns stat1 stat2,
       In ns namespaces ->
       In (EStat (ns_path pid ns) stat1) (run_trace (run os (attach pid) w)) ->
       In (EStat (ns_self ns) stat2) (run_trace (run os (attach pid) w)) ->
       same_ns stat1 stat2 = true) ->
   never is_open (run_trace (run os (attach pid) w)) /\
   never is_setns (run_trace (run os (attach pid) w)) /\
   never is_chroot (run_trace (run os (attach pid) w)) /\
   forall cwd, In (EChdir cwd 0) (run_trace (run os (attach pid) w)) ->
               run_result (run os (attach pid) w) = Val 0).
Proof.
  split.
  - intros ns id rest E.
    pose proof (run_exec os (attachns pid ns) w) as H.
    apply attachns_exec_stats in H.
    destruct H as (stat1 & stat2 & t' & E' & H).
    rewrite E in E'. injection E' as E1 E2 E3. subst stat1 stat2 t'.
    destruct (H (same_ns_refl id)) as [-> ->].
    rewrite E. repeat split; never_tac.
  - intros Hsame. pose proof (run_exec os (attach pid) w) as H.
    apply attach_same in H; [| exact Hsame].
    destruct H as (Ho & Hs & Hc & Hd).
    repeat split; try assumption.
    intros cwd Hin. apply Hd in Hin. exact Hin.
Qed.

Lemma attachns_same_namespace_unchanged_witness :
  run_result (run (os_of all_ok) (attachns 100 {| type := CLONE_NEWNET; name := "net" |}) tt)
  = Val 0 /\
  run_result (run (os_of all_ok) (attach 100) tt) = Val 0.
Proof.
  destruct (@attachns_same_namespace_unchanged unit (os_of all_ok) tt 100)
    as [H1 H2].
  split.
  - apply (H1 _ (1, 1) []). reflexivity.
  - destruct H2 as (_ & _ & _ & H2).
    + intros ns stat1 stat2 Hns Hi1 Hi2. simpl in Hns.
      destruct Hns as [<- | [<- | [<- | [<- | []]]]];
        vm_compute in Hi1, Hi2;
        repeat match goal with
               | H : _ \/ _ |- _ => destruct H
               | H : False |- _ => destruct H
               end;
        try discriminate;
        repeat match goal with
               | H : @eq event _ _ |- _ => injection H as ?; subst
               end;
        reflexivity.
    + apply (H2 (Some "/root")). vm_compute. tauto.
Defined.

(** ** Joining a cgroup *)

Lemma validate_from_valid (path s : string) (t : trace) (res : result unit) :
  valid_path s = true ->
  exec (validate_from path s) t res -> t = [] /\ res = Val tt.
Proof.
  induction s as [| c s IH]; cbn [validate_from valid_path]; intros Hv H.
  - exact H.
  - apply andb_true_iff in Hv. destruct Hv as [Hc Hv].
    rewrite <- negb_orb, Hc in H. simpl in H. auto.
Qed.

(** On a name that does not pass, nothing is opened. *)
Lemma validate_from_invalid (path s : string) (t : trace) (res : result unit) :
  valid_path s = false ->
  exec (validate_from path s) t res ->
  (exists r, t = [EEprintf ("invalid path: " ++ path ++ nl)%string r]) /\
  res = Halt (Exited 1).
Proof.
  induction s as [| c s IH]; cbn [validate_from valid_path]; intros Hv H.
  - discriminate Hv.
  - rewrite <- negb_orb in H.
    destruct (isalnum c || (c =? "/")%char); simpl in Hv, H.
    + auto.
    + destruct H as (r & t' & -> & -> & ->). split; [exists r |]; reflexivity.
Qed.

Lemma cgroup_exec (gname : string) (t : trace) (res : result unit) :
  valid_path gname = true ->
  exec (cgroup gname) t res ->
  exists pid o1 o2 o3 tail,
    t = EGetpid pid :: join_events gname pid "cpu" o1
          ++ join_events gname pid "cpuacct" o2
          ++ join_events gname pid "cpuset" o3 ++ tail /\
    ((o1 = None /\ o2 = None /\ o3 = None /\
      (exists r,
          tail = [EEprintf ("cgroup: could not add to cgroup " ++ gname ++ nl)
                    r]) /\
      res = Halt (Exited 1)) \/
     ((o1 <> None \/ o2 <> None \/ o3 <> None) /\ tail = [] /\ res = Val tt)).
Proof.
  intros Hv H. unfold cgroup in H. apply exec_bind_inv in H.
  destruct H as [(o & H & _) | (pid & tc & t0 & Hc & H & ->)];
    [destruct H as (r & t' & _ & _ & E); discriminate E |].
  destruct Hc as (r & t' & -> & -> & E). injection E as E. subst r.
  apply exec_bind_inv in H.
  destruct H as [(o & H & _) | ([] & tv & t1 & Hval & H & ->)].
  { eapply validate_from_valid in H; [| exact Hv]. destruct H as [_ E].
    discriminate E. }
  eapply validate_from_valid in Hval; [| exact Hv]. destruct Hval as [-> _].
  exists pid. unfold groups in H. cbn [cgroup_loop] in H. simpl in H.
  destruct H as (f1 & t2 & -> & H).
  destruct f1 as [f1 |]; simpl in H;
    [destruct H as (n1 & ? & -> & c1 & ? & -> & f2 & t3 & -> & H)
    | destruct H as (f2 & t3 & -> & H)];
    (destruct f2 as [f2 |]; simpl in H;
     [destruct H as (n2 & ? & -> & c2 & ? & -> & f3 & t4 & -> & H)
     | destruct H as (f3 & t4 & -> & H)]);
    (destruct f3 as [f3 |]; simpl in H;
     [destruct H as (n3 & ? & -> & c3 & ? & -> & H) |]);
    try destruct H as [-> ->];
    try destruct H as (r & ? & -> & -> & ->).
  - exists (Some (f1, n1, c1)), (Some (f2, n2, c2)), (Some (f3, n3, c3)), [].
    split; [reflexivity |]. right. split; [left; discriminate | auto].
  - exists (Some (f1, n1, c1)), (Some (f2, n2, c2)), None, [].
    split; [reflexivity |]. right. split; [left; discriminate | auto].
  - exists (Some (f1, n1, c1)), None, (Some (f3, n3, c3)), [].
    split; [reflexivity |]. right. split; [left; discriminate | auto].
  - exists (Some (f1, n1, c1)), None, None, [].
    split; [reflexivity |]. right. split; [left; discriminate | auto].
  - exists None, (Some (f2, n2, c2)), (Some (f3, n3, c3)), [].
    split; [reflexivity |]. right.
    split; [right; left; discriminate | auto].
  - exists None, (Some (f2, n2, c2)), None, [].
    split; [reflexivity |]. right.
    split; [right; left; discriminate | auto].
  - exists None, None, (Some (f3, n3, c3)), [].
    split; [reflexivity |]. right.
    split; [right; right; discriminate | auto].
  - exists None, None, None,
      [EEprintf ("cgroup: could not add to cgroup " ++ gname ++ nl)%string r].
    split; [reflexivity |]. left. repeat split; eauto.
Qed.

(** C6, as the code has it: on a name that passes validate, cgroup takes
    its pid and tries the tasks file of every controller, cpu, cpuacct
    and cpuset, in this order; into each file it could open it writes the
    pid line and closes it, without looking at what the write or the close
    returned. It returns when at least one of the three files could be
    opened; when none could, it prints the diagnostic naming the group
    and exits with status 1. *)
Theorem cgroup_joins_when_a_tasks_file_opens (W : Type) (os : handler W)
  (w : W) (gname : string) :
  valid_path gname = true ->
  exists pid o1 o2 o3 tail,
    run_trace (run os (cgroup gname) w)
    = EGetpid pid :: join_events gname pid "cpu" o1
        ++ join_events gname pid "cpuacct" o2
        ++ join_events gname pid "cpuset" o3 ++ tail /\
    ((o1 = None /\ o2 = None /\ o3 = None /\
      (exists r,
          tail = [EEprintf ("cgroup: could not add to cgroup " ++ gname ++ nl)
                    r]) /\
      run_result (run os (cgroup gname) w) = Halt (Exited 1)) \/
     ((o1 <> None \/ o2 <> None \/ o3 <> None) /\ tail = [] /\
      run_result (run os (cgroup gname) w) = Val tt)).
Proof.
  intros Hv. eapply cgroup_exec; [exact Hv | apply run_exec].
Qed.

Lemma cgroup_joins_when_a_tasks_file_opens_witness :
  exists pid o1 o2 o3 tail,
    run_trace (run (os_of (override all_ok fopen_fails)) (cgroup "h1") tt)
    = EGetpid pid :: join_events "h1" pid "cpu" o1
        ++ join_events "h1" pid "cpuacct" o2
        ++ join_events "h1" pid "cpuset" o3 ++ tail /\
    ((o1 = None /\ o2 = None /\ o3 = None /\
      (exists r,
          tail = [EEprintf ("cgroup: could not add to cgroup " ++ "h1" ++ nl)
                    r]) /\
      run_result (run (os_of (override all_ok fopen_fails)) (cgroup "h1") tt)
      = Halt (Exited 1)) \/
     ((o1 <> None \/ o2 <> None \/ o3 <> None) /\ tail = [] /\
      run_result (run (os_of (override all_ok fopen_fails)) (cgroup "h1") tt)
      = Val tt)).
Proof.
  apply (@cgroup_joins_when_a_tasks_file_opens unit
           (os_of (override all_ok fopen_fails)) tt "h1").
  reflexivity.
Defined.

(** C6 as stated fails: where every tasks file opens but every close
    reports that the write was refused, no controller has accepted the
    pid, and cgroup returns all the same. *)
Lemma cgroup_returns_without_accepted_write :
  run_result (run (os_of (override all_ok close_fails)) (cgroup "h1") tt)
  = Val tt /\
  ~ write_accepted
      (run_trace (run (os_of (override all_ok close_fails)) (cgroup "h1") tt)).
Proof.
  split; [reflexivity |].
  intros (f & s & n & _ & _ & H). vm_compute in H.
  repeat match goal with
         | H : _ \/ _ |- _ => destruct H
         | H : False |- _ => destruct H
         end; discriminate.
Qed.

(** ** The chroot fallback of attach *)

(** C1, at the failing input: attaching to pid 42 whose mount namespace
    cannot be opened. Plan B is taken and works, chroot to /proc/42/root
    returns 0 and so does the chdir back to the working directory, yet
    attach returns -1, the value the failed open left in [ret] and that
    [flag |= ret] spread over the flags, and main exits with status 1. *)
Theorem attach_mount_fallback_still_fails :
  let os := os_of (override all_ok mnt_open_fails) in
  run_trace (run os (attach 42) tt)
  = [EGet_current_dir_name (Some "/root");
     EStat "/proc/42/ns/net" (Some (1, 1));
     EStat "/proc/self/ns/net" (Some (1, 1));
     EStat "/proc/42/ns/pid" (Some (1, 1));
     EStat "/proc/self/ns/pid" (Some (1, 1));
     EStat "/proc/42/ns/uts" (Some (1, 1));
     EStat "/proc/self/ns/uts" (Some (1, 1));
     EStat "/proc/42/ns/mnt" (Some (1, 2));
     EStat "/proc/self/ns/mnt" (Some (1, 1));
     EOpen "/proc/42/ns/mnt" O_RDONLY (-1);
     EPerror (Some "open") tt;
     EEprintf ("Could not open: /proc/42/ns/mnt" ++ nl)%string 32;
     EChroot "/proc/42/root" 0;
     EChdir (Some "/root") 0] /\
  run_result (run os (attach 42) tt) = Val (-1) /\
  run_result (run os (main inv_attach) tt) = Halt (Exited 1) /\
  never is_execvp (run_trace (run os (main inv_attach) tt)).
Proof.
  vm_compute. repeat split; repeat constructor.
Qed.

(** The other half of C1 holds: a namespace of another kind that cannot
    be opened ends attach at once with -1, and main with status 1. *)
Example attach_network_failure_is_fatal :
  let os := os_of (override all_ok net_open_fails) in
  run_trace (run os (attach 42) tt)
  = [EGet_current_dir_name (Some "/root");
     EStat "/proc/42/ns/net" (Some (1, 2));
     EStat "/proc/self/ns/net" (Some (1, 1));
     EOpen "/proc/42/ns/net" O_RDONLY (-1);
     EPerror (Some "open") tt;
     EEprintf ("Could not open: /proc/42/ns/net" ++ nl)%string 32] /\
  run_result (run os (attach 42) tt) = Val (-1) /\
  run_result (run os (main inv_attach) tt) = Halt (Exited 1).
Proof.
  vm_compute. repeat split.
Qed.

(** ** atoi gives an int *)

Lemma atoi_is_int (s : string) : INT_MIN <= atoi s <= INT_MAX.
Proof.
  unfold atoi, to_int, INT_MIN, INT_MAX.
  pose proof (Z.mod_pos_bound (strtol s - -2147483648) (2 ^ 32) eq_refl).
  change (2 ^ 32) with 4294967296 in *. lia.
Qed.

(** ** The value stored for -r *)

Lemma main_switch_rtprio (inv : invocation) (o : getopt_step)
  (l l' : locals) (t : trace) :
  exec (main_switch inv o l) t (Val l') ->
  rtprio l' = rtprio l \/
  (go_c o = "r"%char /\ exists s, go_optarg o = Some s /\
                                  rtprio l' = atoi s).
Proof.
  unfold main_switch, atoi_ptr, usage.
  repeat match goal with
         | |- exec (if (?c =? ?x)%char then _ else _) _ _ -> _ =>
             let E := fresh "E" in destruct (c =? x)%char eqn:E
         end;
    try (simpl; intros [_ E']; injection E' as ->; left; reflexivity).
  - destruct (go_optarg o); simpl; intros [_ E']; [| discriminate E'].
    injection E' as ->. left. reflexivity.
  - destruct (go_optarg o) eqn:Eo; simpl; intros [_ E']; [| discriminate E'].
    injection E' as ->. right. apply Ascii.eqb_eq in E7. eauto.
  - simpl. intros (r & t' & _ & _ & E'). discriminate E'.
  - simpl. intros (r & t' & _ & _ & E'). discriminate E'.
  - simpl. intros (r & t' & _ & _ & E'). discriminate E'.
Qed.

Lemma main_getopt_rtprio (inv : invocation) (steps : list getopt_step) :
  forall (l l' : locals) (t : trace),
    exec (main_getopt inv steps l) t (Val l') ->
    rtprio l' = rtprio l \/
    exists o s, In o steps /\ go_c o = "r"%char /\ go_optarg o = Some s /\
                rtprio l' = atoi s.
Proof.
  induction steps as [| o steps IH]; intros l l' t H; cbn [main_getopt] in H.
  - destruct H as [_ E]. injection E as ->. auto.
  - apply exec_bind_inv in H.
    destruct H as [(out & _ & E) | (l1 & t1 & t2 & H1 & H2 & ->)];
      [discriminate E |].
    destruct (IH _ _ _ H2) as [H | (o' & s & Hin & H)].
    + apply main_switch_rtprio in H1.
      destruct H1 as [E | (Ec & s & Es & E)].
      * left. congruence.
      * right. exists o, s. simpl. rewrite H. auto.
    + right. exists o', s. simpl. tauto.
Qed.

(** The value stored for -r when the setup is done: 0, or what atoi
    reads, as an int, in the argument of a -r option. *)
Lemma setup_rtprio (inv : invocation) (t : trace) (l0 : locals) :
  exec (main_setup inv) t (Val l0) ->
  rtprio l0 = 0 \/
  exists o s, In o (inv_getopt inv) /\ go_c o = "r"%char /\
              go_optarg o = Some s /\ rtprio l0 = atoi s.
Proof.
  unfold main_setup. intros H. apply exec_bind_inv in H.
  destruct H as [(out & _ & E) | (l & t1 & t2 & Hg & H & ->)];
    [discriminate E |].
  apply exec_bind_inv in H.
  destruct H as [(out & _ & E) | (u & t3 & t4 & _ & Hn & ->)];
    [discriminate E |].
  assert (Er : rtprio l0 = rtprio l).
  { apply main_namespaces_exec in Hn.
    destruct Hn as [(_ & _ & Hn) | (_ & r & [(_ & _ & E) | (_ & _ & E)])].
    - destruct (Hn l0 eq_refl) as (f & -> & _). reflexivity.
    - discriminate E.
    - injection E as ->. reflexivity. }
  rewrite Er.
  destruct (@main_getopt_rtprio _ _ _ _ _ Hg) as [E | H]; [left; exact E | auto].
Qed.

(** ** Real-time priority *)

Lemma main_rtprio_exec (inv : invocation) (l : locals) (t : trace)
  (res : result unit) :
  exec (main_rtprio inv l) t res ->
  (rtprio l = 0 /\ t = [] /\ res = Val tt) \/
  (rtprio l <> 0 /\ optarg inv = None /\ t = [] /\ res = Halt Undefined) \/
  (rtprio l <> 0 /\ exists s pid r,
     optarg inv = Some s /\
     ((r < 0 /\ res = Halt (Exited 1) /\
       t = [EGetpid pid; ESched_setscheduler pid SCHED_RR (atoi s) r;
            EPerror (Some "sched_setscheduler") tt]) \/
      (~ r < 0 /\ res = Val tt /\
       t = [EGetpid pid; ESched_setscheduler pid SCHED_RR (atoi s) r]))).
Proof.
  unfold main_rtprio, atoi_ptr.
  destruct (Z.eqb_spec (rtprio l) 0) as [E | E]; cbn [negb].
  - simpl. intros [-> ->]. auto.
  - destruct (optarg inv) as [s |]; simpl.
    + intros (pid & t1 & -> & r & t2 & -> & H). right. right.
      split; [assumption |]. exists s, pid, r. split; [reflexivity |].
      destruct (Z.ltb_spec r 0) as [Hr | Hr]; simpl in H.
      * destruct H as ([] & t3 & -> & -> & ->). left. auto.
      * destruct H as [-> ->]. right. split; [lia | auto].
    + intros [-> ->]. right. left. auto.
Qed.

(** Every scheduler call of a launch is the one of the priority part. *)
Lemma launch_sched (inv : invocation) (l0 : locals) (t : trace)
  (res : result Z) (e : event) :
  launch_parts inv l0 t res -> In e t -> is_sched e = true ->
  rtprio l0 <> 0 /\
  exists s pid r, optarg inv = Some s /\
                  e = ESched_setscheduler pid SCHED_RR (atoi s) r.
Proof.
  intros (l & ts & tf & tp & tc & tm & tr & te & rf & rp & rc & rm & rr &
          Hs & Hf & Hp & Hc & Hm & Hr & He & ->) Hin He'.
  pose_classes.
  assert (Hl : rtprio l = rtprio l0).
  { apply main_session_exec in Hs.
    destruct Hs as (l' & E & _ & _ & _ & _ & Hl & _).
    injection E as E. subst l'. exact Hl. }
  repeat (apply in_app_or in Hin; destruct Hin as [Hin | Hin]);
    try (exfalso;
         match goal with
         | C : Forall _ ?t, Hin : In e ?t |- _ =>
             rewrite Forall_forall in C; apply C in Hin
         end;
         destruct e; simpl in *; discriminate).
  destruct rm as [u | o]; simpl in Hr;
    [| destruct Hr as [-> _]; destruct Hin].
  apply main_rtprio_exec in Hr. rewrite Hl in Hr.
  destruct Hr as [(_ & -> & _) | [(_ & _ & -> & _) | (Hn & s & pid & r & Es & Hr)]];
    try (destruct Hin; fail).
  split; [assumption |]. exists s, pid, r. split; [assumption |].
  destruct Hr as [(_ & _ & ->) | (_ & _ & ->)]; simpl in Hin;
    repeat (destruct Hin as [<- | Hin]; try discriminate He'; try reflexivity);
    destruct Hin.
Qed.

(** No scheduler call is made while setting up. *)
Lemma setup_never (W : Type) (os : handler W) (w : W) (inv : invocation)
  (f : event -> bool) :
  (forall e, cls_setup e = true -> f e = false) ->
  (forall s r, f (EPrintf s r) = false) ->
  never f (run_trace (run os (main_setup inv) w)).
Proof.
  intros Hc Hp. pose proof (run_exec os (main_setup inv) w) as H.
  apply main_setup_exec in H.
  destruct H as [(s & r & st & -> & _) | (H & _)].
  - repeat constructor. apply Hp.
  - eapply never_cls; eassumption.
Qed.

(** A run of main is the setup alone when it ends the process there, or
    the setup followed by the launch. *)
Lemma main_run_cases (W : Type) (os : handler W) (w : W) (inv : invocation) :
  (exists o,
      run_result (run os (main_setup inv) w) = Halt o /\
      run_result (run os (main inv) w) = Halt o /\
      run_trace (run os (main inv) w) = run_trace (run os (main_setup inv) w))
  \/
  (exists l0 t1,
      run_result (run os (main_setup inv) w) = Val l0 /\
      run_trace (run os (main inv) w)
      = run_trace (run os (main_setup inv) w) ++ t1 /\
      launch_parts inv l0 t1 (run_result (run os (main inv) w))).
Proof.
  destruct (run_result (run os (main_setup inv) w)) as [l0 | o] eqn:E.
  - right. destruct (main_run_parts os w inv E) as (t1 & Et & Hp).
    exists l0, t1. auto.
  - left. destruct (main_run_setup_halt os w inv E) as [Et Er].
    exists o. auto.
Qed.

(** C2: every call of the scheduler in a run of main asks for SCHED_RR
    with the priority atoi reads, as an int, in the text that optarg
    points to when the options have all been parsed, and is made only
    when the value stored for -r was not zero; that stored value, the
    int that atoi read in the argument of a -r option, is not what is
    passed. Where the priority part is reached with such a text, the
    call is made; with a null optarg the process reads through a null
    pointer. *)
Theorem rtprio_is_reparsed_from_optarg (W : Type) (os : handler W) (w : W)
  (inv : invocation) :
  (forall pid policy prio r,
      In (ESched_setscheduler pid policy prio r)
         (run_trace (run os (main inv) w)) ->
      policy = SCHED_RR /\
      (exists s, optarg inv = Some s /\ prio = atoi s) /\
      INT_MIN <= prio <= INT_MAX /\
      exists l0, run_result (run os (main_setup inv) w) = Val l0 /\
                 rtprio l0 <> 0 /\
                 exists o s', In o (inv_getopt inv) /\ go_c o = "r"%char /\
                              go_optarg o = Some s' /\ rtprio l0 = atoi s') /\
  (forall l, rtprio l <> 0 ->
     match optarg inv with
     | Some s =>
         exists pid r rest,
           run_trace (run os (main_rtprio inv l) w)
           = EGetpid pid :: ESched_setscheduler pid SCHED_RR (atoi s) r :: rest
     | None => run_result (run os (main_rtprio inv l) w) = Halt Undefined
     end).
Proof.
  split.
  - intros pid policy prio r Hin.
    destruct (main_run_cases os w inv)
      as [(o & _ & _ & Et) | (l0 & t1 & E0 & Et & Hp)];
      rewrite Et in Hin.
    + exfalso.
      assert (Hn : never is_sched (run_trace (run os (main_setup inv) w)))
        by (apply setup_never; [cls_side | reflexivity]).
      eapply never_In in Hn; [| exact Hin]. discriminate Hn.
    + apply in_app_or in Hin. destruct Hin as [Hin | Hin].
      * exfalso.
        assert (Hn : never is_sched (run_trace (run os (main_setup inv) w)))
          by (apply setup_never; [cls_side | reflexivity]).
        eapply never_In in Hn; [| exact Hin]. discriminate Hn.
      * destruct (@launch_sched _ _ _ _ _ Hp Hin eq_refl)
          as (Hr & s & pid' & r' & Es & Ee).
        injection Ee as -> -> -> ->.
        split; [reflexivity |]. split; [exists s; auto |].
        split; [apply atoi_is_int |].
        exists l0. split; [exact E0 |]. split; [exact Hr |].
        pose proof (run_exec os (main_setup inv) w) as Hx.
        rewrite E0 in Hx.
        destruct (@setup_rtprio _ _ _ Hx) as [Hz | H];
          [contradiction | exact H].
  - intros l Hl. pose proof (run_exec os (main_rtprio inv l) w) as H.
    apply main_rtprio_exec in H.
    destruct H as [(E & _) | [(_ & -> & _ & Er) | (_ & s & pid & r & -> & H)]].
    + contradiction.
    + exact Er.
    + exists pid, r.
      destruct H as [(_ & _ & ->) | (_ & _ & ->)]; eexists; reflexivity.
Qed.

Lemma rtprio_is_reparsed_from_optarg_witness :
  (exists l0,
      run_result (run (os_of all_ok) (main_setup inv_rt) tt) = Val l0 /\
      rtprio l0 = 5) /\
  In (ESched_setscheduler 100 SCHED_RR 7 0)
     (run_trace (run (os_of all_ok) (main inv_rt) tt)) /\
  (SCHED_RR = SCHED_RR /\
   (exists s, optarg inv_rt = Some s /\ 7 = atoi s) /\
   INT_MIN <= 7 <= INT_MAX /\
   exists l0, run_result (run (os_of all_ok) (main_setup inv_rt) tt) = Val l0 /\
              rtprio l0 <> 0 /\
              exists o s', In o (inv_getopt inv_rt) /\ go_c o = "r"%char /\
                           go_optarg o = Some s' /\ rtprio l0 = atoi s') /\
  run_result (run (os_of all_ok)
                (main_rtprio inv_rt_gnu (set_rtprio init_locals 5)) tt)
  = Halt Undefined.
Proof.
  split; [eexists; split; reflexivity |].
  assert (Hin : In (ESched_setscheduler 100 SCHED_RR 7 0)
                  (run_trace (run (os_of all_ok) (main inv_rt) tt)))
    by (vm_compute; tauto).
  split; [exact Hin |].
  split.
  - destruct (@rtprio_is_reparsed_from_optarg unit (os_of all_ok) tt inv_rt)
      as [H _].
    exact (H _ _ _ _ Hin).
  - destruct (@rtprio_is_reparsed_from_optarg unit (os_of all_ok) tt
                inv_rt_gnu) as [_ H].
    apply (H (set_rtprio init_locals 5)). discriminate.
Defined.

(** With the optarg that the GNU getopt leaves, -r with a value that is
    not 0 makes main read through a null pointer, after the cgroup
    join and without any call of the scheduler. *)
Example rtprio_with_null_optarg :
  run_result (run (os_of all_ok) (main inv_rt_gnu) tt) = Halt Undefined /\
  never is_sched (run_trace (run (os_of all_ok) (main inv_rt_gnu) tt)) /\
  In (EFopen "/sys/fs/cgroup/cpu/7x/tasks" "w" (Some 7))
     (run_trace (run (os_of all_ok) (main inv_rt_gnu) tt)).
Proof.
  split; [reflexivity |]. split.
  - unfold never. vm_compute. repeat constructor.
  - vm_compute. tauto.
Qed.

(** ** Mount remediation *)

Ltac in_cases :=
  repeat match goal with
         | H : In _ (_ :: _) |- _ => destruct H as [H | H]
         | H : In _ [] |- _ => destruct H
         | H : _ \/ _ |- _ => destruct H
         | H : False |- _ => destruct H
         | H : exists _, _ |- _ => destruct H
         | H : @eq event _ ?e |- _ => is_var e; subst e; simpl in *
         | H : @eq event ?e _ |- _ => is_var e; subst e; simpl in *
         | H : @eq event _ _ |- _ => discriminate H
         | H : @eq event _ _ |- _ => injection H as ?; subst
         | H : @eq bool _ _ |- _ => discriminate H
         end.

Ltac mount_leaf :=
  constructor; intros;
  unfold mount_private, mount_sys, mount_proc in *;
  repeat match goal with
         | |- _ <-> _ => split; intros
         | |- _ /\ _ => split
         | |- ~ _ => intro
         | |- forall _, _ => intro
         end;
  in_cases;
  try contradiction;
  try reflexivity;
  try assumption;
  try congruence;
  try (exfalso;
       match goal with
       | H : forall rs, In _ _ -> rs <> -1 |- _ =>
           apply (H (-1)); [simpl; tauto | reflexivity]
       end);
  try (eexists; simpl; eauto 6; fail).

Lemma main_mounts_exec (l : locals) (t : trace) (res : result unit) :
  exec (main_mounts l) t res ->
  (forall e, In e t -> is_mount e = true ->
             attachpid l = 0 /\ has_flag (flags l) CLONE_NEWNS = true) /\
  mount_rules (flags l) t (res = Halt (Exited 1)).
Proof.
  unfold main_mounts.
  destruct (truthy (attachpid l)) eqn:Ha; cbn [negb andb].
  { simpl. intros [-> ->]. split; [intros e [] | mount_leaf]. }
  apply truthy_false in Ha.
  destruct (has_flag (flags l) CLONE_NEWNS) eqn:Hns.
  2:{ simpl. intros [-> ->]. split; [intros e [] | mount_leaf]. }
  intros H. split; [auto |]. simpl in H.
  destruct H as (r1 & t1 & -> & H).
  destruct (Z.eqb_spec r1 (-1)) as [E1 | E1]; simpl in H.
  { destruct H as ([] & t2 & -> & -> & ->). subst r1. mount_leaf. }
  destruct (has_flag (flags l) CLONE_NEWNET) eqn:Hnet; simpl in H.
  - destruct H as (r2 & t2 & -> & H).
    destruct (Z.eqb_spec r2 (-1)) as [E2 | E2]; simpl in H.
    { destruct H as ([] & t3 & -> & -> & ->). subst r2. mount_leaf. }
    destruct (has_flag (flags l) CLONE_NEWPID) eqn:Hpid; simpl in H.
    + destruct H as (r3 & t3 & -> & H).
      destruct (Z.eqb_spec r3 (-1)) as [E3 | E3]; simpl in H.
      { destruct H as ([] & t4 & -> & -> & ->). subst r3. mount_leaf. }
      destruct H as [-> ->]. mount_leaf.
    + destruct H as [-> ->]. mount_leaf.
  - destruct (has_flag (flags l) CLONE_NEWPID) eqn:Hpid; simpl in H.
    + destruct H as (r3 & t3 & -> & H).
      destruct (Z.eqb_spec r3 (-1)) as [E3 | E3]; simpl in H.
      { destruct H as ([] & t4 & -> & -> & ->). subst r3. mount_leaf. }
      destruct H as [-> ->]. mount_leaf.
    + destruct H as [-> ->]. mount_leaf.
Qed.

Lemma mount_rules_nil (fl : Z) (failed : Prop) : mount_rules fl [] failed.
Proof. constructor; simpl; intros; in_cases. Qed.

(** The rules only look at the mounts of the trace. *)
Lemma mount_rules_lift (fl : Z) (tm t : trace) (failed failed' : Prop) :
  mount_rules fl tm failed ->
  (forall e, is_mount e = true -> (In e t <-> In e tm)) ->
  (failed -> failed') ->
  mount_rules fl t failed'.
Proof.
  intros [K S P FP FS FQ] Hin Hf.
  assert (Hp : forall r, In (mount_private r) t <-> In (mount_private r) tm)
    by (intros r; apply Hin; reflexivity).
  assert (Hs : forall r, In (mount_sys r) t <-> In (mount_sys r) tm)
    by (intros r; apply Hin; reflexivity).
  assert (Hq : forall r, In (mount_proc r) t <-> In (mount_proc r) tm)
    by (intros r; apply Hin; reflexivity).
  constructor.
  - intros e He Hm. apply (Hin e Hm) in He. destruct (K e He Hm) as [H1 (r & H2)].
    split; [assumption |]. exists r. apply Hp. assumption.
  - intros r Hr Hn. apply Hp in Hr. rewrite <- (S r Hr Hn).
    split; intros (rs & H); exists rs; apply Hs; assumption.
  - intros r Hr Hn Hall. apply Hp in Hr. rewrite <- (P r Hr Hn).
    + split; intros (rp & H); exists rp; apply Hq; assumption.
    + intros rs H. apply Hall, Hs. assumption.
  - intros H. apply Hp in H. destruct (FP H) as (F & H1 & H2).
    split; [auto |]. split; intros r Hr; [apply (H1 r), Hs | apply (H2 r), Hq];
      assumption.
  - intros H. apply Hs in H. destruct (FS H) as (F & H1).
    split; [auto |]. intros r Hr. apply (H1 r), Hq. assumption.
  - intros H. apply Hq in H. auto.
Qed.

Lemma follows_halt_chain (A B : Type) (r : result A) (p : prog B) (t : trace)
  (r' : result B) (o : outcome) :
  follows r p t r' -> r = Halt o -> r' = Halt o.
Proof.
  intros H ->. destruct H as [_ ->]. reflexivity.
Qed.

(** An event of a part's trace is of the part's class. *)
Ltac by_class :=
  exfalso;
  match goal with
  | C : Forall _ ?t, Hin : In ?e ?t |- _ =>
      rewrite Forall_forall in C; apply C in Hin;
      first [ simpl in Hin; discriminate Hin
            | destruct e; simpl in *; discriminate ]
  end.

(** The mounts of a launch are those of its mount part. *)
Lemma launch_mounts (inv : invocation) (l0 : locals) (t : trace)
  (res : result Z) :
  launch_parts inv l0 t res ->
  (forall e, In e t -> is_mount e = true ->
             attachpid l0 = 0 /\ has_flag (flags l0) CLONE_NEWNS = true) /\
  mount_rules (flags l0) t (res = Halt (Exited 1)).
Proof.
  intros (l & ts & tf & tp & tc & tm & tr & te & rf & rp & rc & rm & rr &
          Hs & Hf & Hp & Hc & Hm & Hr & He & ->).
  pose_classes.
  assert (Hin : forall e, is_mount e = true ->
                  (In e (ts ++ tf ++ tp ++ tc ++ tm ++ tr ++ te) <-> In e tm)).
  { intros e Hmnt. rewrite !in_app_iff. split; [| tauto].
    intros [Hin | [Hin | [Hin | [Hin | [Hin | [Hin | Hin]]]]]];
      try assumption; by_class. }
  apply main_session_exec in Hs.
  destruct Hs as (l' & E & Hfl & _ & Hat & _ & _ & _).
  injection E as E. subst l'. rewrite <- Hfl, <- Hat.
  destruct rc as [u | o]; simpl in Hm.
  - apply main_mounts_exec in Hm. destruct Hm as [Hm1 Hm2]. split.
    + intros e He' Hmnt. apply (Hin e Hmnt) in He'. eauto.
    + eapply mount_rules_lift; [exact Hm2 | exact Hin |].
      intros ->. eapply follows_halt_chain; [exact He |].
      eapply follows_halt_chain; [exact Hr | reflexivity].
  - destruct Hm as [-> ->]. split.
    + intros e He' Hmnt. apply (Hin e Hmnt) in He'. destruct He'.
    + eapply mount_rules_lift; [apply mount_rules_nil | exact Hin |].
      intros F; exact F.
Qed.

(** C8: a mount is made only by a run that created its namespaces: the
    setup has ended in a successful unshare, before any mount, the run is
    not in attach mode and the effective flags contain the mount
    namespace; so in attach mode no mount is ever made. The mounts are
    the private remount of the whole tree first, then /sys exactly when
    a network namespace was created, then /proc exactly when a PID
    namespace was created; a mount that fails ends the process with
    status 1 and no later mount is made. *)
Theorem mounts_only_for_created_namespaces (W : Type) (os : handler W)
  (w : W) (inv : invocation) :
  (forall e, In e (run_trace (run os (main inv) w)) -> is_mount e = true ->
     exists l0 r ta tb,
       run_result (run os (main_setup inv) w) = Val l0 /\
       attachpid l0 = 0 /\ has_flag (flags l0) CLONE_NEWNS = true /\
       run_trace (run os (main inv) w) = ta ++ EUnshare (flags l0) r :: tb /\
       r <> -1 /\ never is_mount ta /\ In e tb) /\
  (forall l0, run_result (run os (main_setup inv) w) = Val l0 ->
     attachpid l0 <> 0 -> never is_mount (run_trace (run os (main inv) w))) /\
  (forall l0, run_result (run os (main_setup inv) w) = Val l0 ->
     mount_rules (flags l0) (run_trace (run os (main inv) w))
       (run_result (run os (main inv) w) = Halt (Exited 1))).
Proof.
  assert (Hsetup : never is_mount (run_trace (run os (main_setup inv) w)))
    by (apply setup_never; [cls_side | reflexivity]).
  destruct (main_run_cases os w inv)
    as [(o & E0 & Er & Et) | (l0 & t1 & E0 & Et & Hp)].
  - rewrite Et. split; [| split].
    + intros e Hin Hm. eapply never_In in Hsetup; [| exact Hin]. congruence.
    + intros l0 E. rewrite E in E0. discriminate E0.
    + intros l0 E. rewrite E in E0. discriminate E0.
  - destruct (launch_mounts Hp) as [Hm1 Hm2].
    assert (Hin : forall e, is_mount e = true ->
               (In e (run_trace (run os (main inv) w)) <-> In e t1)).
    { intros e Hm. rewrite Et, in_app_iff. split; [| tauto].
      intros [Hin | Hin]; [| assumption].
      eapply never_In in Hsetup; [| exact Hin]. congruence. }
    split; [| split].
    + intros e He Hm. apply (Hin e Hm) in He.
      destruct (Hm1 e He Hm) as [Ha Hns].
      pose proof (run_exec os (main_setup inv) w) as Hx.
      apply main_setup_exec in Hx.
      destruct Hx as [(s & r & st & _ & E & _) | (_ & Hx)];
        [rewrite E in E0; discriminate E0 |].
      destruct (Hx l0 E0) as (_ & Hc & _).
      destruct (Hc Ha) as (t' & r & Et' & Hr & Hcls).
      exists l0, r, t', t1. repeat split; try assumption.
      * rewrite Et, Et', <- app_assoc. reflexivity.
      * eapply never_cls; [exact Hcls | cls_side].
    + intros l0' E Ha. rewrite E0 in E. injection E as <-.
      unfold never. rewrite Forall_forall. intros e He.
      destruct (is_mount e) eqn:Hm; [| reflexivity].
      apply (Hin e Hm) in He. destruct (Hm1 e He Hm) as [Ha' _].
      contradiction.
    + intros l0' E. rewrite E0 in E. injection E as <-.
      eapply mount_rules_lift; [exact Hm2 | exact Hin | auto].
Qed.

Lemma mounts_only_for_created_namespaces_witness :
  let tr := run_trace (run (os_of all_ok) (main inv_net_pid) tt) in
  In (mount_private 0) tr /\
  ((exists rs, In (mount_sys rs) tr) <->
   has_flag (Z.lor (Z.lor 0 (Z.lor CLONE_NEWNET CLONE_NEWNS))
                   (Z.lor CLONE_NEWPID CLONE_NEWNS)) CLONE_NEWNET = true) /\
  In (mount_sys 0) tr /\ In (mount_proc 0) tr.
Proof.
  intros tr.
  assert (Hin : In (mount_private 0) tr) by (vm_compute; tauto).
  split; [exact Hin |]. split.
  - destruct (@mounts_only_for_created_namespaces unit (os_of all_ok) tt
                inv_net_pid) as (_ & _ & H).
    refine (mounts_sys (H _ eq_refl) Hin _). discriminate.
  - vm_compute. tauto.
Defined.

(** ** The fork and the parent *)

(** Once a part has ended the process, the later parts are empty. *)
Ltac halt_chain :=
  repeat match goal with
         | H : follows (Halt _) _ _ _ |- _ => destruct H as [-> ->]
         end.

Lemma count_cons (f : event -> bool) (e : event) (t : trace) :
  count f (e :: t) = ((if f e then 1 else 0) + count f t)%nat.
Proof. unfold count. simpl. destruct (f e); reflexivity. Qed.

(** The fork of a launch: at most one, exactly one with the PID namespace
    flag; and what the parent does. *)
Lemma launch_fork (inv : invocation) (l0 : locals) (t : trace)
  (res : result Z) :
  launch_parts inv l0 t res ->
  (count is_fork t <= 1)%nat /\
  (has_flag (flags l0) CLONE_NEWPID = true -> count is_fork t = 1%nat) /\
  forall pid, In (EFork pid) t -> pid <> 0 -> pid <> -1 ->
    never is_execvp t /\ res = Halt (Exited 0) /\
    (has_flag (flags l0) CLONE_NEWPID = true ->
       exists t' st, t = t' ++ [EWait st] /\ In (EFork pid) t' /\
                     never is_wait t') /\
    (has_flag (flags l0) CLONE_NEWPID = false -> never is_wait t).
Proof.
  intros (l & ts & tf & tp & tc & tm & tr & te & rf & rp & rc & rm & rr &
          Hs & Hf & Hp & Hc & Hm & Hr & He & ->).
  pose_classes.
  assert (Hfl : flags l = flags l0).
  { apply main_session_exec in Hs. destruct Hs as (l' & E & Hfl & _).
    injection E as E. subst l'. exact Hfl. }
  assert (Hcnt : count is_fork (ts ++ tf ++ tp ++ tc ++ tm ++ tr ++ te)
                 = count is_fork tf).
  { rewrite !count_app.
    rewrite (@never_count is_fork ts) by never_tac.
    rewrite (@never_count is_fork tp) by never_tac.
    rewrite (@never_count is_fork tc) by never_tac.
    rewrite (@never_count is_fork tm) by never_tac.
    rewrite (@never_count is_fork tr) by never_tac.
    rewrite (@never_count is_fork te) by never_tac.
    lia. }
  assert (Hin : forall pid,
             In (EFork pid) (ts ++ tf ++ tp ++ tc ++ tm ++ tr ++ te) ->
             In (EFork pid) tf).
  { intros pid. rewrite !in_app_iff.
    intros [Hin | [Hin | [Hin | [Hin | [Hin | [Hin | Hin]]]]]];
      try assumption; by_class. }
  pose proof (fun H => @session_pidns_forks _ _ _ Hs H) as Hforce.
  rewrite Hfl in Hforce.
  apply main_fork_exec in Hf. rewrite Hcnt.
  destruct Hf as [(Hd & -> & ->) | (Hd & pid' & Hf)].
  { split; [unfold count; simpl; lia |]. split.
    - intros Hflag. rewrite (Hforce Hflag) in Hd. discriminate Hd.
    - intros pid Hi. apply Hin in Hi. destruct Hi. }
  destruct Hf as [(-> & -> & ->) | [(-> & -> & ->) | (N1 & N0 & -> & t1 & t2 & -> & Hpr & Hw)]].
  - split; [vm_compute; lia |]. split; [reflexivity |].
    intros pid Hi. apply Hin in Hi. simpl in Hi.
    destruct Hi as [E | [E | []]]; [injection E as <- | discriminate E].
    contradiction.
  - split; [vm_compute; lia |]. split; [reflexivity |].
    intros pid Hi. apply Hin in Hi. simpl in Hi.
    destruct Hi as [E | []]. injection E as <-. contradiction.
  - halt_chain. simpl app in *. rewrite !app_nil_r in *.
    assert (Hc1 : count is_fork (EFork pid' :: t1 ++ t2) = 1%nat).
    { rewrite count_cons, count_app. simpl.
      destruct Hpr as [(_ & r & r' & ->) | (_ & ->)];
        destruct Hw as [(_ & st & ->) | (_ & ->)]; reflexivity. }
    rewrite Hc1. split; [lia |]. split; [reflexivity |].
    intros pid Hi _ _. split; [| split; [reflexivity | split]].
    + never_tac.
    + intros Hflag. rewrite Hfl in Hw.
      destruct Hw as [(_ & st & ->) | (E & _)];
        [| rewrite Hflag in E; discriminate E].
      exists (ts ++ EFork pid' :: t1), st. split; [| split].
      * rewrite <- app_assoc. reflexivity.
      * apply Hin in Hi.
        apply in_or_app. right.
        destruct Hi as [E | Hi]; [left; exact E |].
        apply in_app_or in Hi. destruct Hi as [Hi | [E | []]];
          [right; exact Hi | discriminate E].
      * destruct Hpr as [(_ & r & r' & ->) | (_ & ->)]; never_tac.
    + intros Hflag. rewrite Hfl in Hw.
      destruct Hw as [(E & _) | (_ & ->)];
        [rewrite Hflag in E; discriminate E |].
      destruct Hpr as [(_ & r & r' & ->) | (_ & ->)]; never_tac.
Qed.

Lemma setup_created (W : Type) (os : handler W) (w : W) (inv : invocation)
  (l0 : locals) :
  run_result (run os (main_setup inv) w) = Val l0 ->
  dofork l0 = 0 /\
  (attachpid l0 = 0 ->
   exists t' r,
     run_trace (run os (main_setup inv) w) = t' ++ [EUnshare (flags l0) r] /\
     r <> -1 /\ never is_unshare t').
Proof.
  intros E. pose proof (run_exec os (main_setup inv) w) as H.
  apply main_setup_exec in H. rewrite E in H.
  destruct H as [(s & r & st & _ & E' & _) | (_ & H)]; [discriminate E' |].
  destruct (H l0 eq_refl) as (Hd & Hc & _). split; [assumption |].
  intros Ha. destruct (Hc Ha) as (t' & r & Et & Hr & Hcls).
  exists t', r. repeat split; try assumption.
  eapply never_cls; [exact Hcls | cls_side].
Qed.

(** C4: when the setup has left the PID namespace flag in the effective
    flags (in create mode: unshare was given it and succeeded), the run
    makes exactly one fork; the parent, the process in which fork
    returned the pid of the child, never calls execvp, waits, and exits
    with status 0 right after the wait whatever status the wait reported.
    When the parent forked without that flag, it does not wait and exits
    with status 0 as well. *)
Theorem pidns_forks_once_and_parent_waits (W : Type) (os : handler W) (w : W)
  (inv : invocation) (l0 : locals) :
  run_result (run os (main_setup inv) w) = Val l0 ->
  (attachpid l0 = 0 ->
   exists r, In (EUnshare (flags l0) r) (run_trace (run os (main inv) w)) /\
             r <> -1) /\
  (has_flag (flags l0) CLONE_NEWPID = true ->
   count is_fork (run_trace (run os (main inv) w)) = 1%nat /\
   forall pid,
     In (EFork pid) (run_trace (run os (main inv) w)) ->
     pid <> 0 -> pid <> -1 ->
     never is_execvp (run_trace (run os (main inv) w)) /\
     run_result (run os (main inv) w) = Halt (Exited 0) /\
     exists t' st,
       run_trace (run os (main inv) w) = t' ++ [EWait st] /\
       In (EFork pid) t' /\ never is_wait t') /\
  (has_flag (flags l0) CLONE_NEWPID = false ->
   forall pid,
     In (EFork pid) (run_trace (run os (main inv) w)) ->
     pid <> 0 -> pid <> -1 ->
     never is_execvp (run_trace (run os (main inv) w)) /\
     never is_wait (run_trace (run os (main inv) w)) /\
     run_result (run os (main inv) w) = Halt (Exited 0)).
Proof.
  intros E0. destruct (main_run_parts os w inv E0) as (t1 & Et & Hp).
  assert (Hs : Forall (fun e => cls_setup e = true)
                 (run_trace (run os (main_setup inv) w))).
  { pose proof (run_exec os (main_setup inv) w) as H.
    apply main_setup_exec in H. rewrite E0 in H.
    destruct H as [(s & r & st & _ & E' & _) | (H & _)];
      [discriminate E' | exact H]. }
  destruct (launch_fork Hp) as (_ & Hone & Hparent).
  assert (Hin : forall pid,
             In (EFork pid) (run_trace (run os (main inv) w)) ->
             In (EFork pid) t1).
  { intros pid. rewrite Et, in_app_iff. intros [Hin | Hin]; [| assumption].
    by_class. }
  split; [| split].
  - intros Ha. destruct (setup_created os w inv E0) as (_ & Hc).
    destruct (Hc Ha) as (t' & r & Et' & Hr & _). exists r.
    split; [| assumption]. rewrite Et, Et', !in_app_iff. simpl. auto.
  - intros Hflag. rewrite Et. split.
    + rewrite count_app, (@never_count is_fork _)
        by (eapply never_cls; [exact Hs | cls_side]).
      apply Hone. assumption.
    + intros pid Hi N0 N1. rewrite <- Et in Hi. apply Hin in Hi.
      destruct (Hparent pid Hi N0 N1) as (Hx & Hr & Hw & _).
      split; [| split; [assumption |]].
      * apply never_app. split; [| assumption].
        eapply never_cls; [exact Hs | cls_side].
      * destruct (Hw Hflag) as (t' & st & -> & Hi' & Hnw).
        exists (run_trace (run os (main_setup inv) w) ++ t'), st.
        split; [rewrite app_assoc; reflexivity |].
        split; [apply in_or_app; auto |].
        apply never_app. split; [| assumption].
        eapply never_cls; [exact Hs | cls_side].
  - intros Hflag pid Hi N0 N1. apply Hin in Hi.
    destruct (Hparent pid Hi N0 N1) as (Hx & Hr & _ & Hw).
    rewrite Et. split; [| split; [| assumption]].
    + apply never_app. split; [| assumption].
      eapply never_cls; [exact Hs | cls_side].
    + apply never_app. split; [| auto].
      eapply never_cls; [exact Hs | cls_side].
Qed.

Lemma pidns_forks_once_and_parent_waits_witness :
  let os := os_of (override all_ok fork_parent) in
  count is_fork (run_trace (run os (main inv_pidns) tt)) = 1%nat /\
  run_result (run os (main inv_pidns) tt) = Halt (Exited 0) /\
  exists t' st,
    run_trace (run os (main inv_pidns) tt) = t' ++ [EWait st] /\
    In (EFork 101) t' /\ never is_wait t'.
Proof.
  intros os.
  destruct (@pidns_forks_once_and_parent_waits unit os tt inv_pidns
              (set_printpid
                 (set_flags init_locals (Z.lor 0 (Z.lor CLONE_NEWPID CLONE_NEWNS)))
                 1)
              eq_refl) as (_ & H & _).
  destruct (H eq_refl) as [H1 H2]. split; [exact H1 |].
  destruct (H2 101) as (_ & H3 & H4).
  - vm_compute. tauto.
  - discriminate.
  - discriminate.
  - split; [exact H3 | exact H4].
Defined.

(** ** Session and process group *)

(** An event of a kind that occurs once is where it is. *)
Lemma only_of_kind (f : event -> bool) (t0 : trace) :
  forall (t1 r0 r1 : trace) (e0 e1 : event),
    never f t0 -> never f r0 -> f e1 = true ->
    t0 ++ e0 :: r0 = t1 ++ e1 :: r1 ->
    t0 = t1 /\ e0 = e1 /\ r0 = r1.
Proof.
  induction t0 as [| a t0 IH]; intros t1 r0 r1 e0 e1 N0 N1 F1 E.
  - destruct t1 as [| b t1]; simpl in E.
    + injection E as -> ->. auto.
    + injection E as -> ->. apply never_app in N1. destruct N1 as [_ N1].
      apply never_cons in N1. destruct N1 as [N1 _]. congruence.
  - destruct t1 as [| b t1]; simpl in E.
    + injection E as -> _. apply never_cons in N0. destruct N0 as [N0 _].
      congruence.
    + injection E as -> E. apply never_cons in N0. destruct N0 as [_ N0].
      destruct (IH _ _ _ _ _ N0 N1 F1 E) as (-> & -> & ->). auto.
Qed.

(** The session part within a launch: the calls on session and process
    group are all there, no fork is, and a fork follows exactly when
    [dofork] is set. *)
Lemma launch_session (inv : invocation) (l0 : locals) (t : trace)
  (res : result Z) :
  launch_parts inv l0 t res ->
  exists l ts rest,
    t = ts ++ rest /\ exec (main_session l0) ts (Val l) /\
    never is_getpgrp rest /\ never is_setsid rest /\ never is_setpgid rest /\
    never is_fork ts /\
    ((exists pid, In (EFork pid) rest) <-> truthy (dofork l) = true).
Proof.
  intros (l & ts & tf & tp & tc & tm & tr & te & rf & rp & rc & rm & rr &
          Hs & Hf & Hp & Hc & Hm & Hr & He & ->).
  pose_classes.
  exists l, ts, (tf ++ tp ++ tc ++ tm ++ tr ++ te).
  split; [reflexivity |]. split; [assumption |].
  split; [never_tac |]. split; [never_tac |]. split; [never_tac |].
  split; [never_tac |].
  apply main_fork_exec in Hf.
  destruct Hf as [(Hd & -> & ->) | (Hd & pid & Hf)]; rewrite Hd.
  - split; [| discriminate]. intros (pid & Hin). simpl in Hin.
    rewrite !in_app_iff in Hin.
    destruct Hin as [Hin | [Hin | [Hin | [Hin | Hin]]]]; by_class.
  - split; [reflexivity |]. intros _. exists pid. apply in_or_app. left.
    destruct Hf as [(_ & -> & _) | [(_ & -> & _) | (_ & _ & _ & t1 & t2 & -> & _)]];
      simpl; auto.
Qed.


(** The three ways of the session part, read on a whole run of main
    whose setup gave the locals [l0]. *)
Lemma main_session_cases (W : Type) (os : handler W) (w : W)
  (inv : invocation) (l0 : locals) :
  run_result (run os (main_setup inv) w) = Val l0 ->
  let tr := run_trace (run os (main inv) w) in
  (* no detachment asked for: a new process group *)
  (detachtty l0 = 0 /\
   never is_getpgrp tr /\ never is_setsid tr /\
   (exists r, In (ESetpgid 0 0 r) tr) /\
   ((exists pid, In (EFork pid) tr) <->
    has_flag (flags l0) CLONE_NEWPID = true)) \/
  (* detachment asked for by a group leader: a new session, then a fork *)
  (detachtty l0 <> 0 /\ exists pgrp,
     leader_check tr pgrp pgrp /\
     (forall a b, leader_check tr a b -> a = pgrp /\ b = pgrp) /\
     never is_setpgid tr /\
     (exists pid, In (EFork pid) tr) /\
     exists ta r tb, tr = ta ++ ESetsid r :: tb /\ never is_fork ta /\
                     never is_setsid ta /\ never is_setsid tb) \/
  (* detachment asked for by another process: a new process group *)
  (detachtty l0 <> 0 /\ exists pgrp pid,
     pgrp <> pid /\ leader_check tr pgrp pid /\
     (forall a b, leader_check tr a b -> a = pgrp /\ b = pid) /\
     never is_setsid tr /\
     (exists r, In (ESetpgid 0 0 r) tr) /\
     ((exists p, In (EFork p) tr) <->
      has_flag (flags l0) CLONE_NEWPID = true)).
Proof.
  intros E0 tr. subst tr.
  destruct (main_run_parts os w inv E0) as (t1 & Et & Hp).
  assert (Hs : Forall (fun e => cls_setup e = true)
                 (run_trace (run os (main_setup inv) w))).
  { pose proof (run_exec os (main_setup inv) w) as H.
    apply main_setup_exec in H. rewrite E0 in H.
    destruct H as [(s & r & st & _ & E' & _) | (H & _)];
      [discriminate E' | exact H]. }
  destruct (setup_created os w inv E0) as (Hd0 & _).
  rewrite Et. set (t0 := run_trace (run os (main_setup inv) w)) in *.
  clearbody t0.
  destruct (launch_session Hp)
    as (l & ts & rest & -> & Hx & Ng & Nsid & Npg & Nf & Hfork).
  assert (Hfork' : (exists pid, In (EFork pid) (t0 ++ ts ++ rest)) <->
                   truthy (dofork l) = true).
  { rewrite <- Hfork. split; intros (pid & Hin); exists pid.
    - rewrite !in_app_iff in Hin. destruct Hin as [Hin | [Hin | Hin]];
        [by_class | | assumption].
      eapply never_In in Nf; [| exact Hin]. discriminate Nf.
    - rewrite !in_app_iff. auto. }
  apply main_session_exec in Hx.
  destruct Hx as (l' & E & Hfl & _ & _ & _ & _ & Hx).
  injection E as E. subst l'.
  assert (Hdz : truthy (dofork l0) = false) by (rewrite Hd0; reflexivity).
  rewrite Hdz, orb_false_r in Hx.
  destruct Hx as [(Hdt & (r & ->) & Hd) | (Hdt & pgrp & pid & r & [(-> & -> & Hd) | (Hne & -> & Hd)])].
  - left. split; [assumption |]. rewrite Hd in Hfork'.
    split; [never_tac |]. split; [never_tac |].
    split; [| assumption].
    exists r. rewrite !in_app_iff. simpl. auto.
  - right. left. split; [assumption |]. exists pid.
    assert (Hlc : leader_check
                    (t0 ++ [EGetpgrp pid; EGetpid pid; ESetsid r] ++ rest)
                    pid pid)
      by (exists t0, (ESetsid r :: rest); reflexivity).
    split; [exact Hlc |]. split; [| split; [never_tac | split]].
    + intros a b (t1' & t2' & E).
      assert (N0 : never is_getpgrp t0) by never_tac.
      assert (N1 : never is_getpgrp (EGetpid pid :: ESetsid r :: rest))
        by never_tac.
      simpl in E.
      eapply only_of_kind in E; [| exact N0 | exact N1 | reflexivity].
      destruct E as (_ & Ee & Er).
      injection Ee as ->. injection Er as -> _. auto.
    + apply Hfork'. assumption.
    + exists (t0 ++ [EGetpgrp pid; EGetpid pid]), r, rest.
      split; [rewrite <- app_assoc; reflexivity |].
      split; [never_tac |]. split; [never_tac | assumption].
  - right. right. split; [assumption |]. exists pgrp, pid.
    split; [assumption |].
    split; [exists t0, (ESetpgid 0 0 r :: rest); reflexivity |].
    rewrite Hd in Hfork'.
    split; [| split; [never_tac | split; [| assumption]]].
    + intros a b (t1' & t2' & E).
      assert (N0 : never is_getpgrp t0) by never_tac.
      assert (N1 : never is_getpgrp (EGetpid pid :: ESetpgid 0 0 r :: rest))
        by never_tac.
      simpl in E.
      eapply only_of_kind in E; [| exact N0 | exact N1 | reflexivity].
      destruct E as (_ & Ee & Er).
      injection Ee as ->. injection Er as -> _. auto.
    + exists r. rewrite !in_app_iff. simpl. tauto.
Qed.

Lemma launch_cls (inv : invocation) (l0 : locals) (t : trace)
  (res : result Z) :
  launch_parts inv l0 t res -> Forall (fun e => cls_launch e = true) t.
Proof.
  intros (l & ts & tf & tp & tc & tm & tr & te & rf & rp & rc & rm & rr &
          Hs & Hf & Hp & Hc & Hm & Hr & He & ->).
  pose_classes. unfold cls_launch.
  rewrite !Forall_app. repeat split;
    (eapply Forall_impl; [| eassumption]);
    intros e ->; rewrite ?orb_true_r; reflexivity.
Qed.

(** C5, as the code has it: once the setup is done, a fork is made
    exactly when the effective flags contain the PID namespace flag, or
    detachment was asked for and getpgrp returned what getpid returned.
    In create mode the flag is there exactly when a PID namespace was
    created; in attach mode it comes from the namespaces joined. Asking
    for detachment when not the group leader makes no fork by itself: the
    process only calls setpgid(0, 0). *)
Theorem fork_iff_pid_flag_or_detaching_leader (W : Type) (os : handler W)
  (w : W) (inv : invocation) (l0 : locals) :
  run_result (run os (main_setup inv) w) = Val l0 ->
  ((exists pid, In (EFork pid) (run_trace (run os (main inv) w))) <->
   has_flag (flags l0) CLONE_NEWPID = true \/
   (detachtty l0 <> 0 /\
    exists p, leader_check (run_trace (run os (main inv) w)) p p)) /\
  (attachpid l0 = 0 ->
   (has_flag (flags l0) CLONE_NEWPID = true <->
    pidns_created (run_trace (run os (main inv) w)))) /\
  (detachtty l0 <> 0 ->
   forall pgrp pid,
     leader_check (run_trace (run os (main inv) w)) pgrp pid ->
     pgrp <> pid ->
     has_flag (flags l0) CLONE_NEWPID = false ->
     never is_fork (run_trace (run os (main inv) w)) /\
     never is_setsid (run_trace (run os (main inv) w)) /\
     exists r, In (ESetpgid 0 0 r) (run_trace (run os (main inv) w))).
Proof.
  intros E0. pose proof (main_session_cases os w inv E0) as Hcases.
  cbv zeta in Hcases. split; [| split].
  - destruct Hcases as [(Hd & Ng & _ & _ & Hf) | [(Hd & pgrp & Hl & _ & _ & Hf & _) | (Hd & pgrp & pid & Hne & Hl & Hu & _ & _ & Hf)]].
    + rewrite Hf. split; [auto |]. intros [H | (H & _)]; [assumption |].
      contradiction.
    + split; [| intros _; assumption]. intros _. right. split; [assumption |].
      exists pgrp. assumption.
    + rewrite Hf. split; [auto |]. intros [H | (_ & p & H)]; [assumption |].
      destruct (Hu _ _ H) as [-> ->]. contradiction.
  - intros Ha. destruct (setup_created os w inv E0) as (_ & Hc).
    destruct (Hc Ha) as (t' & r & Et' & Hr & Nu).
    destruct (main_run_parts os w inv E0) as (t1 & Et & Hp).
    pose proof (launch_cls Hp) as Hcls. rewrite Et, Et'. split.
    + intros Hflag. exists (flags l0), r. rewrite !in_app_iff. simpl. auto.
    + intros (f & r' & Hin & _ & Hflag). rewrite !in_app_iff in Hin.
      destruct Hin as [[Hin | [E | []]] | Hin].
      * eapply never_In in Nu; [| exact Hin]. discriminate Nu.
      * injection E as <- _. assumption.
      * rewrite Forall_forall in Hcls. apply Hcls in Hin. discriminate Hin.
  - intros Hd pgrp pid Hl Hne Hflag.
    destruct Hcases as [(Hd' & _) | [(_ & pg & _ & Hu & _) | (_ & pg & p & _ & _ & Hu & Ns & Hpg & Hf)]].
    + contradiction.
    + destruct (Hu _ _ Hl) as [-> ->]. contradiction.
    + split; [| split; assumption].
      unfold never. rewrite Forall_forall. intros e He.
      destruct e; try reflexivity. exfalso.
      rewrite Hflag in Hf. assert (Hx : false = true) by (apply Hf; eauto).
      discriminate Hx.
Qed.

Lemma fork_iff_pid_flag_or_detaching_leader_witness :
  let tr := run_trace (run (os_of all_ok) (main inv_detach) tt) in
  leader_check tr 50 100 /\
  never is_fork tr /\ never is_setsid tr /\ exists r, In (ESetpgid 0 0 r) tr.
Proof.
  intros tr.
  assert (Hl : leader_check tr 50 100).
  { exists [EUnshare 0 0]. eexists. vm_compute. reflexivity. }
  split; [exact Hl |].
  destruct (@fork_iff_pid_flag_or_detaching_leader unit (os_of all_ok) tt
              inv_detach (set_detachtty init_locals 1) eq_refl)
    as (_ & _ & H).
  apply (H ltac:(discriminate) 50 100 Hl ltac:(discriminate) eq_refl).
Defined.

(** C5 as stated fails: attaching to a process whose PID namespace is
    not ours joins that namespace and then forks, though no PID namespace
    is created and no detachment was asked for. *)
Lemma fork_without_created_pidns :
  let os := os_of (override all_ok pid_ns_differs) in
  (exists pid, In (EFork pid) (run_trace (run os (main inv_attach) tt))) /\
  ~ pidns_created (run_trace (run os (main inv_attach) tt)) /\
  exists l0, run_result (run os (main_setup inv_attach) tt) = Val l0 /\
             detachtty l0 = 0 /\ flags l0 = CLONE_NEWPID.
Proof.
  intros os. split; [| split].
  - exists 0. vm_compute. tauto.
  - intros (f & r & Hin & _). vm_compute in Hin. in_cases.
  - eexists. split; [vm_compute; reflexivity |]. split; reflexivity.
Qed.

(** The calls of the session part: once the setup is done, setsid is
    called exactly when detachment was asked for and getpgrp returned
    what getpid returned, that is by a group leader; it is then called
    before the fork that this case always makes, and setpgid is not
    called. In every other case, also when detachment was asked for and
    a fork is made for the PID namespace only, setsid is not called and
    the process calls setpgid(0, 0). *)
Theorem session_iff_detaching_leader (W : Type) (os : handler W) (w : W)
  (inv : invocation) (l0 : locals) :
  run_result (run os (main_setup inv) w) = Val l0 ->
  ((exists r, In (ESetsid r) (run_trace (run os (main inv) w))) <->
   detachtty l0 <> 0 /\
   exists p, leader_check (run_trace (run os (main inv) w)) p p) /\
  ((exists r, In (ESetsid r) (run_trace (run os (main inv) w))) ->
   never is_setpgid (run_trace (run os (main inv) w)) /\
   (exists pid, In (EFork pid) (run_trace (run os (main inv) w))) /\
   exists ta r tb,
     run_trace (run os (main inv) w) = ta ++ ESetsid r :: tb /\
     never is_fork ta /\ never is_setsid ta /\ never is_setsid tb) /\
  (never is_setsid (run_trace (run os (main inv) w)) ->
   exists r, In (ESetpgid 0 0 r) (run_trace (run os (main inv) w))).
Proof.
  intros E0. pose proof (main_session_cases os w inv E0) as Hcases.
  cbv zeta in Hcases.
  destruct Hcases as [(Hd & Ng & Ns & Hpg & Hf) | [(Hd & pgrp & Hl & Hu & Npg & Hf & ta & r & tb & Et & Nf & Nsa & Nsb) | (Hd & pgrp & pid & Hne & Hl & Hu & Ns & Hpg & Hf)]].
  - split; [| split].
    + split.
      * intros (r & Hin). eapply never_In in Ns; [| exact Hin].
        discriminate Ns.
      * intros (H & _). contradiction.
    + intros (r & Hin). eapply never_In in Ns; [| exact Hin]. discriminate Ns.
    + intros _. assumption.
  - assert (Hsid : exists r, In (ESetsid r) (run_trace (run os (main inv) w))).
    { exists r. rewrite Et, in_app_iff. simpl. auto. }
    split; [| split].
    + split; [| intros _; assumption]. intros _. split; [assumption |].
      exists pgrp. assumption.
    + intros _. split; [assumption |]. split; [assumption |].
      exists ta, r, tb. auto.
    + intros Ns. destruct Hsid as (r' & Hin).
      eapply never_In in Ns; [| exact Hin]. discriminate Ns.
  - split; [| split].
    + split.
      * intros (r & Hin). eapply never_In in Ns; [| exact Hin].
        discriminate Ns.
      * intros (_ & p & H). destruct (Hu _ _ H) as [-> ->]. contradiction.
    + intros (r & Hin). eapply never_In in Ns; [| exact Hin]. discriminate Ns.
    + intros _. assumption.
Qed.

Lemma session_iff_detaching_leader_witness :
  let os := os_of (override all_ok group_leader) in
  leader_check (run_trace (run os (main inv_detach) tt)) 100 100 /\
  exists r, In (ESetsid r) (run_trace (run os (main inv_detach) tt)).
Proof.
  intros os.
  assert (Hl : leader_check (run_trace (run os (main inv_detach) tt)) 100 100).
  { exists [EUnshare 0 0]. eexists. vm_compute. reflexivity. }
  split; [exact Hl |].
  destruct (@session_iff_detaching_leader unit os tt inv_detach
              (set_detachtty init_locals 1) eq_refl) as ([_ H] & _).
  apply H. split; [discriminate | exists 100; exact Hl].
Defined.

(** With -d and -P, in a process that is not the leader of its group,
    detachment was asked for and a fork is made, for the PID namespace,
    yet setsid is never called: the process that goes on, and its child,
    are in a new process group of the old session. *)
Lemma detach_with_pidns_fork_has_no_session :
  let tr := run_trace (run (os_of all_ok) (main inv_detach_pidns) tt) in
  (exists l0,
      run_result (run (os_of all_ok) (main_setup inv_detach_pidns) tt)
      = Val l0 /\ detachtty l0 = 1) /\
  In (EFork 0) tr /\ never is_setsid tr /\ In (ESetpgid 0 0 0) tr.
Proof.
  intros tr. split; [| split; [| split]].
  - eexists. split; [vm_compute; reflexivity | reflexivity].
  - vm_compute. tauto.
  - unfold never. vm_compute. repeat constructor.
  - vm_compute. tauto.
Qed.

(** ** The PID report *)

Lemma split_skip (f : event -> bool) (ta : trace) :
  forall (tb t1 t2 : trace) (e : event),
    never f ta -> f e = true -> ta ++ tb = t1 ++ e :: t2 ->
    exists m, t1 = ta ++ m /\ tb = m ++ e :: t2.
Proof.
  induction ta as [| a ta IH]; intros tb t1 t2 e N F E.
  - exists t1. auto.
  - apply never_cons in N. destruct N as [Na N].
    destruct t1 as [| b t1]; simpl in E.
    + injection E as -> _. congruence.
    + injection E as -> E. destruct (IH _ _ _ _ N F E) as (m & -> & ->).
      exists m. auto.
Qed.

Lemma split_either (ta : trace) :
  forall (tb t1 t2 : trace) (e : event),
    ta ++ tb = t1 ++ e :: t2 ->
    (exists m, ta = t1 ++ e :: m /\ t2 = m ++ tb) \/
    (exists m, t1 = ta ++ m /\ tb = m ++ e :: t2).
Proof.
  induction ta as [| a ta IH]; intros tb t1 t2 e E.
  - right. exists t1. auto.
  - destruct t1 as [| b t1]; simpl in E.
    + injection E as -> <-. left. exists ta. auto.
    + injection E as -> E.
      destruct (IH _ _ _ _ E) as [(m & -> & ->) | (m & -> & ->)].
      * left. exists m. auto.
      * right. exists m. auto.
Qed.

(** The only text the last part prints is the usage. *)
Lemma main_exec_printf (inv : invocation) (t : trace) (res : result Z)
  (s : string) (r : Z) :
  exec (main_exec inv) t res -> In (EPrintf s r) t ->
  s = usage_text (argv0 inv).
Proof.
  unfold main_exec, usage.
  destruct (skipn (optind inv) (argv inv)) as [| file rest]; simpl.
  - intros (r0 & t' & -> & -> & _) [E | []]. injection E as -> _. reflexivity.
  - intros (r0 & t' & -> & H) Hin. destruct r0 as [r0 |]; simpl in H.
    + destruct H as ([] & t'' & -> & -> & _). in_cases.
    + destruct H as [-> _]. in_cases.
Qed.

(** The report of the parent, in the trace of the fork part. *)
Lemma main_fork_printf (l : locals) (t : trace) (res : result unit)
  (m m' : trace) (s : string) (r : Z) :
  exec (main_fork l) t res -> t = m ++ EPrintf s r :: m' ->
  exists pid r',
    m = [EFork pid] /\ pid <> 0 /\ pid <> -1 /\ s = pid_report pid /\
    exists m'', m' = EFflush_stdout r' :: m''.
Proof.
  intros H E. apply main_fork_exec in H.
  assert (Hin : In (EPrintf s r) t)
    by (rewrite E; apply in_or_app; simpl; auto).
  destruct H as [(_ & -> & _) | (_ & pid & H)]; [destruct Hin |].
  destruct H as [(_ & -> & _) | [(_ & -> & _) | (N1 & N0 & _ & t1 & t2 & -> & Hp & Hw)]];
    try (in_cases; fail).
  destruct Hp as [(_ & r0 & r' & ->) | (_ & ->)].
  - exists pid, r'.
    assert (E' : [EFork pid] ++ EPrintf (pid_report pid) r0
                   :: (EFflush_stdout r' :: t2)
                 = m ++ EPrintf s r :: m') by exact E.
    eapply only_of_kind with (f := is_printf) in E'.
    + destruct E' as (<- & Ee & <-). injection Ee as <- _.
      repeat split; try assumption. exists t2. reflexivity.
    + repeat constructor.
    + destruct Hw as [(_ & st & ->) | (_ & ->)]; repeat constructor.
    + reflexivity.
  - exfalso. simpl in Hin.
    destruct Hw as [(_ & st & ->) | (_ & ->)]; in_cases.
Qed.

Lemma launch_printf (inv : invocation) (l0 : locals) (t : trace)
  (res : result Z) (t1 t2 : trace) (s : string) (r : Z) :
  launch_parts inv l0 t res -> t = t1 ++ EPrintf s r :: t2 ->
  s = usage_text (argv0 inv) \/
  exists pid,
    s = pid_report pid /\ never is_printf t1 /\
    (exists r' t2', t2 = EFflush_stdout r' :: t2') /\
    ((exists t1', t1 = t1' ++ [EFork pid] /\ pid <> 0 /\ pid <> -1 /\
                  never is_fork t1') \/
     (exists t1', t1 = t1' ++ [EGetpid pid] /\ never is_fork t1)).
Proof.
  intros (l & ts & tf & tp & tc & tm & tr & te & rf & rp & rc & rm & rr &
          Hs & Hf & Hp & Hc & Hm & Hr & He & ->) E.
  pose_classes.
  (* not in the session part *)
  apply split_skip with (f := is_printf) in E; [| never_tac | reflexivity].
  destruct E as (m1 & -> & E).
  (* in the fork part? *)
  apply split_either in E.
  destruct E as [(m & E & ->) | (m2 & -> & E)].
  { destruct (@main_fork_printf _ _ _ _ _ _ _ Hf E)
      as (pid & r' & -> & N0 & N1 & -> & m'' & ->).
    right. exists pid. split; [reflexivity |].
    split; [never_tac |]. split; [simpl; eauto |].
    left. exists ts. repeat split; try assumption. never_tac. }
  (* in the report of our own pid? *)
  apply split_either in E.
  destruct E as [(m & E & ->) | (m3 & -> & E)].
  { destruct rf as [u | o]; simpl in Hp;
      [| destruct Hp as [-> _]; destruct m2; discriminate E].
    apply main_printpid_exec in Hp.
    destruct Hp as [(-> & _) | (_ & Hd & [(_ & -> & _) | (_ & _ & pid & r0 & r' & ->)])];
      try (destruct m2; discriminate E).
    apply main_fork_exec in Hf. rewrite Hd in Hf.
    destruct Hf as [(_ & -> & _) | (Ht & _)]; [| discriminate Ht].
    assert (E' : [EGetpid pid] ++ EPrintf (pid_report pid) r0
                   :: [EFflush_stdout r']
                 = m2 ++ EPrintf s r :: m) by exact E.
    eapply only_of_kind with (f := is_printf) in E';
      [| repeat constructor | repeat constructor | reflexivity].
    destruct E' as (<- & Ee & <-). injection Ee as <- _.
    right. exists pid. split; [reflexivity |].
    split; [never_tac |]. split; [simpl; eauto |].
    right. exists ts. split; [reflexivity |]. never_tac. }
  (* not in the cgroup, mount and priority parts *)
  apply split_skip with (f := is_printf) in E; [| never_tac | reflexivity].
  destruct E as (m4 & -> & E).
  apply split_skip with (f := is_printf) in E; [| never_tac | reflexivity].
  destruct E as (m5 & -> & E).
  apply split_skip with (f := is_printf) in E; [| never_tac | reflexivity].
  destruct E as (m6 & -> & E).
  (* so it is the usage *)
  left.
  assert (Hin : In (EPrintf s r) te)
    by (rewrite E; apply in_or_app; simpl; auto).
  destruct rr as [u | o]; simpl in He.
  - eapply main_exec_printf; eassumption.
  - destruct He as [-> _]. destruct Hin.
Qed.

(** C7: every text a run of main prints on the standard output is the
    version line, the usage, or a PID report. A PID report is the byte 1,
    the decimal digits of a pid and a newline; nothing was printed before
    it, and it is flushed at once, so these bytes go out alone. The pid is
    the one fork has just returned to the parent, or, in a process that
    made no fork, the one getpid has just returned. *)
Theorem pid_report_is_framed (W : Type) (os : handler W) (w : W)
  (inv : invocation) (t1 t2 : trace) (s : string) (r : Z) :
  run_trace (run os (main inv) w) = t1 ++ EPrintf s r :: t2 ->
  (s = (VERSION ++ nl)%string \/ s = usage_text (argv0 inv)) \/
  exists pid,
    s = String (ascii_of_nat 1) (fmt_d pid ++ String (ascii_of_nat 10) "") /\
    never is_printf t1 /\
    (exists r' t2', t2 = EFflush_stdout r' :: t2') /\
    ((exists t1', t1 = t1' ++ [EFork pid] /\ pid <> 0 /\ pid <> -1 /\
                  never is_fork t1') \/
     (exists t1', t1 = t1' ++ [EGetpid pid] /\ never is_fork t1)).
Proof.
  intros E.
  destruct (main_run_cases os w inv)
    as [(o & E0 & _ & Et) | (l0 & ta & E0 & Et & Hp)].
  - left. pose proof (run_exec os (main_setup inv) w) as H.
    apply main_setup_exec in H.
    assert (Hin : In (EPrintf s r) (run_trace (run os (main_setup inv) w)))
      by (rewrite <- Et, E; apply in_or_app; simpl; auto).
    destruct H as [(s' & r' & st & Es & _ & Hs) | (Hc & _)].
    + rewrite Es in Hin. destruct Hin as [Ee | []]. injection Ee as <- _.
      exact Hs.
    + by_class.
  - pose proof (run_exec os (main_setup inv) w) as H.
    apply main_setup_exec in H. rewrite E0 in H.
    destruct H as [(s' & r' & st & _ & E' & _) | (Hc & _)];
      [discriminate E' |].
    rewrite Et in E.
    apply split_skip with (f := is_printf) in E;
      [| eapply never_cls; [exact Hc | cls_side] | reflexivity].
    destruct E as (m & -> & E).
    destruct (@launch_printf _ _ _ _ _ _ _ _ Hp E)
      as [Hu | (pid & Hs & Np & Hfl & Hpid)].
    + left. right. exact Hu.
    + right. exists pid. split; [exact Hs |].
      split; [apply never_app; split;
              [eapply never_cls; [exact Hc | cls_side] | exact Np] |].
      split; [exact Hfl |].
      destruct Hpid as [(t1' & -> & N0 & N1 & Nf) | (t1' & -> & Nf)].
      * left. exists (run_trace (run os (main_setup inv) w) ++ t1').
        rewrite app_assoc. repeat split; try assumption.
        apply never_app. split; [| exact Nf].
        eapply never_cls; [exact Hc | cls_side].
      * right. exists (run_trace (run os (main_setup inv) w) ++ t1').
        split; [rewrite app_assoc; reflexivity |].
        apply never_app. split; [| exact Nf].
        eapply never_cls; [exact Hc | cls_side].
Qed.

Lemma pid_report_is_framed_witness :
  let os := os_of (override all_ok fork_parent) in
  exists t1 t2,
    run_trace (run os (main inv_pidns) tt)
    = t1 ++ EPrintf (String (ascii_of_nat 1) ("101" ++ nl)) 5 :: t2 /\
    ((String (ascii_of_nat 1) ("101" ++ nl) = (VERSION ++ nl)%string \/
      String (ascii_of_nat 1) ("101" ++ nl) = usage_text (argv0 inv_pidns)) \/
     exists pid,
       String (ascii_of_nat 1) ("101" ++ nl)
       = String (ascii_of_nat 1) (fmt_d pid ++ String (ascii_of_nat 10) "") /\
       never is_printf t1 /\
       (exists r' t2', t2 = EFflush_stdout r' :: t2') /\
       ((exists t1', t1 = t1' ++ [EFork pid] /\ pid <> 0 /\ pid <> -1 /\
                     never is_fork t1') \/
        (exists t1', t1 = t1' ++ [EGetpid pid] /\ never is_fork t1))).
Proof.
  intros os.
  exists [EUnshare (Z.lor 0 (Z.lor CLONE_NEWPID CLONE_NEWNS)) 0;
          ESetpgid 0 0 0; EFork 101].
  exists [EFflush_stdout 0; EWait (101, 0)].
  assert (E : run_trace (run os (main inv_pidns) tt)
              = [EUnshare (Z.lor 0 (Z.lor CLONE_NEWPID CLONE_NEWNS)) 0;
                 ESetpgid 0 0 0; EFork 101]
                ++ EPrintf (String (ascii_of_nat 1) ("101" ++ nl)) 5
                     :: [EFflush_stdout 0; EWait (101, 0)])
    by (vm_compute; reflexivity).
  split; [exact E |].
  exact (@pid_report_is_framed unit os tt inv_pidns _ _ _ _ E).
Defined.

(** ** The decimal text of a pid *)

Lemma atoi_digits_acc (d : Decimal.uint) :
  forall acc : positive,
    atoi_digits (Z.pos acc) (NilEmpty.string_of_uint d)
    = Z.pos (Pos.of_uint_acc d acc).
Proof.
  induction d; intros acc; cbn [NilEmpty.string_of_uint Pos.of_uint_acc];
    try reflexivity;
    cbn [atoi_digits];
    match goal with
    | |- context [digit_val ?c] =>
        let v := eval vm_compute in (digit_val c) in
        change (digit_val c) with v
    end;
    cbv iota; rewrite <- IHd; f_equal; lia.
Qed.

Lemma atoi_digits_uint (d : Decimal.uint) :
  atoi_digits 0 (NilEmpty.string_of_uint d) = Z.of_N (Pos.of_uint d).
Proof.
  induction d; cbn [NilEmpty.string_of_uint Pos.of_uint];
    try reflexivity;
    cbn [atoi_digits];
    match goal with
    | |- context [digit_val ?c] =>
        let v := eval vm_compute in (digit_val c) in
        change (digit_val c) with v
    end;
    cbv iota; [exact IHd | ..];
    cbn [Z.of_N]; rewrite <- atoi_digits_acc; reflexivity.
Qed.

Lemma decimal_value_uint (d : Decimal.uint) :
  decimal_value (NilEmpty.string_of_uint d) = Z.of_N (Pos.of_uint d).
Proof.
  rewrite <- atoi_digits_uint. destruct d; reflexivity.
Qed.

Lemma all_digits_uint (d : Decimal.uint) :
  all_digits (NilEmpty.string_of_uint d) = true.
Proof.
  induction d; cbn [NilEmpty.string_of_uint all_digits]; try reflexivity;
    match goal with
    | |- context [digit_val ?c] =>
        let v := eval vm_compute in (digit_val c) in
        change (digit_val c) with v
    end;
    cbv iota; exact IHd.
Qed.

(** The text that [%d] prints spells the number printed. *)
Lemma decimal_value_fmt_d (z : Z) : decimal_value (fmt_d z) = z.
Proof.
  unfold fmt_d. destruct z as [| p | p]; [reflexivity | |];
    cbn [Z.to_int NilZero.string_of_int NilZero.string_of_uint];
    pose proof (DecimalPos.Unsigned.of_to p) as Hp;
    destruct (Pos.to_uint p); try discriminate Hp;
    match goal with
    | |- context [NilZero.string_of_uint ?d] =>
        change (NilZero.string_of_uint d) with (NilEmpty.string_of_uint d)
    end.
  all: try (rewrite decimal_value_uint, Hp; reflexivity).
  all: unfold decimal_value; cbn [atoi_skip];
    change (isspace "-") with false; cbv iota;
    change (("-" =? "-")%char) with true; cbv iota;
    rewrite atoi_digits_uint, Hp; reflexivity.
Qed.

Lemma to_int_small (z : Z) : INT_MIN <= z <= INT_MAX -> to_int z = z.
Proof.
  unfold to_int, INT_MIN, INT_MAX. intros Hz.
  rewrite Z.mod_small; lia.
Qed.

(** What [%d] prints for an int is read back by atoi; for a pid, which
    is not negative, it is made of digits only. *)
Lemma atoi_fmt_d (z : Z) : INT_MIN <= z <= INT_MAX -> atoi (fmt_d z) = z.
Proof.
  intros Hz. unfold atoi, strtol. rewrite decimal_value_fmt_d.
  unfold INT_MIN, INT_MAX, LONG_MIN, LONG_MAX in *.
  rewrite Z.min_r, Z.max_r by lia. apply to_int_small.
  unfold INT_MIN, INT_MAX. lia.
Qed.

Lemma fmt_d_digits (z : Z) : 0 <= z -> all_digits (fmt_d z) = true.
Proof.
  unfold fmt_d. destruct z as [| p | p]; intros Hz; [reflexivity | | lia].
  cbn [Z.to_int NilZero.string_of_int].
  destruct (Pos.to_uint p); try reflexivity;
    match goal with
    | |- context [NilZero.string_of_uint ?d] =>
        change (NilZero.string_of_uint d) with (NilEmpty.string_of_uint d)
    end;
    apply all_digits_uint.
Qed.

(** ** Plan B always ends in -1 *)

Lemma emits_attachns_only (pid : Z) (ns : namespace) :
  emits cls_attachns (attachns pid ns).
Proof. unfold attachns. emits_tac. Qed.

(** A negative value from attachns is what open or setns returned. *)
Lemma attachns_negative (pid : Z) (ns : namespace) (t : trace) (ret : Z) :
  exec (attachns pid ns) t (Val ret) -> ret < 0 -> 0 <= type ns ->
  (exists path oflag, In (EOpen path oflag ret) t) \/
  (exists fd nstype, In (ESetns fd nstype ret) t).
Proof.
  unfold attachns. simpl.
  intros (stat1 & t1 & -> & stat2 & t2 & -> & H) Hneg Hty.
  destruct (same_ns stat1 stat2); simpl in H.
  { destruct H as [_ E]. injection E as E. lia. }
  destruct H as (nsid & t3 & -> & H).
  destruct (Z.ltb_spec nsid 0) as [Hn | Hn]; simpl in H.
  - destruct H as (u & t4 & -> & e & t5 & -> & _ & E). injection E as ->.
    left. exists (ns_path pid ns), O_RDONLY. simpl. auto.
  - destruct H as (err & t4 & -> & H).
    destruct (Z.ltb_spec err 0) as [He | He]; simpl in H.
    + destruct H as (u & t5 & -> & e & t6 & -> & _ & E). injection E as ->.
      right. exists nsid, 0. simpl. auto.
    + destruct H as [_ E]. injection E as E. lia.
Qed.

Lemma attach_loop_all_ones (pid : Z) (nss : list namespace) :
  forall (t : trace) (f : Z),
    exec (attach_loop pid nss (-1)) t (Val (Some f)) -> f = -1.
Proof.
  induction nss as [| ns nss IH]; intros t f H; cbn [attach_loop] in H.
  - destruct H as [_ E]. injection E as <-. reflexivity.
  - apply exec_bind_inv in H.
    destruct H as [(o & _ & E) | (ret & t1 & t2 & _ & H & _)];
      [discriminate E |].
    assert (Hl : Z.lor (-1) ret = -1) by (destruct ret; reflexivity).
    rewrite Hl in H.
    destruct (ret <? 0); [destruct (type ns =? CLONE_NEWNS) |].
    + apply exec_bind_inv in H.
      destruct H as [(o & _ & E) | (r & t3 & t4 & _ & H & _)];
        [discriminate E |].
      destruct (r <? 0).
      * apply exec_bind_inv in H.
        destruct H as [(o & _ & E) | (u & t5 & t6 & _ & (_ & E) & _)];
          discriminate E.
      * eapply IH. exact H.
    + destruct H as [_ E]. discriminate E.
    + eapply IH. exact H.
Qed.

Lemma attach_loop_chroot (pid : Z) (nss : list namespace) :
  forall (flag : Z) (t : trace) (f : Z) (path : string) (c : Z),
    Forall (fun ns => 0 <= type ns) nss ->
    exec (attach_loop pid nss flag) t (Val (Some f)) ->
    (forall p o r, In (EOpen p o r) t -> r < 0 -> r = -1) ->
    (forall fd ty r, In (ESetns fd ty r) t -> r < 0 -> r = -1) ->
    In (EChroot path c) t ->
    f = -1.
Proof.
  induction nss as [| ns nss IH]; intros flag t f path c Hty H Ho Hs Hin;
    cbn [attach_loop] in H.
  - destruct H as [-> _]. destruct Hin.
  - apply Forall_cons_iff in Hty. destruct Hty as [Hty0 Hty].
    apply exec_bind_inv in H.
    destruct H as [(o & _ & E) | (ret & t1 & t2 & H1 & H & ->)];
      [discriminate E |].
    assert (Hc1 : never is_chroot t1)
      by (eapply emits_never; [apply emits_attachns_only | cls_side
                              | exact H1]).
    destruct (Z.ltb_spec ret 0) as [Hneg | Hpos].
    + assert (Hret : ret = -1).
      { destruct (attachns_negative H1 Hneg Hty0)
          as [(p & o & Hi) | (fd & ty & Hi)].
        - apply (Ho p o); [apply in_or_app; auto | assumption].
        - apply (Hs fd ty); [apply in_or_app; auto | assumption]. }
      subst ret. rewrite Z.lor_m1_r in H.
      destruct (type ns =? CLONE_NEWNS);
        [| destruct H as [_ E]; discriminate E].
      apply exec_bind_inv in H.
      destruct H as [(o & _ & E) | (r & t3 & t4 & _ & H & _)];
        [discriminate E |].
      destruct (r <? 0).
      * apply exec_bind_inv in H.
        destruct H as [(o & _ & E) | (u & t5 & t6 & _ & (_ & E) & _)];
          discriminate E.
      * eapply attach_loop_all_ones. exact H.
    + apply in_app_or in Hin. destruct Hin as [Hin | Hin].
      { eapply never_In in Hc1; [| exact Hin]. discriminate Hc1. }
      eapply IH; try eassumption.
      * intros p o r Hi. apply (Ho p o). apply in_or_app. auto.
      * intros fd ty r Hi. apply (Hs fd ty). apply in_or_app. auto.
Qed.

(** The loop of attach never ends the process. *)
Lemma attach_loop_returns (pid : Z) (nss : list namespace) :
  forall flag, halts_in (fun _ => False) (attach_loop pid nss flag).
Proof.
  induction nss as [| ns nss IH]; intros flag; cbn [attach_loop];
    unfold attachns; halts_tac; try apply IH.
Qed.

(** X17: whenever attach takes Plan B, with open and setns returning
    -1 when they fail as they do on Linux, attach returns -1: also when
    the chroot and the chdir succeed. *)
Lemma attach_fallback_always_fails (W : Type) (os : handler W) (w : W)
  (pid : Z) (path : string) (c : Z) :
  (forall p o r, In (EOpen p o r) (run_trace (run os (attach pid) w)) ->
                 r < 0 -> r = -1) ->
  (forall fd ty r, In (ESetns fd ty r) (run_trace (run os (attach pid) w)) ->
                   r < 0 -> r = -1) ->
  In (EChroot path c) (run_trace (run os (attach pid) w)) ->
  run_result (run os (attach pid) w) = Val (-1).
Proof.
  intros Ho Hs Hin. pose proof (run_exec os (attach pid) w) as H.
  set (t := run_trace (run os (attach pid) w)) in *. clearbody t.
  set (res := run_result (run os (attach pid) w)) in *. clearbody res.
  unfold attach in H. apply exec_bind_inv in H.
  destruct H as [(o & H & _) | (cwd & tc & t0 & Hc & H & ->)];
    [destruct H as (r & t' & _ & _ & E); discriminate E |].
  destruct Hc as (r & t' & -> & -> & E). injection E as E. subst r.
  cbn [ev app] in *. apply exec_bind_inv in H.
  destruct H as [(o & H & ->) | (r & t1 & t2 & H1 & H2 & ->)].
  - exfalso. eapply halts_in_exec in H; [exact H |].
    apply attach_loop_returns.
  - destruct r as [flag |]; [| destruct H2 as [_ ->]; reflexivity].
    assert (Hflag : flag = -1).
    { assert (Hin' : In (EChroot path c) t1).
      { destruct Hin as [E | Hin]; [discriminate E |].
        apply in_app_or in Hin. destruct Hin as [Hin | Hin]; [assumption |].
        exfalso.
        assert (Hcls : emits cls_namespaces
                         (c0 <- call (Chdir cwd);;
                          (if negb (c0 =? 0)
                           then call (Perror cwd);; Ret (-1)
                           else Ret flag)))
          by emits_tac.
        eapply emits_exec in Hcls; [| exact H2].
        simpl in H2. destruct H2 as (c0 & t3 & -> & H2).
        destruct (negb (c0 =? 0)); simpl in H2.
        - destruct H2 as (u & t4 & -> & -> & _). in_cases.
        - destruct H2 as [-> _]. in_cases. }
      eapply attach_loop_chroot; try eassumption.
      - unfold namespaces. repeat constructor; vm_compute; discriminate.
      - intros p o r Hi. apply (Ho p o). right. apply in_or_app. auto.
      - intros fd ty r Hi. apply (Hs fd ty). right. apply in_or_app. auto. }
    subst flag. simpl in H2. destruct H2 as (c0 & t3 & _ & H2).
    destruct (negb (c0 =? 0)); simpl in H2.
    + destruct H2 as (u & t4 & _ & _ & ->). reflexivity.
    + destruct H2 as [_ ->]. reflexivity.
Qed.

(** * More of the program *)

(** ** Options *)

Lemma has_flag_lor (a b c : Z) :
  has_flag (Z.lor a b) c = has_flag a c || has_flag b c.
Proof.
  unfold has_flag, truthy. rewrite Z.land_lor_distr_l.
  destruct (Z.eqb_spec (Z.land a c) 0) as [Ea | Ea];
    destruct (Z.eqb_spec (Z.land b c) 0) as [Eb | Eb];
    destruct (Z.eqb_spec (Z.lor (Z.land a c) (Z.land b c)) 0) as [E | E];
    try reflexivity; exfalso.
  - apply E. rewrite Ea, Eb. reflexivity.
  - apply Z.lor_eq_0_iff in E. tauto.
  - apply Z.lor_eq_0_iff in E. tauto.
  - apply Z.lor_eq_0_iff in E. tauto.
Qed.

Lemma flags_built_0 : flags_built 0.
Proof. repeat split; intros H; discriminate H. Qed.

(** Adding bits [x] that are namespace bits and, when they hold the
    network or PID bit, hold the mount bit as well. *)
Lemma flags_built_lor (f x : Z) :
  flags_built f ->
  Z.lor x CLONE_ALL = CLONE_ALL ->
  (has_flag x CLONE_NEWNET = true -> has_flag x CLONE_NEWNS = true) ->
  (has_flag x CLONE_NEWPID = true -> has_flag x CLONE_NEWNS = true) ->
  flags_built (Z.lor f x).
Proof.
  intros (Hall & Hnet & Hpid) Hx Hxn Hxp. repeat split.
  - rewrite <- Z.lor_assoc, Hx. exact Hall.
  - rewrite !has_flag_lor. intros H. apply orb_true_iff in H.
    apply orb_true_iff. destruct H as [H | H]; auto.
  - rewrite !has_flag_lor. intros H. apply orb_true_iff in H.
    apply orb_true_iff. destruct H as [H | H]; auto.
Qed.

Ltac switch_cases :=
  repeat match goal with
         | |- exec (if (?c =? ?x)%char then _ else _) _ _ -> _ =>
             let E := fresh "E" in destruct (c =? x)%char eqn:E
         end.

Ltac plain_tac :=
  unfold plain_option; cbn [existsb];
  repeat match goal with
         | E : (_ =? _)%char = _ |- _ => rewrite E; clear E
         end;
  reflexivity.

(** An option after which main goes on: it makes no call, is one of the
    ten plain letters, and keeps the flags well built. *)
Lemma main_switch_val (inv : invocation) (o : getopt_step) (l l' : locals)
  (t : trace) :
  exec (main_switch inv o l) t (Val l') ->
  t = [] /\ plain_option (go_c o) = true /\
  (flags_built (flags l) -> flags_built (flags l')).
Proof.
  unfold main_switch, atoi_ptr, usage. switch_cases;
    try (simpl; intros [-> E']; injection E' as ->;
         split; [reflexivity |]; split; [plain_tac |]; cbn [flags set_flags
           set_closefds set_detachtty set_printpid set_cgrouparg];
         try (intros H; exact H);
         intros H; apply flags_built_lor; try assumption;
         try reflexivity;
         let Hx := fresh in intros Hx; first [reflexivity | discriminate Hx]).
  - destruct (go_optarg o); simpl; intros [-> E']; [| discriminate E'].
    injection E' as ->. split; [reflexivity |]. split; [plain_tac |].
    intros H; exact H.
  - destruct (go_optarg o); simpl; intros [-> E']; [| discriminate E'].
    injection E' as ->. split; [reflexivity |]. split; [plain_tac |].
    intros H; exact H.
  - simpl. intros (r & t' & _ & _ & E'). discriminate E'.
  - simpl. intros (r & t' & _ & _ & E'). discriminate E'.
  - simpl. intros (r & t' & _ & _ & E'). discriminate E'.
Qed.

(** An option that ends the process: -v, -h or an unknown letter, after
    one text; or -a or -r with a null optarg. *)
Lemma main_switch_halt (inv : invocation) (o : getopt_step) (l : locals)
  (t : trace) (out : outcome) :
  exec (main_switch inv o l) t (Halt out) ->
  (plain_option (go_c o) = false /\
   exists s r, t = [EPrintf s r] /\
     ((s = (VERSION ++ nl)%string /\ out = Exited 0 /\ go_c o = "v"%char) \/
      (s = usage_text (argv0 inv) /\ out = Exited 0 /\ go_c o = "h"%char) \/
      (s = usage_text (argv0 inv) /\ out = Exited 1))) \/
  (t = [] /\ out = Undefined /\ go_optarg o = None /\
   (go_c o = "a"%char \/ go_c o = "r"%char)).
Proof.
  unfold main_switch, atoi_ptr, usage. switch_cases;
    try (simpl; intros [_ E']; discriminate E').
  - destruct (go_optarg o); simpl; intros [-> E']; [discriminate E' |].
    injection E' as <-. right. apply Ascii.eqb_eq in E5. auto.
  - destruct (go_optarg o); simpl; intros [-> E']; [discriminate E' |].
    injection E' as <-. right. apply Ascii.eqb_eq in E7. auto.
  - simpl. intros (r & t' & -> & -> & E'). injection E' as <-.
    apply Ascii.eqb_eq in E9. left. split; [plain_tac |].
    exists (VERSION ++ nl)%string, r. auto.
  - simpl. intros (r & t' & -> & -> & E'). injection E' as <-.
    apply Ascii.eqb_eq in E10. left. split; [plain_tac |].
    exists (usage_text (argv0 inv)), r. auto 6.
  - simpl. intros (r & t' & -> & -> & E'). injection E' as <-.
    left. split; [plain_tac |].
    exists (usage_text (argv0 inv)), r. auto 6.
Qed.

Lemma main_getopt_val (inv : invocation) (steps : list getopt_step) :
  forall (l l' : locals) (t : trace),
    exec (main_getopt inv steps l) t (Val l') ->
    t = [] /\
    Forall (fun o => plain_option (go_c o) = true) steps /\
    (flags_built (flags l) -> flags_built (flags l')).
Proof.
  induction steps as [| o steps IH]; intros l l' t H; cbn [main_getopt] in H.
  - destruct H as [-> E]. injection E as ->. auto.
  - apply exec_bind_inv in H.
    destruct H as [(out & _ & E) | (l1 & t1 & t2 & H1 & H2 & ->)];
      [discriminate E |].
    apply main_switch_val in H1. destruct H1 as (-> & Hp & Hf).
    apply IH in H2. destruct H2 as (-> & Hall & Hf').
    split; [reflexivity |]. split; [constructor; assumption | auto].
Qed.

Lemma main_getopt_halt (inv : invocation) (steps : list getopt_step) :
  forall (l : locals) (t : trace) (out : outcome),
    exec (main_getopt inv steps l) t (Halt out) ->
    exists o l1, In o steps /\ exec (main_switch inv o l1) t (Halt out).
Proof.
  induction steps as [| o steps IH]; intros l t out H; cbn [main_getopt] in H.
  - destruct H as [_ E]. discriminate E.
  - apply exec_bind_inv in H.
    destruct H as [(out' & H & E) | (l1 & t1 & t2 & H1 & H2 & ->)].
    + injection E as ->. exists o, l. simpl. auto.
    + apply main_switch_val in H1. destruct H1 as (-> & _).
      apply IH in H2. destruct H2 as (o' & l2 & Hin & H2).
      exists o', l2. simpl. auto.
Qed.

Lemma main_closefds_val (l : locals) (t : trace) (res : result unit) :
  exec (main_closefds l) t res -> res = Val tt.
Proof.
  assert (Hc : forall k fd t res, exec (close_down k fd) t res -> res = Val tt).
  { induction k as [| k IH]; intros fd t0 res0; cbn [close_down]; simpl.
    - intros [_ ->]. reflexivity.
    - intros (r & t' & _ & H). eapply IH. exact H. }
  unfold main_closefds. destruct (truthy (closefds l)); simpl.
  - intros (n & t' & _ & H). eapply Hc. exact H.
  - intros [_ ->]. reflexivity.
Qed.

(** The setup, part by part: the options end the process, or they give
    the locals without any call, the descriptors are closed, and the
    namespaces are entered or created. *)
Lemma main_setup_parts (inv : invocation) (t : trace) (res : result locals) :
  exec (main_setup inv) t res ->
  (exists out,
      res = Halt out /\
      exec (main_getopt inv (inv_getopt inv) init_locals) t (Halt out)) \/
  (exists l tc tn,
      exec (main_getopt inv (inv_getopt inv) init_locals) [] (Val l) /\
      exec (main_closefds l) tc (Val tt) /\
      exec (main_namespaces l) tn res /\
      t = tc ++ tn).
Proof.
  unfold main_setup. intros H. apply exec_bind_inv in H.
  destruct H as [(out & H & ->) | (l & t1 & t2 & H1 & H2 & ->)].
  - left. exists out. auto.
  - right. pose proof H1 as H1'. apply main_getopt_val in H1'.
    destruct H1' as (-> & _).
    apply exec_bind_inv in H2.
    destruct H2 as [(out & H & _) | ([] & tc & tn & Hc & Hn & ->)].
    + apply main_closefds_val in H. discriminate H.
    + exists l, tc, tn. auto.
Qed.

(** The same for a run under a handler. *)
Lemma main_setup_run (W : Type) (os : handler W) (w : W) (inv : invocation) :
  (exists out,
      run_result (run os (main_setup inv) w) = Halt out /\
      exec (main_getopt inv (inv_getopt inv) init_locals)
        (run_trace (run os (main_setup inv) w)) (Halt out)) \/
  (exists l tc tn,
      exec (main_getopt inv (inv_getopt inv) init_locals) [] (Val l) /\
      exec (main_closefds l) tc (Val tt) /\
      exec (main_namespaces l) tn (run_result (run os (main_setup inv) w)) /\
      run_trace (run os (main_setup inv) w) = tc ++ tn).
Proof. apply main_setup_parts, run_exec. Qed.

(** A whole run of main: the options end it, or the descriptors are
    closed with trace [tc], the namespaces are handled with trace [tn],
    and, unless that ended the process, the launch follows with trace
    [tl]. *)
Lemma main_run_shape (W : Type) (os : handler W) (w : W) (inv : invocation) :
  (exists out,
      run_result (run os (main inv) w) = Halt out /\
      exec (main_getopt inv (inv_getopt inv) init_locals)
        (run_trace (run os (main inv) w)) (Halt out)) \/
  (exists l tc tn tl rn,
      exec (main_getopt inv (inv_getopt inv) init_locals) [] (Val l) /\
      exec (main_closefds l) tc (Val tt) /\
      exec (main_namespaces l) tn rn /\
      run_trace (run os (main inv) w) = tc ++ tn ++ tl /\
      ((exists out, rn = Halt out /\ tl = [] /\
                    run_result (run os (main inv) w) = Halt out) \/
       (exists l0, rn = Val l0 /\
                   run_result (run os (main_setup inv) w) = Val l0 /\
                   launch_parts inv l0 tl (run_result (run os (main inv) w))))).
Proof.
  destruct (main_run_cases os w inv)
    as [(o & E0 & Er & Et) | (l0 & t1 & E0 & Et & Hp)];
    destruct (main_setup_run os w inv)
      as [(out & E1 & H1) | (l & tc & tn & Hg & Hc & Hn & Es)].
  - left. exists out. rewrite Et, Er. rewrite E0 in E1. injection E1 as <-.
    auto.
  - right. exists l, tc, tn, [], (Halt o). rewrite E0 in Hn.
    repeat split; try assumption.
    + rewrite Et, Es, app_nil_r. reflexivity.
    + left. exists o. auto.
  - rewrite E0 in E1. discriminate E1.
  - right. exists l, tc, tn, t1, (Val l0). rewrite E0 in Hn.
    repeat split; try assumption.
    + rewrite Et, Es, app_assoc. reflexivity.
    + right. exists l0. auto.
Qed.

Lemma emits_close_down_only (turns : nat) :
  forall fd, emits cls_closefds (close_down turns fd).
Proof.
  induction turns as [| turns IH]; intros fd; cbn [close_down];
    emits_tac; apply IH.
Qed.

Lemma emits_main_closefds_only (l : locals) :
  emits cls_closefds (main_closefds l).
Proof.
  unfold main_closefds. emits_tac. apply emits_close_down_only.
Qed.

Lemma emits_attach_loop_only (pid : Z) (nss : list namespace) :
  forall flag, emits cls_attach (attach_loop pid nss flag).
Proof.
  induction nss as [| ns nss IH]; intros flag; cbn [attach_loop];
    unfold attachns; emits_tac; apply IH.
Qed.

Lemma emits_attach_only (pid : Z) : emits cls_attach (attach pid).
Proof.
  unfold attach. emits_tac. apply emits_attach_loop_only.
Qed.

(** The namespace part in attach mode makes the calls of attach only. *)
Lemma main_namespaces_attach (l : locals) (t : trace) (res : result locals) :
  attachpid l <> 0 -> exec (main_namespaces l) t res ->
  Forall (fun e => cls_attach e = true) t /\
  exists t' ra, exec (attach (attachpid l)) t' ra /\ t = t' /\
    match ra with
    | Val f => if f =? -1 then res = Halt (Exited 1)
               else res = Val (set_flags l f)
    | Halt o => res = Halt o
    end.
Proof.
  intros Ha. unfold main_namespaces.
  rewrite (proj2 (truthy_true _) Ha). intros H.
  split.
  - eapply emits_exec; [| exact H]. emits_tac. apply emits_attach_only.
  - apply exec_bind_inv in H.
    destruct H as [(o & H & ->) | (f & t1 & t2 & H1 & H2 & ->)].
    + exists t, (Halt o). auto.
    + exists t1, (Val f). split; [assumption |].
      destruct (f =? -1); simpl in H2; destruct H2 as [-> ->];
        rewrite app_nil_r; auto.
Qed.

(** ** Closing the descriptors *)

Lemma closed_fds_app (t1 t2 : trace) :
  closed_fds (t1 ++ t2) = closed_fds t1 ++ closed_fds t2.
Proof.
  induction t1 as [| e t1 IH]; [reflexivity |].
  destruct e; simpl; rewrite IH; reflexivity.
Qed.

Lemma closed_fds_never (t : trace) : never is_close t -> closed_fds t = [].
Proof.
  induction 1 as [| e t He _ IH]; [reflexivity |].
  destruct e; simpl; try exact IH. discriminate He.
Qed.

Lemma closed_fds_In (t : trace) (fd r : Z) :
  In (EClose fd r) t -> In fd (closed_fds t).
Proof.
  induction t as [| e t IH]; [intros [] |].
  intros [-> | H]; [simpl; auto |].
  destruct e; simpl; auto.
Qed.

Lemma countdown_In (k : nat) :
  forall n fd, In fd (countdown k n) -> n - Z.of_nat k < fd <= n.
Proof.
  induction k as [| k IH]; intros n fd; cbn [countdown]; [intros [] |].
  intros [<- | H]; [lia |]. apply IH in H. lia.
Qed.

Lemma close_down_exec (turns : nat) :
  forall (fd : Z) (t : trace) (res : result unit),
    exec (close_down turns fd) t res ->
    closed_fds t = countdown turns fd /\
    Forall (fun e => is_close e = true) t.
Proof.
  induction turns as [| turns IH]; intros fd t res; cbn [close_down]; simpl.
  - intros [-> _]. split; constructor.
  - intros (r & t' & -> & H). apply IH in H. destruct H as [Hc Hf].
    split; [simpl; f_equal; exact Hc | constructor; [reflexivity | exact Hf]].
Qed.

Lemma main_closefds_exec (l : locals) (t : trace) (res : result unit) :
  exec (main_closefds l) t res ->
  (closefds l = 0 /\ t = []) \/
  (closefds l <> 0 /\ exists n t',
     t = EGetdtablesize n :: t' /\
     closed_fds t' = countdown (Z.to_nat (n - 2)) n /\
     Forall (fun e => is_close e = true) t').
Proof.
  unfold main_closefds. destruct (truthy (closefds l)) eqn:Hc.
  - apply truthy_true in Hc. simpl. intros (n & t' & -> & H). right.
    split; [assumption |]. exists n, t'. split; [reflexivity |].
    eapply close_down_exec. exact H.
  - apply truthy_false in Hc. simpl. intros [-> _]. auto.
Qed.

(** The namespace part and the launch never close a descriptor nor ask
    for the table size. *)
Lemma after_closefds_never (inv : invocation) (l : locals) (tn tl : trace)
  (rn : result locals) (res : result Z) (f : event -> bool) :
  (forall e, cls_closefds e = true -> f e = true) ->
  (forall e, f e = true -> cls_closefds e = true) ->
  exec (main_namespaces l) tn rn ->
  (tl = [] \/ exists l0, launch_parts inv l0 tl res) ->
  never f (tn ++ tl).
Proof.
  intros _ Hf Hn Hl. apply never_app. split.
  - destruct (Z.eq_dec (attachpid l) 0) as [Ha | Ha].
    + apply main_namespaces_exec in Hn.
      destruct Hn as [(Ha' & _) | (_ & r & [(_ & -> & _) | (_ & -> & _)])];
        [contradiction | |];
        repeat constructor;
        match goal with
        | |- f ?e = false =>
            destruct (f e) eqn:E; [apply Hf in E; discriminate E | reflexivity]
        end.
    + destruct (@main_namespaces_attach l tn rn Ha Hn) as [Hc _].
      eapply never_cls; [exact Hc |]. intros e He.
      destruct (f e) eqn:E; [| reflexivity].
      apply Hf in E. destruct e; discriminate.
  - destruct Hl as [-> | (l0 & Hp)]; [constructor |].
    apply launch_cls in Hp. eapply never_cls; [exact Hp |]. intros e He.
    destruct (f e) eqn:E; [| reflexivity].
    apply Hf in E. destruct e; discriminate.
Qed.

(** X1: closing the descriptors. Every close of a run of main is on a
    descriptor above 2, so stdin, stdout and stderr stay open; the
    descriptors closed are, in this order, the table size n that
    getdtablesize returned, n - 1, and so on down to 3 (none when n is at
    most 2); and all of this comes first: nothing is closed once another
    call has been made. *)
Theorem closefds_spares_stdio (W : Type) (os : handler W) (w : W)
  (inv : invocation) :
  (forall fd r, In (EClose fd r) (run_trace (run os (main inv) w)) -> 2 < fd) /\
  (forall n, In (EGetdtablesize n) (run_trace (run os (main inv) w)) ->
     closed_fds (run_trace (run os (main inv) w))
     = countdown (Z.to_nat (n - 2)) n) /\
  exists tc rest,
    run_trace (run os (main inv) w) = tc ++ rest /\
    Forall (fun e => cls_closefds e = true) tc /\
    never cls_closefds rest.
Proof.
  destruct (main_run_shape os w inv)
    as [(out & Er & H) | (l & tc & tn & tl & rn & Hg & Hc & Hn & Et & Hl)].
  - assert (Hcls : never cls_closefds (run_trace (run os (main inv) w))).
    { apply main_getopt_exec in H.
      destruct H as [(-> & _) | [(-> & _) | (s & r & st & -> & _)]];
        repeat constructor. }
    split; [| split].
    + intros fd r Hin. eapply never_In in Hcls; [| exact Hin].
      discriminate Hcls.
    + intros n Hin. eapply never_In in Hcls; [| exact Hin].
      discriminate Hcls.
    + exists [], (run_trace (run os (main inv) w)). auto.
  - assert (Hrest : never cls_closefds (tn ++ tl)).
    { eapply after_closefds_never with (res := run_result (run os (main inv) w));
        [auto | auto | exact Hn |].
      destruct Hl as [(out & _ & -> & _) | (l0 & _ & _ & Hp)]; eauto. }
    assert (Hnc : never is_close (tn ++ tl)).
    { eapply Forall_impl; [| exact Hrest]. intros e He.
      destruct e; try reflexivity. discriminate He. }
    rewrite Et. pose proof Hc as Hc'. apply main_closefds_exec in Hc'.
    destruct Hc' as [(_ & ->) | (_ & n & t' & -> & Hcd & Hcl)].
    + split; [| split].
      * intros fd r Hin. simpl in Hin. eapply never_In in Hnc; [| exact Hin].
        discriminate Hnc.
      * intros n Hin. simpl in Hin. eapply never_In in Hrest; [| exact Hin].
        discriminate Hrest.
      * exists [], (tn ++ tl). auto.
    + assert (Hfds : closed_fds ((EGetdtablesize n :: t') ++ tn ++ tl)
                     = countdown (Z.to_nat (n - 2)) n).
      { rewrite closed_fds_app, (closed_fds_never Hnc), app_nil_r.
        simpl. exact Hcd. }
      split; [| split].
      * intros fd r Hin. apply closed_fds_In in Hin. rewrite Hfds in Hin.
        apply countdown_In in Hin. lia.
      * intros n' Hin. rewrite Hfds.
        destruct Hin as [E | Hin]; [injection E as ->; reflexivity |].
        apply in_app_or in Hin. destruct Hin as [Hin | Hin].
        -- rewrite Forall_forall in Hcl. apply Hcl in Hin. discriminate Hin.
        -- eapply never_In in Hrest; [| exact Hin]. discriminate Hrest.
      * exists (EGetdtablesize n :: t'), (tn ++ tl).
        split; [reflexivity |]. split; [| exact Hrest].
        constructor; [reflexivity |].
        eapply Forall_impl; [| exact Hcl]. intros e He.
        destruct e; try discriminate He. reflexivity.
Qed.

Lemma closefds_spares_stdio_witness :
  closed_fds (run_trace (run (os_of all_ok) (main inv_close_attach) tt))
  = [5; 4; 3].
Proof.
  destruct (@closefds_spares_stdio unit (os_of all_ok) tt inv_close_attach)
    as (_ & H & _).
  rewrite (H 5); [reflexivity |]. vm_compute. tauto.
Defined.

(** ** The parts of a whole run, with their classes *)

Lemma main_run_split (W : Type) (os : handler W) (w : W) (inv : invocation) :
  (exists out,
      run_result (run os (main inv) w) = Halt out /\
      exec (main_getopt inv (inv_getopt inv) init_locals)
           (run_trace (run os (main inv) w)) (Halt out)) \/
  (exists l tc tn tl rn,
      exec (main_getopt inv (inv_getopt inv) init_locals) [] (Val l) /\
      flags_built (flags l) /\
      Forall (fun e => cls_closefds e = true) tc /\
      exec (main_namespaces l) tn rn /\
      Forall (fun e => cls_launch e = true) tl /\
      run_trace (run os (main inv) w) = tc ++ tn ++ tl /\
      ((exists out, rn = Halt out /\ tl = [] /\
                    run_result (run os (main inv) w) = Halt out) \/
       (exists l0, rn = Val l0 /\
                   launch_parts inv l0 tl (run_result (run os (main inv) w))))).
Proof.
  destruct (main_run_shape os w inv)
    as [H | (l & tc & tn & tl & rn & Hg & Hc & Hn & Et & Hl)]; [left; exact H |].
  right. exists l, tc, tn, tl, rn.
  split; [exact Hg |].
  split; [apply main_getopt_val in Hg; apply Hg; apply flags_built_0 |].
  split; [eapply emits_exec; [apply emits_main_closefds_only | exact Hc] |].
  split; [exact Hn |].
  split.
  { destruct Hl as [(out & _ & -> & _) | (l0 & _ & _ & Hp)];
      [constructor | eapply launch_cls; exact Hp]. }
  split; [exact Et |].
  destruct Hl as [(out & -> & -> & Er) | (l0 & -> & _ & Hp)];
    [left; eauto | right; eauto].
Qed.

(** The namespace part: the calls of [attach], or one [unshare]. *)
Lemma main_namespaces_cases (l : locals) (t : trace) (res : result locals) :
  exec (main_namespaces l) t res ->
  (attachpid l <> 0 /\ Forall (fun e => cls_attach e = true) t) \/
  (attachpid l = 0 /\ exists r tail,
     t = EUnshare (flags l) r :: tail /\
     (tail = [] \/ tail = [EPerror (Some "unshare") tt])).
Proof.
  intros H. destruct (Z.eq_dec (attachpid l) 0) as [Ha | Ha].
  - right. split; [exact Ha |]. apply main_namespaces_exec in H.
    destruct H as [(Ha' & _) | (_ & r & [(_ & -> & _) | (_ & -> & _)])];
      [contradiction | |]; exists r; eauto.
  - left. split; [exact Ha |].
    destruct (@main_namespaces_attach l t res Ha H) as [Hc _]. exact Hc.
Qed.

Ltac not_in_class C Hin :=
  let X := fresh "X" in
  pose proof C as X; rewrite Forall_forall in X; apply X in Hin;
  discriminate Hin.

(** X2: creating namespaces. An [unshare] call of a run of main carries
    flags built by the options alone: nothing but the four namespace
    bits, and the mount namespace whenever the network or the PID
    namespace is asked for. It is the only [unshare] of the run, and
    such a run is not in attach mode: it makes no stat, open, setns,
    chroot or chdir call. *)
Theorem unshare_flags_and_modes (W : Type) (os : handler W) (w : W)
  (inv : invocation) (f r : Z) :
  In (EUnshare f r) (run_trace (run os (main inv) w)) ->
  flags_built f /\
  count is_unshare (run_trace (run os (main inv) w)) = 1%nat /\
  never (fun e => is_stat e || is_open e || is_setns e || is_chroot e
                  || is_chdir e) (run_trace (run os (main inv) w)).
Proof.
  intros Hin.
  destruct (main_run_split os w inv)
    as [(out & _ & H) | (l & tc & tn & tl & rn & _ & Hb & Cc & Hn & Cl & Et & _)].
  - apply main_getopt_exec in H.
    destruct H as [(E & _) | [(E & _) | (s & r0 & st & E & _)]];
      rewrite E in Hin; simpl in Hin; try contradiction.
    destruct Hin as [Hin | []]. discriminate Hin.
  - rewrite Et in *. apply in_app_or in Hin.
    destruct Hin as [Hin | Hin]; [not_in_class Cc Hin |].
    apply in_app_or in Hin.
    destruct Hin as [Hin | Hin]; [| not_in_class Cl Hin].
    apply main_namespaces_cases in Hn.
    destruct Hn as [(_ & Ca) | (_ & r0 & tail & -> & Ht)];
      [not_in_class Ca Hin |].
    assert (Ef : f = flags l).
    { destruct Ht as [-> | ->]; simpl in Hin;
        repeat (destruct Hin as [Hin | Hin]; try discriminate Hin;
                try contradiction);
        injection Hin as <- _; reflexivity. }
    subst f. split; [exact Hb |]. split.
    + rewrite !count_app.
      rewrite (@never_count is_unshare tc), (@never_count is_unshare tl);
        [| eapply never_cls; [exact Cl | cls_side]
         | eapply never_cls; [exact Cc | cls_side]].
      destruct Ht as [-> | ->]; reflexivity.
    + rewrite !never_app. split; [eapply never_cls; [exact Cc | cls_side] |].
      split; [| eapply never_cls; [exact Cl | cls_side]].
      destruct Ht as [-> | ->]; repeat constructor.
Qed.

Lemma unshare_flags_and_modes_witness :
  flags_built (Z.lor CLONE_NEWNET CLONE_NEWNS).
Proof.
  refine (proj1 (@unshare_flags_and_modes unit (os_of all_ok) tt
                   {| argv := ["mnexec"; "-n"; "ls"];
                      inv_getopt := [opt "n"];
                      optarg := None; optind := 2 |}
                   (Z.lor CLONE_NEWNET CLONE_NEWNS) 0 _)).
  vm_compute. auto.
Defined.

(** ** Options that end the run *)

Lemma main_switch_stop (inv : invocation) (o : getopt_step) (l : locals)
  (t : trace) (res : result locals) :
  plain_option (go_c o) = false ->
  exec (main_switch inv o l) t res ->
  exists r,
    t = [EPrintf (if (go_c o =? "v")%char then (VERSION ++ nl)%string
                  else usage_text (argv0 inv)) r] /\
    res = Halt (Exited (if (go_c o =? "v")%char || (go_c o =? "h")%char
                        then 0 else 1)).
Proof.
  intros Hp. unfold main_switch, atoi_ptr, usage. switch_cases;
    try (exfalso; revert Hp; unfold plain_option; cbn [existsb];
         repeat match goal with
                | E : (_ =? _)%char = _ |- _ => rewrite E; clear E
                end;
         discriminate).
  - simpl. intros (r & t' & -> & -> & ->). exists r. auto.
  - simpl. intros (r & t' & -> & -> & ->). exists r. auto.
  - simpl. intros (r & t' & -> & -> & ->). exists r. auto.
Qed.

Lemma main_getopt_stop (inv : invocation) (before : list getopt_step)
  (o : getopt_step) (after : list getopt_step) :
  forall (l : locals) (t : trace) (res : result locals),
    (forall s, In s before ->
       plain_option (go_c s) = true /\
       ((go_c s = "a"%char \/ go_c s = "r"%char) -> go_optarg s <> None)) ->
    plain_option (go_c o) = false ->
    exec (main_getopt inv (before ++ o :: after) l) t res ->
    exists l1, exec (main_switch inv o l1) t res.
Proof.
  induction before as [| s before IH]; intros l t res Hb Hp H;
    cbn [app main_getopt] in H; apply exec_bind_inv in H.
  - destruct H as [(out & H & ->) | (l1 & t1 & t2 & H1 & _)];
      [exists l; exact H |].
    apply main_switch_val in H1. destruct H1 as (_ & H1 & _). congruence.
  - destruct (Hb s (or_introl eq_refl)) as [Hs Harg].
    destruct H as [(out & H & ->) | (l1 & t1 & t2 & H1 & H2 & ->)].
    + apply main_switch_halt in H.
      destruct H as [(H & _) | (_ & _ & Hn & Hc)]; [congruence |].
      exfalso. exact (Harg Hc Hn).
    + apply main_switch_val in H1. destruct H1 as (-> & _).
      eapply IH; [| exact Hp | exact H2].
      intros s' Hin. apply Hb. right. exact Hin.
Qed.

(** X3: the first option that is not one of c d m n p P a g r u ends the
    run at once (the options before it being plain, and -a and -r having
    their argument, as getopt guarantees): main makes one call, the
    printf of the version line for -v and of the usage text otherwise,
    and exits with status 0 for -v and -h and 1 for any other letter.
    Nothing is closed and no namespace is touched, whatever options
    came before. *)
Theorem stopping_option_only_prints (W : Type) (os : handler W) (w : W)
  (inv : invocation) (before : list getopt_step) (o : getopt_step)
  (after : list getopt_step) :
  inv_getopt inv = before ++ o :: after ->
  (forall s, In s before ->
     plain_option (go_c s) = true /\
     ((go_c s = "a"%char \/ go_c s = "r"%char) -> go_optarg s <> None)) ->
  plain_option (go_c o) = false ->
  exists r,
    run_trace (run os (main inv) w)
    = [EPrintf (if (go_c o =? "v")%char then (VERSION ++ nl)%string
                else usage_text (argv0 inv)) r] /\
    run_result (run os (main inv) w)
    = Halt (Exited (if (go_c o =? "v")%char || (go_c o =? "h")%char
                    then 0 else 1)).
Proof.
  intros Ei Hb Hp.
  destruct (main_run_split os w inv)
    as [(out & Er & H) | (l & tc & tn & tl & rn & H & _)];
    rewrite Ei in H;
    destruct (@main_getopt_stop inv before o after _ _ _ Hb Hp H) as [l1 H1];
    destruct (@main_switch_stop inv o l1 _ _ Hp H1) as (r & Et & E).
  - exists r. split; [exact Et |]. rewrite Er. injection E as ->. reflexivity.
  - discriminate E.
Qed.

Lemma stopping_option_only_prints_witness :
  exists r,
    run_trace (run (os_of all_ok) (main inv_help) tt)
    = [EPrintf (usage_text "mnexec") r] /\
    run_result (run (os_of all_ok) (main inv_help) tt) = Halt (Exited 0).
Proof.
  apply (@stopping_option_only_prints unit (os_of all_ok) tt inv_help
           [opt "c"; opt "n"] (opt "h") []).
  - reflexivity.
  - intros s [<- | [<- | []]]; (split; [reflexivity |]);
      intros [H | H]; discriminate H.
  - reflexivity.
Defined.

(** ** The files the cgroup join opens *)





Lemma cgroup_invalid (gname : string) (t : trace) (res : result unit) :
  valid_path gname = false ->
  exec (cgroup gname) t res ->
  (exists pid r,
      t = [EGetpid pid; EEprintf ("invalid path: " ++ gname ++ nl)%string r]) /\
  res = Halt (Exited 1).
Proof.
  intros Hv H. unfold cgroup in H. apply exec_bind_inv in H.
  destruct H as [(o & H & _) | (pid & tc & t0 & Hc & H & ->)];
    [destruct H as (r & t' & _ & _ & E); discriminate E |].
  destruct Hc as (r & t' & -> & -> & E). injection E as E. subst r.
  apply exec_bind_inv in H.
  destruct H as [(o & H & ->) | ([] & tv & t1 & Hval & _)].
  - eapply validate_from_invalid in H; [| exact Hv].
    destruct H as [(r & ->) E]. injection E as ->.
    split; [exists pid, r |]; reflexivity.
  - eapply validate_from_invalid in Hval; [| exact Hv].
    destruct Hval as [_ E]. discriminate E.
Qed.


(** The group name comes from a -g option. *)
Lemma main_switch_cgrouparg (inv : invocation) (o : getopt_step)
  (l l' : locals) (t : trace) :
  exec (main_switch inv o l) t (Val l') ->
  cgrouparg l' = cgrouparg l /\ attachpid l' = attachpid l \/
  (go_c o = "g"%char /\ cgrouparg l' = go_optarg o /\
   attachpid l' = attachpid l) \/
  (go_c o = "a"%char /\ cgrouparg l' = cgrouparg l /\
   exists s, go_optarg o = Some s /\ attachpid l' = atoi s).
Proof.
  unfold main_switch, atoi_ptr, usage. switch_cases;
    try (simpl; intros [_ E']; injection E' as ->; left; split; reflexivity).
  - destruct (go_optarg o) eqn:Eo; simpl; intros [_ E']; [| discriminate E'].
    injection E' as ->. right. right. apply Ascii.eqb_eq in E5. eauto.
  - simpl; intros [_ E']; injection E' as ->. right. left.
    apply Ascii.eqb_eq in E6. auto.
  - destruct (go_optarg o); simpl; intros [_ E']; [| discriminate E'].
    injection E' as ->. left. split; reflexivity.
  - simpl. intros (r & t' & _ & _ & E'). discriminate E'.
  - simpl. intros (r & t' & _ & _ & E'). discriminate E'.
  - simpl. intros (r & t' & _ & _ & E'). discriminate E'.
Qed.


Lemma main_namespaces_keeps (l l0 : locals) (t : trace) :
  exec (main_namespaces l) t (Val l0) ->
  cgrouparg l0 = cgrouparg l /\ attachpid l0 = attachpid l /\
  rtprio l0 = rtprio l /\ printpid l0 = printpid l /\
  detachtty l0 = detachtty l.
Proof.
  intros H. apply main_namespaces_exec in H.
  destruct H as [(_ & _ & H) | (_ & r & [(_ & _ & E) | (_ & _ & E)])].
  - destruct (H l0 eq_refl) as (f & -> & _). repeat split.
  - discriminate E.
  - injection E as ->. repeat split.
Qed.

(** The launch around its cgroup part. *)
Lemma launch_cgroup_split (inv : invocation) (l0 : locals) (t : trace)
  (res : result Z) (e : event) :
  launch_parts inv l0 t res -> In e t -> is_stream e = true ->
  exists gname t0 tg t1 rg,
    cgrouparg l0 = Some gname /\ exec (cgroup gname) tg rg /\ In e tg /\
    t = t0 ++ tg ++ t1 /\ never is_fork t1.
Proof.
  intros (l & ts & tf & tp & tc & tm & tr & te & rf & rp & rc & rm & rr
          & Hs & Hf & Hp & Hc & Hm & Hr & He & ->) Hin Hk.
  pose proof (@main_session_exec _ _ _ Hs) as (l' & E & _ & _ & _ & Hcg & _).
  injection E as <-.
  pose_classes.
  assert (Hside : forall cls,
            (forall e, cls e = true -> is_stream e = false) ->
            forall t0, Forall (fun e => cls e = true) t0 -> ~ In e t0).
  { intros cls Hcls t0 Ct Hin0. rewrite Forall_forall in Ct.
    apply Ct in Hin0. apply Hcls in Hin0. congruence. }
  assert (Hin' : In e tc).
  { repeat (apply in_app_or in Hin; destruct Hin as [Hin | Hin]);
      try exact Hin; exfalso;
      match goal with
      | Ct : Forall (fun e => ?cls e = true) ?t0, H : In e ?t0 |- _ =>
          refine (@Hside cls _ t0 Ct H);
          let e0 := fresh "e" in
          let He0 := fresh "H" in
          intros e0 He0; destruct e0; try discriminate He0; reflexivity
      end. }
  destruct rp as [[] | o]; simpl in Hc;
    [| destruct Hc as [-> _]; contradiction].
  unfold main_cgroup in Hc. rewrite Hcg in Hc.
  destruct (cgrouparg l0) as [gname |];
    [| destruct Hc as [-> _]; contradiction].
  exists gname, (ts ++ tf ++ tp), tc, (tm ++ tr ++ te), rc.
  split; [reflexivity |]. split; [exact Hc |]. split; [exact Hin' |].
  split; [rewrite <- !app_assoc; reflexivity |]. never_tac.
Qed.



(** X5: a group name that does not pass [validate], because it holds a
    character that is neither alphanumeric nor a slash (a dot, a dash,
    an underscore, a space), makes [cgroup] stop the process with exit
    status 1 after getpid and the diagnostic naming the path: no file is
    opened for it. *)
Theorem cgroup_rejects_invalid_name (W : Type) (os : handler W) (w : W)
  (gname : string) :
  valid_path gname = false ->
  (exists pid r,
      run_trace (run os (cgroup gname) w)
      = [EGetpid pid; EEprintf ("invalid path: " ++ gname ++ nl)%string r]) /\
  run_result (run os (cgroup gname) w) = Halt (Exited 1).
Proof.
  intros Hv. eapply cgroup_invalid; [exact Hv | apply run_exec].
Qed.

Lemma cgroup_rejects_invalid_name_witness :
  (exists pid r,
      run_trace (run (os_of all_ok) (cgroup "a_b") tt)
      = [EGetpid pid; EEprintf ("invalid path: " ++ "a_b" ++ nl)%string r]) /\
  run_result (run (os_of all_ok) (cgroup "a_b") tt) = Halt (Exited 1).
Proof.
  apply (@cgroup_rejects_invalid_name unit (os_of all_ok) tt "a_b").
  reflexivity.
Defined.

(** ** Running the command *)

Lemma main_exec_exec (inv : invocation) (t : trace) (res : result Z) :
  exec (main_exec inv) t res ->
  (skipn (optind inv) (argv inv) = [] /\
   (exists r, t = [EPrintf (usage_text (argv0 inv)) r]) /\
   res = Halt (Exited 0)) \/
  (exists file rest,
      skipn (optind inv) (argv inv) = file :: rest /\
      ((t = [EExecvp file (file :: rest) None] /\
        res = Halt (Execed file (file :: rest))) \/
       (exists r, t = [EExecvp file (file :: rest) (Some r);
                       EPerror (Some file) tt] /\
                  res = Halt (Exited 1)))).
Proof.
  unfold main_exec, usage.
  destruct (skipn (optind inv) (argv inv)) as [| file rest]; simpl.
  - intros (r & t' & -> & -> & ->). left. eauto.
  - intros (r & t' & -> & H). right. exists file, rest.
    split; [reflexivity |]. destruct r as [r |]; simpl in H.
    + destruct H as ([] & t'' & -> & -> & ->). right. eauto.
    + destruct H as [-> ->]. left. auto.
Qed.

(** The execvp events of a launch are those of its last part. *)
Lemma launch_exec_part (inv : invocation) (l0 : locals) (t : trace)
  (res : result Z) :
  launch_parts inv l0 t res ->
  exists t0 te,
    t = t0 ++ te /\ never is_execvp t0 /\
    (te = [] \/ exec (main_exec inv) te res).
Proof.
  intros (l & ts & tf & tp & tc & tm & tr & te & rf & rp & rc & rm & rr
          & Hs & Hf & Hp & Hc & Hm & Hr & He & ->).
  pose_classes.
  exists (ts ++ tf ++ tp ++ tc ++ tm ++ tr), te.
  split; [rewrite <- !app_assoc; reflexivity |].
  split; [never_tac |].
  destruct rr as [[] | o]; simpl in He; [right; exact He | left; apply He].
Qed.

(** X6: running the command. An execvp call of a run of main is the only
    one; its file is the first of the arguments that getopt left (those
    from optind on) and its argument vector is all of them. When the
    call does not return it is the last event and the command has
    replaced the program; when it returns, main prints a diagnostic
    naming the file with perror and exits with status 1. *)
Theorem execvp_runs_the_rest_of_argv (W : Type) (os : handler W) (w : W)
  (inv : invocation) (file : string) (args : list string) (r : option Z) :
  In (EExecvp file args r) (run_trace (run os (main inv) w)) ->
  args = skipn (optind inv) (argv inv) /\
  (exists rest, args = file :: rest) /\
  count is_execvp (run_trace (run os (main inv) w)) = 1%nat /\
  exists t',
    never is_execvp t' /\
    match r with
    | None =>
        run_trace (run os (main inv) w) = t' ++ [EExecvp file args None] /\
        run_result (run os (main inv) w) = Halt (Execed file args)
    | Some _ =>
        run_trace (run os (main inv) w)
        = t' ++ [EExecvp file args r; EPerror (Some file) tt] /\
        run_result (run os (main inv) w) = Halt (Exited 1)
    end.
Proof.
  intros Hin.
  destruct (main_run_split os w inv)
    as [(out & _ & H) | (l & tc & tn & tl & rn & Hg & _ & Cc & Hn & Cl & Et & Hl)].
  - exfalso. apply main_getopt_exec in H.
    destruct H as [(E & _) | [(E & _) | (s & r0 & st & E & _)]];
      rewrite E in Hin; simpl in Hin; try contradiction.
    destruct Hin as [Hin | []]. discriminate Hin.
  - assert (Hnn : never is_execvp tn).
    { apply main_namespaces_cases in Hn.
      destruct Hn as [(_ & Ca) | (_ & r0 & tail & -> & Ht)];
        [eapply never_cls; [exact Ca | cls_side] |].
      destruct Ht as [-> | ->]; repeat constructor. }
    assert (Hnc : never is_execvp tc)
      by (eapply never_cls; [exact Cc | cls_side]).
    rewrite Et in *. apply in_app_or in Hin.
    destruct Hin as [Hin | Hin];
      [eapply never_In in Hnc; [| exact Hin]; discriminate Hnc |].
    apply in_app_or in Hin.
    destruct Hin as [Hin | Hin];
      [eapply never_In in Hnn; [| exact Hin]; discriminate Hnn |].
    destruct Hl as [(out & _ & -> & _) | (l0 & -> & Hp)]; [contradiction |].
    apply launch_exec_part in Hp.
    destruct Hp as (t0 & te & -> & Hn0 & He).
    apply in_app_or in Hin.
    destruct Hin as [Hin | Hin];
      [eapply never_In in Hn0; [| exact Hin]; discriminate Hn0 |].
    destruct He as [-> | He]; [contradiction |].
    apply main_exec_exec in He.
    assert (Hpre : never is_execvp (tc ++ tn ++ t0))
      by (rewrite !never_app; auto).
    assert (Hcnt : forall te0, count is_execvp (tc ++ tn ++ t0 ++ te0)
                               = count is_execvp te0).
    { intros te0. rewrite !count_app.
      rewrite (never_count Hnc), (never_count Hnn), (never_count Hn0).
      reflexivity. }
    rewrite Hcnt.
    destruct He as [(_ & (r0 & ->) & _) | (f & rest & Esk & He)].
    { destruct Hin as [Hin | []]. discriminate Hin. }
    rewrite Esk.
    destruct He as [(-> & Er) | (r0 & -> & Er)]; simpl in Hin.
    + destruct Hin as [Hin | []]. injection Hin as <- <- <-.
      split; [reflexivity |]. split; [eauto |]. split; [reflexivity |].
      exists (tc ++ tn ++ t0). split; [exact Hpre |].
      split; [rewrite <- !app_assoc; reflexivity | exact Er].
    + destruct Hin as [Hin | [Hin | []]]; [| discriminate Hin].
      injection Hin as <- <- <-.
      split; [reflexivity |]. split; [eauto |]. split; [reflexivity |].
      exists (tc ++ tn ++ t0). split; [exact Hpre |].
      split; [rewrite <- !app_assoc; reflexivity | exact Er].
Qed.

Lemma execvp_runs_the_rest_of_argv_witness :
  run_result (run (os_of all_ok) (main inv_print) tt)
  = Halt (Execed "ls" ["ls"]).
Proof.
  destruct (@execvp_runs_the_rest_of_argv unit (os_of all_ok) tt inv_print
              "ls" ["ls"] None) as (_ & _ & _ & t' & _ & _ & H).
  - vm_compute. tauto.
  - exact H.
Defined.

(** ** The ways a run can end *)

Ltac ends_step tac :=
  match goal with
  | |- halts_in _ (bind _ _) => apply halts_in_bind
  | |- halts_in _ (call _) => intro; exact I
  | |- halts_in _ (perror _) => intro; exact I
  | |- halts_in _ (Ret _) => exact I
  | |- halts_in _ (Stop _) => simpl; tac
  | |- halts_in _ (if ?b then _ else _) => destruct b
  | |- halts_in _ (match ?x with _ => _ end) => destruct x eqn:?
  | |- forall _, _ => intro
  end.

Ltac ends_tac tac := repeat ends_step tac.

Ltac end_leaf :=
  unfold launch_end, launch_outcome;
  first [ left; left; reflexivity
        | left; right; left; reflexivity
        | right; reflexivity
        | solve [left; right; right; left; eauto] ].

Lemma halts_in_weaken (A : Type) (P Q : outcome -> Prop) (p : prog A) :
  halts_in P p -> (forall o, P o -> Q o) -> halts_in Q p.
Proof.
  induction p as [a | o | R c k IH]; simpl; intros Hp Hq; auto.
Qed.

Lemma ends_main_namespaces (l : locals) :
  halts_in (fun o => o = Exited 1) (main_namespaces l).
Proof.
  unfold main_namespaces, attach. ends_tac reflexivity.
  eapply halts_in_weaken; [apply attach_loop_returns | intros o []].
Qed.

Lemma ends_validate_from (inv : invocation) (l0 : locals) (path s : string) :
  halts_in (launch_end inv l0) (validate_from path s).
Proof.
  induction s as [| c s IH]; cbn [validate_from]; ends_tac end_leaf.
  exact IH.
Qed.

Lemma ends_cgroup_loop (inv : invocation) (l0 : locals)
  (gptr : list string) (gname : string) (pid : Z) :
  forall n, halts_in (launch_end inv l0) (cgroup_loop gptr gname pid n).
Proof.
  induction gptr as [| g gptr IH]; intros n; cbn [cgroup_loop];
    ends_tac end_leaf; try apply IH.
Qed.

Lemma ends_main_fork (inv : invocation) (l0 l : locals) :
  halts_in (launch_end inv l0) (main_fork l).
Proof. unfold main_fork. ends_tac end_leaf. Qed.

Lemma ends_main_printpid (inv : invocation) (l0 l : locals) :
  halts_in (launch_end inv l0) (main_printpid l).
Proof. unfold main_printpid, assert. ends_tac end_leaf. Qed.

Lemma ends_main_cgroup (inv : invocation) (l0 l : locals) :
  halts_in (launch_end inv l0) (main_cgroup l).
Proof.
  unfold main_cgroup, cgroup, validate. ends_tac end_leaf;
    first [apply ends_validate_from | apply ends_cgroup_loop].
Qed.

Lemma ends_main_mounts (inv : invocation) (l0 l : locals) :
  halts_in (launch_end inv l0) (main_mounts l).
Proof. unfold main_mounts. ends_tac end_leaf. Qed.

(** The priority part reads through a null pointer only when the value
    stored for -r is not 0 and optarg is null. *)
Lemma ends_main_rtprio (inv : invocation) (l : locals) :
  halts_in (launch_end inv l) (main_rtprio inv l).
Proof.
  unfold main_rtprio, atoi_ptr.
  destruct (Z.eqb_spec (rtprio l) 0) as [Hz | Hz]; cbn [negb]; [exact I |].
  destruct (optarg inv) eqn:Eo.
  - ends_tac end_leaf.
  - simpl. left. right. right. right. auto.
Qed.

Lemma ends_main_exec (inv : invocation) (l0 : locals) :
  halts_in (launch_end inv l0) (main_exec inv).
Proof. unfold main_exec, usage. ends_tac end_leaf. Qed.

Lemma follows_ends (A B : Type) (P : outcome -> Prop) (r : result A)
  (p : prog B) (t : trace) (r' : result B) :
  halts_in P p -> (forall o, r = Halt o -> P o) -> follows r p t r' ->
  forall o, r' = Halt o -> P o.
Proof.
  destruct r as [a | o0]; simpl; intros Hp Hr H o ->.
  - eapply halts_in_exec; eassumption.
  - destruct H as [_ E]. injection E as ->. auto.
Qed.

Lemma launch_ends (inv : invocation) (l0 : locals) (t : trace)
  (res : result Z) :
  launch_parts inv l0 t res ->
  exists o, res = Halt o /\ launch_outcome inv l0 o.
Proof.
  intros Hp. pose proof (@launch_not_aborted _ _ _ _ Hp) as Hna.
  destruct Hp as (l & ts & tf & tp & tc & tm & tr & te & rf & rp & rc & rm
                  & rr & Hs & Hf & Hp & Hc & Hm & Hr & He & _).
  pose proof (@main_session_exec _ _ _ Hs)
    as (l' & E & _ & _ & _ & _ & Hrt & _).
  injection E as <-.
  assert (Ef : forall o, rf = Halt o -> launch_end inv l o).
  { intros o ->. eapply halts_in_exec; [apply ends_main_fork | exact Hf]. }
  pose proof (@follows_ends _ _ _ _ _ _ _ (ends_main_printpid inv l l) Ef Hp)
    as Ep.
  pose proof (@follows_ends _ _ _ _ _ _ _ (ends_main_cgroup inv l l) Ep Hc)
    as Ec.
  pose proof (@follows_ends _ _ _ _ _ _ _ (ends_main_mounts inv l l) Ec Hm)
    as Em.
  pose proof (@follows_ends _ _ _ _ _ _ _ (ends_main_rtprio inv l) Em Hr)
    as Er.
  pose proof (@follows_ends _ _ _ _ _ _ _ (ends_main_exec inv l) Er He) as Ee.
  assert (Hh : exists o, res = Halt o).
  { destruct rr as [[] | o]; simpl in He.
    - apply main_exec_exec in He.
      destruct He as [(_ & _ & ->) | (f & rest & _ & [(_ & ->) | (r & _ & ->)])];
        eauto.
    - destruct He as [_ ->]. eauto. }
  destruct Hh as [o ->]. exists o. split; [reflexivity |].
  destruct (Ee o eq_refl) as [H | ->];
    [| exfalso; apply Hna; reflexivity].
  unfold launch_outcome in *. rewrite <- Hrt. exact H.
Qed.

(** X7: how a run of main ends. Every run ends the process, in one of
    these ways: exit status 0; exit status 1; the command has replaced
    the program, with the arguments that getopt left as its argument
    vector; or, outside what the C library defines, atoi was handed a
    null pointer. The last takes a -a or -r option that getopt reported
    without its argument, or a null optarg at the end of option parsing
    together with a -r option whose argument atoi does not read as 0:
    without such a -r option a null optarg is harmless. There is no
    other exit status and no other way out. *)
Theorem main_ends_in_one_of_four_ways (W : Type) (os : handler W) (w : W)
  (inv : invocation) :
  exists o,
    run_result (run os (main inv) w) = Halt o /\ main_outcome inv o.
Proof.
  destruct (main_run_split os w inv)
    as [(out & Er & H) | (l & tc & tn & tl & rn & Hg & _ & _ & Hn & _ & _ & Hl)].
  - exists out. split; [exact Er |].
    apply main_getopt_halt in H. destruct H as (o & l1 & Hin & H).
    apply main_switch_halt in H. unfold main_outcome.
    destruct H as [(_ & s & r & _ & [(_ & -> & _) | [(_ & -> & _) | (_ & ->)]])
                  | (_ & -> & Hnone & Hc)]; auto.
    right. right. right. split; [reflexivity |]. right. exists o. auto.
  - destruct Hl as [(out & -> & _ & Er) | (l0 & -> & Hp)].
    + exists out. split; [exact Er |].
      eapply halts_in_exec in Hn; [| apply ends_main_namespaces].
      rewrite Hn. unfold main_outcome. auto.
    + destruct (launch_ends Hp) as (o & Er & Ho). exists o.
      split; [exact Er |]. unfold main_outcome.
      destruct Ho as [Ho | [Ho | [Ho | (-> & Hnull & Hrt)]]]; auto.
      right. right. right. split; [reflexivity |]. left.
      split; [exact Hnull |].
      apply main_namespaces_keeps in Hn. destruct Hn as (_ & _ & Ek & _).
      rewrite Ek in Hrt.
      destruct (@main_getopt_rtprio _ _ _ _ _ Hg)
        as [E | (o' & s & Hin & Hc & Hs & E)].
      * exfalso. apply Hrt. rewrite E. reflexivity.
      * exists o', s. rewrite <- E. auto.
Qed.

(** Without a -r option, a null optarg does no harm: the run ends with
    an exit status or in the command. *)
Example no_rtprio_null_optarg_is_harmless :
  run_result (run (os_of all_ok) (main inv_print) tt)
  = Halt (Execed "ls" ["ls"]) /\
  optarg inv_print = None /\ ~ rtprio_asked inv_print.
Proof.
  split; [reflexivity |]. split; [reflexivity |].
  intros (o & s & [<- | []] & Hc & _). discriminate Hc.
Qed.

(** ** Diagnostics are fatal *)

Lemma fatal_bind (A B : Type) (p : prog A) (f : A -> prog B) :
  fatal p -> fatal (bind p f).
Proof.
  induction p as [a | o | R c k IH]; simpl; intros Hp; auto. contradiction.
Qed.

Lemma diag_fatal_bind (A B : Type) (p : prog A) (f : A -> prog B) :
  diag_fatal p -> (forall a, diag_fatal (f a)) -> diag_fatal (bind p f).
Proof.
  induction p as [a | o | R c k IH]; simpl; intros Hp Hf; auto.
  intros r. destruct (Hp r) as [H1 H2]. split; [| auto].
  intros Hd. apply fatal_bind. auto.
Qed.

Lemma fatal_exec (A : Type) (p : prog A) :
  fatal p -> forall t res, exec p t res -> res = Halt (Exited 1).
Proof.
  induction p as [a | o | R c k IH]; simpl; intros Hp t res H.
  - contradiction.
  - destruct H as [_ ->]. rewrite Hp. reflexivity.
  - destruct H as (r & t' & _ & H). eauto.
Qed.

Lemma diag_fatal_exec (A : Type) (p : prog A) :
  diag_fatal p ->
  forall t res e, exec p t res -> In e t -> is_diag e = true ->
                  res = Halt (Exited 1).
Proof.
  induction p as [a | o | R c k IH]; simpl; intros Hp t res e H Hin Hd.
  - destruct H as [-> _]. contradiction.
  - destruct H as [-> _]. contradiction.
  - destruct H as (r & t' & -> & H). destruct (Hp r) as [H1 H2].
    destruct Hin as [<- | Hin].
    + eapply fatal_exec; [apply H1; exact Hd | exact H].
    + eapply IH; eassumption.
Qed.

Ltac fatal_tac :=
  repeat (simpl; intros); first [reflexivity | assumption].

Ltac diag_step :=
  match goal with
  | |- diag_fatal (Ret _) => exact I
  | |- diag_fatal (Stop _) => exact I
  | |- diag_fatal (if ?b then _ else _) => destruct b
  | |- diag_fatal (match ?x with _ => _ end) => destruct x
  | |- diag_fatal (Call _ _) =>
      let r := fresh "r" in
      let H := fresh "H" in
      intro r; split;
      [simpl; intro H; first [discriminate H | clear H; fatal_tac] |]
  | |- diag_fatal (bind (bind _ _) _) => apply diag_fatal_bind
  | |- diag_fatal (bind (if _ then _ else _) _) => apply diag_fatal_bind
  | |- diag_fatal (bind (match _ with _ => _ end) _) => apply diag_fatal_bind
  | |- diag_fatal (bind _ _) => progress cbn [bind call perror]
  | |- diag_fatal (call _) => unfold call
  | |- forall _, _ => intro
  end.

Ltac diag_tac := repeat diag_step.

Lemma diag_main_fork (l : locals) : diag_fatal (main_fork l).
Proof. unfold main_fork. diag_tac. Qed.

Lemma diag_main_printpid (l : locals) : diag_fatal (main_printpid l).
Proof. unfold main_printpid, assert. diag_tac. Qed.

Lemma diag_main_mounts (l : locals) : diag_fatal (main_mounts l).
Proof. unfold main_mounts. diag_tac. Qed.

Lemma diag_main_rtprio (inv : invocation) (l : locals) :
  diag_fatal (main_rtprio inv l).
Proof. unfold main_rtprio, atoi_ptr. diag_tac. Qed.

Lemma diag_main_exec (inv : invocation) : diag_fatal (main_exec inv).
Proof. unfold main_exec, usage. diag_tac. Qed.

Lemma diag_validate_from (path s : string) :
  diag_fatal (validate_from path s).
Proof.
  induction s as [| c s IH]; cbn [validate_from]; diag_tac. exact IH.
Qed.

Lemma diag_cgroup_loop (gptr : list string) (gname : string) (pid : Z) :
  forall n, diag_fatal (cgroup_loop gptr gname pid n).
Proof.
  induction gptr as [| g gptr IH]; intros n; cbn [cgroup_loop]; diag_tac;
    apply IH.
Qed.

Lemma diag_main_cgroup (l : locals) : diag_fatal (main_cgroup l).
Proof.
  unfold main_cgroup, cgroup, validate. destruct (cgrouparg l); [| exact I].
  cbn [bind call]. intros pid. split; [intros H; discriminate H |].
  apply diag_fatal_bind; [apply diag_validate_from |]. intros [].
  apply diag_fatal_bind; [apply diag_cgroup_loop |]. intros n.
  diag_tac.
Qed.

Lemma follows_diag (A B : Type) (r : result A) (p : prog B) (t : trace)
  (r' : result B) (e : event) :
  diag_fatal p -> follows r p t r' -> In e t -> is_diag e = true ->
  r' = Halt (Exited 1).
Proof.
  destruct r as [a | o]; simpl; intros Hp H Hin Hd.
  - eapply diag_fatal_exec; eassumption.
  - destruct H as [-> _]. contradiction.
Qed.

Lemma launch_diag (inv : invocation) (l0 : locals) (t : trace)
  (res : result Z) (e : event) :
  launch_parts inv l0 t res -> In e t -> is_diag e = true ->
  res = Halt (Exited 1).
Proof.
  intros (l & ts & tf & tp & tc & tm & tr & te & rf & rp & rc & rm & rr
          & Hs & Hf & Hp & Hc & Hm & Hr & He & ->) Hin Hd.
  assert (Cs : Forall (fun e => cls_session e = true) ts)
    by (eapply emits_exec; [apply emits_main_session | exact Hs]).
  apply in_app_or in Hin. destruct Hin as [Hin | Hin].
  { exfalso. rewrite Forall_forall in Cs. apply Cs in Hin.
    destruct e; discriminate. }
  apply in_app_or in Hin. destruct Hin as [Hin | Hin].
  { assert (E : rf = Halt (Exited 1))
      by (eapply diag_fatal_exec; [apply diag_main_fork | eassumption ..]).
    subst rf. halt_chain. reflexivity. }
  apply in_app_or in Hin. destruct Hin as [Hin | Hin].
  { assert (E : rp = Halt (Exited 1))
      by (eapply follows_diag; [apply diag_main_printpid | eassumption ..]).
    subst rp. halt_chain. reflexivity. }
  apply in_app_or in Hin. destruct Hin as [Hin | Hin].
  { assert (E : rc = Halt (Exited 1))
      by (eapply follows_diag; [apply diag_main_cgroup | eassumption ..]).
    subst rc. halt_chain. reflexivity. }
  apply in_app_or in Hin. destruct Hin as [Hin | Hin].
  { assert (E : rm = Halt (Exited 1))
      by (eapply follows_diag; [apply diag_main_mounts | eassumption ..]).
    subst rm. halt_chain. reflexivity. }
  apply in_app_or in Hin. destruct Hin as [Hin | Hin].
  { assert (E : rr = Halt (Exited 1))
      by (eapply follows_diag; [apply diag_main_rtprio | eassumption ..]).
    subst rr. halt_chain. reflexivity. }
  eapply follows_diag; [apply diag_main_exec | eassumption ..].
Qed.

(** The whole of attachns, case by case. *)
Lemma attachns_exec (pid : Z) (ns : namespace) (t : trace) (res : result Z) :
  exec (attachns pid ns) t res ->
  exists stat1 stat2,
    (same_ns stat1 stat2 = true /\ res = Val 0 /\
     t = [EStat (ns_path pid ns) stat1; EStat (ns_self ns) stat2]) \/
    (same_ns stat1 stat2 = false /\ exists nsid,
       (nsid < 0 /\ res = Val nsid /\ exists r,
          t = [EStat (ns_path pid ns) stat1; EStat (ns_self ns) stat2;
               EOpen (ns_path pid ns) O_RDONLY nsid;
               EPerror (Some "open") tt;
               EEprintf ("Could not open: " ++ ns_path pid ns ++ nl)%string r])
       \/
       (0 <= nsid /\ exists err,
          (err < 0 /\ res = Val err /\ exists r,
             t = [EStat (ns_path pid ns) stat1; EStat (ns_self ns) stat2;
                  EOpen (ns_path pid ns) O_RDONLY nsid;
                  ESetns nsid 0 err;
                  EPerror (Some "setns") tt;
                  EEprintf ("Could not attach to " ++ name ns ++ " namespace"
                            ++ nl)%string r])
          \/
          (0 <= err /\ res = Val (type ns) /\
           t = [EStat (ns_path pid ns) stat1; EStat (ns_self ns) stat2;
                EOpen (ns_path pid ns) O_RDONLY nsid;
                ESetns nsid 0 err]))).
Proof.
  unfold attachns. simpl.
  intros (stat1 & t1 & -> & stat2 & t2 & -> & H).
  exists stat1, stat2.
  destruct (same_ns stat1 stat2); simpl in H.
  { destruct H as [-> ->]. left. auto. }
  right. split; [reflexivity |].
  destruct H as (nsid & t3 & -> & H). exists nsid.
  destruct (Z.ltb_spec nsid 0) as [Hn | Hn]; simpl in H.
  - destruct H as ([] & t4 & -> & r & t5 & -> & -> & ->).
    left. split; [assumption |]. split; [reflexivity |]. exists r. reflexivity.
  - right. split; [assumption |].
    destruct H as (err & t4 & -> & H). exists err.
    destruct (Z.ltb_spec err 0) as [He | He]; simpl in H.
    + destruct H as ([] & t5 & -> & r & t6 & -> & -> & ->).
      left. split; [assumption |]. split; [reflexivity |].
      exists r. reflexivity.
    + destruct H as [-> ->]. right. auto.
Qed.

(** ** The calls of attach *)

(** One turn of the loop of attach. *)
Lemma attach_loop_step (pid : Z) (ns : namespace) (nss : list namespace)
  (flag : Z) (t : trace) (res : result (option Z)) :
  exec (attach_loop pid (ns :: nss) flag) t res ->
  exists ret t1 t2,
    exec (attachns pid ns) t1 (Val ret) /\ t = t1 ++ t2 /\
    ((0 <= ret /\ exec (attach_loop pid nss (Z.lor flag ret)) t2 res) \/
     (ret < 0 /\ type ns <> CLONE_NEWNS /\ t2 = [] /\ res = Val None) \/
     (ret < 0 /\ type ns = CLONE_NEWNS /\ exists c,
        (c < 0 /\ res = Val None /\
         t2 = [EChroot (root_path pid) c;
               EPerror (Some (root_path pid)) tt]) \/
        (0 <= c /\ exists t3,
           t2 = EChroot (root_path pid) c :: t3 /\
           exec (attach_loop pid nss (Z.lor flag ret)) t3 res))).
Proof.
  cbn [attach_loop]. intros H. apply exec_bind_inv in H.
  destruct H as [(o & H & _) | (ret & t1 & t2 & H1 & H2 & ->)].
  { exfalso. apply attachns_exec in H.
    destruct H as (s1 & s2 & [(_ & E & _) | (_ & nsid & [(_ & E & _) |
      (_ & err & [(_ & E & _) | (_ & E & _)])])]); discriminate E. }
  exists ret, t1, t2. split; [exact H1 |]. split; [reflexivity |].
  destruct (Z.ltb_spec ret 0) as [Hr | Hr]; [| left; auto].
  right. destruct (Z.eqb_spec (type ns) CLONE_NEWNS) as [Hm | Hm].
  - right. split; [assumption |]. split; [assumption |].
    simpl in H2. destruct H2 as (c & t3 & -> & H2). exists c.
    destruct (Z.ltb_spec c 0) as [Hc | Hc]; simpl in H2.
    + destruct H2 as ([] & t4 & -> & -> & ->). left. auto.
    + right. split; [assumption |]. exists t3. auto.
  - left. simpl in H2. destruct H2 as [-> ->]. auto.
Qed.

(** The whole of attach around its loop. *)
Lemma attach_exec (pid : Z) (t : trace) (ra : result Z) :
  exec (attach pid) t ra ->
  exists cwd t1 r,
    exec (attach_loop pid namespaces 0) t1 (Val r) /\
    ((r = None /\ t = EGet_current_dir_name cwd :: t1 /\ ra = Val (-1)) \/
     (exists flag c,
         r = Some flag /\
         ((c <> 0 /\ ra = Val (-1) /\
           t = EGet_current_dir_name cwd :: t1
               ++ [EChdir cwd c; EPerror cwd tt]) \/
          (c = 0 /\ ra = Val flag /\
           t = EGet_current_dir_name cwd :: t1 ++ [EChdir cwd 0])))).
Proof.
  unfold attach. intros H. apply exec_bind_inv in H.
  destruct H as [(o & H & _) | (cwd & tc & t0 & Hc & H & ->)];
    [destruct H as (r & t' & _ & _ & E); discriminate E |].
  destruct Hc as (r & t' & -> & -> & E). injection E as E. subst r.
  cbn [ev app]. apply exec_bind_inv in H.
  destruct H as [(o & H & _) | (r & t1 & t2 & H1 & H2 & ->)].
  { exfalso. eapply halts_in_exec in H; [exact H |].
    apply attach_loop_returns. }
  exists cwd, t1, r. split; [exact H1 |].
  destruct r as [flag |]; simpl in H2.
  - right. destruct H2 as (c & t3 & -> & H2). exists flag, c.
    split; [reflexivity |].
    destruct (Z.eqb_spec c 0) as [Hc | Hc]; simpl in H2.
    + destruct H2 as [-> ->]. subst c. right. auto.
    + destruct H2 as ([] & t4 & -> & -> & ->). left. auto.
  - left. destruct H2 as [-> ->]. rewrite app_nil_r. auto.
Qed.

(** A diagnostic of attachns comes with a negative result. *)
Lemma attachns_diag (pid : Z) (ns : namespace) (t : trace) (ret : Z)
  (e : event) :
  exec (attachns pid ns) t (Val ret) -> 0 <= type ns ->
  In e t -> is_diag e = true -> ret < 0.
Proof.
  intros H Hty Hin Hd. apply attachns_exec in H.
  destruct H as (s1 & s2 & [(_ & E & ->) | (_ & nsid & [(Hn & E & r & ->) |
    (_ & err & [(He & E & r & ->) | (_ & E & ->)])])]);
    injection E as ->; try assumption; exfalso; in_cases.
Qed.

Lemma minus_one_app (t1 t2 : trace) :
  minus_one_on_failure (t1 ++ t2) ->
  minus_one_on_failure t1 /\ minus_one_on_failure t2.
Proof.
  intros [Ho Hs].
  split; split; intros a b r Hin Hr;
    first [ apply (Ho a b r); [apply in_or_app; auto | exact Hr]
          | apply (Hs a b r); [apply in_or_app; auto | exact Hr] ].
Qed.

Lemma minus_one_cons (e : event) (t : trace) :
  minus_one_on_failure (e :: t) -> minus_one_on_failure t.
Proof.
  intros [Ho Hs].
  split; intros a b r Hin Hr;
    first [ apply (Ho a b r); [right; exact Hin | exact Hr]
          | apply (Hs a b r); [right; exact Hin | exact Hr] ].
Qed.

(** With open and setns returning -1 when they fail, a diagnostic in
    the loop of attach leaves it with [return -1] or with flag -1. *)
Lemma attach_loop_diag (pid : Z) (nss : list namespace) :
  forall (flag : Z) (t : trace) (r : option Z) (e : event),
    Forall (fun ns => 0 <= type ns) nss ->
    exec (attach_loop pid nss flag) t (Val r) ->
    minus_one_on_failure t -> In e t -> is_diag e = true ->
    r = None \/ r = Some (-1).
Proof.
  induction nss as [| ns nss IH]; intros flag t r e Hty H Hm Hin Hd.
  - destruct H as [-> _]. contradiction.
  - apply Forall_cons_iff in Hty. destruct Hty as [Hty0 Hty].
    apply attach_loop_step in H.
    destruct H as (ret & t1 & t2 & H1 & -> & H).
    apply minus_one_app in Hm. destruct Hm as [Hm1 Hm2].
    assert (Hneg : ret < 0 -> Z.lor flag ret = -1).
    { intros Hr. destruct (attachns_negative H1 Hr Hty0)
        as [(p & o & Hi) | (fd & ty & Hi)];
        [apply Hm1 in Hi | apply Hm1 in Hi]; try assumption;
        subst ret; apply Z.lor_m1_r. }
    assert (Hones : forall t' , exec (attach_loop pid nss (-1)) t' (Val r) ->
                                r = None \/ r = Some (-1)).
    { intros t' H'. destruct r as [f |]; [right | left; reflexivity].
      f_equal. eapply attach_loop_all_ones. exact H'. }
    destruct H as [(Hr & H) | [(Hr & _ & _ & E) | (Hr & _ & c & H)]].
    + apply in_app_or in Hin. destruct Hin as [Hin | Hin].
      * pose proof (@attachns_diag _ _ _ _ _ H1 Hty0 Hin Hd). lia.
      * eapply IH; eassumption.
    + left. injection E as ->. reflexivity.
    + destruct H as [(_ & E & _) | (_ & t3 & -> & H)].
      * left. injection E as ->. reflexivity.
      * rewrite (Hneg Hr) in H. eapply Hones. exact H.
Qed.

Lemma namespaces_types : Forall (fun ns => 0 <= type ns) namespaces.
Proof. unfold namespaces. repeat constructor; vm_compute; discriminate. Qed.

Lemma attach_diag (pid : Z) (t : trace) (ra : result Z) (e : event) :
  exec (attach pid) t ra -> minus_one_on_failure t ->
  In e t -> is_diag e = true -> ra = Val (-1).
Proof.
  intros H Hm Hin Hd. apply attach_exec in H.
  destruct H as (cwd & t1 & r & H1 & [(-> & -> & ->) | (flag & c & -> & H)]);
    [reflexivity |].
  destruct H as [(_ & -> & _) | (-> & -> & ->)]; [reflexivity |].
  apply minus_one_cons in Hm. apply minus_one_app in Hm.
  destruct Hm as [Hm _].
  destruct Hin as [<- | Hin]; [discriminate Hd |].
  apply in_app_or in Hin. destruct Hin as [Hin | Hin].
  - destruct (@attach_loop_diag _ _ _ _ _ _ namespaces_types H1 Hm Hin Hd) as [E | E];
      [discriminate E | injection E as ->; reflexivity].
  - exfalso. in_cases.
Qed.

(** X8: diagnostics are fatal. With open and setns returning -1 when
    they fail, as they do on Linux, a run of main that prints any
    diagnostic on stderr (by perror or fprintf) ends with exit status 1:
    the command is never run after an error message. This includes the
    mount namespace that cannot be entered: the chroot that follows may
    succeed, main still exits with status 1. *)
Theorem diagnostics_are_fatal (W : Type) (os : handler W) (w : W)
  (inv : invocation) (e : event) :
  minus_one_on_failure (run_trace (run os (main inv) w)) ->
  In e (run_trace (run os (main inv) w)) -> is_diag e = true ->
  run_result (run os (main inv) w) = Halt (Exited 1).
Proof.
  intros Hm Hin Hd.
  destruct (main_run_split os w inv)
    as [(out & _ & H) | (l & tc & tn & tl & rn & _ & _ & Cc & Hn & Cl & Et & Hl)].
  - exfalso. apply main_getopt_exec in H.
    destruct H as [(E & _) | [(E & _) | (s & r0 & st & E & _)]];
      rewrite E in Hin; simpl in Hin; try contradiction.
    destruct Hin as [<- | []]. discriminate Hd.
  - rewrite Et in Hin, Hm. apply in_app_or in Hin.
    destruct Hin as [Hin | Hin].
    { exfalso. rewrite Forall_forall in Cc. apply Cc in Hin.
      destruct e; discriminate. }
    assert (Hrn : In e tn -> rn = Halt (Exited 1)).
    { intros Hi. destruct (Z.eq_dec (attachpid l) 0) as [Ha | Ha].
      - apply main_namespaces_exec in Hn.
        destruct Hn as [(Ha' & _) | (_ & r & [(_ & _ & E) | (_ & -> & _)])];
          [contradiction | exact E |].
        destruct Hi as [<- | []]. discriminate Hd.
      - destruct (@main_namespaces_attach l tn rn Ha Hn)
          as (_ & t' & ra & Hx & <- & Hra).
        apply minus_one_app in Hm. destruct Hm as [_ Hm].
        apply minus_one_app in Hm. destruct Hm as [Hm _].
        rewrite (@attach_diag _ _ _ _ Hx Hm Hi Hd) in Hra. exact Hra. }
    apply in_app_or in Hin. destruct Hin as [Hin | Hin].
    + apply Hrn in Hin.
      destruct Hl as [(out & E & _ & Er) | (l0 & E & _)];
        rewrite Hin in E; [| discriminate E].
      injection E as <-. exact Er.
    + destruct Hl as [(out & _ & -> & _) | (l0 & _ & Hp)]; [contradiction |].
      eapply launch_diag; eassumption.
Qed.

Lemma diagnostics_are_fatal_witness :
  run_result (run os_net_open_fails (main inv_attach) tt) = Halt (Exited 1).
Proof.
  apply (@diagnostics_are_fatal unit os_net_open_fails tt inv_attach
           (EPerror (Some "open") tt)).
  - split; intros a b r Hin Hr; vm_compute in Hin;
      repeat (destruct Hin as [Hin | Hin];
              [first [ discriminate Hin
                     | injection Hin as _ _ <-; reflexivity ] |]);
      contradiction.
  - vm_compute. tauto.
  - reflexivity.
Defined.

(** ** Attach mode in a whole run *)

Lemma main_getopt_attachpid (inv : invocation) (steps : list getopt_step) :
  forall (l l' : locals) (t : trace),
    exec (main_getopt inv steps l) t (Val l') ->
    attachpid l' = attachpid l \/
    exists o s, In o steps /\ go_c o = "a"%char /\ go_optarg o = Some s /\
                attachpid l' = atoi s.
Proof.
  induction steps as [| o steps IH]; intros l l' t H; cbn [main_getopt] in H.
  - destruct H as [_ E]. injection E as ->. auto.
  - apply exec_bind_inv in H.
    destruct H as [(out & _ & E) | (l1 & t1 & t2 & H1 & H2 & ->)];
      [discriminate E |].
    destruct (IH _ _ _ H2) as [H | (o' & s & Hin & H)].
    + apply main_switch_cgrouparg in H1.
      destruct H1 as [[_ E] | [(_ & _ & E) | (Ec & _ & s & Es & E)]].
      * left. congruence.
      * left. congruence.
      * right. exists o, s. simpl. rewrite H. auto.
    + right. exists o', s. simpl. tauto.
Qed.

Lemma emits_attach_loop_calls (pid : Z) (nss : list namespace) :
  forall flag, emits cls_attach_loop (attach_loop pid nss flag).
Proof.
  induction nss as [| ns nss IH]; intros flag; cbn [attach_loop];
    unfold attachns; emits_tac; try apply IH.
Qed.

(** What is known of a run that makes one of the calls of attach. *)
Lemma main_run_attach (W : Type) (os : handler W) (w : W) (inv : invocation)
  (e : event) :
  In e (run_trace (run os (main inv) w)) -> is_attach_call e = true ->
  exists l tc ta tl ra,
    exec (main_getopt inv (inv_getopt inv) init_locals) [] (Val l) /\
    attachpid l <> 0 /\
    Forall (fun e => cls_closefds e = true) tc /\
    exec (attach (attachpid l)) ta ra /\
    In e ta /\
    Forall (fun e => cls_launch e = true) tl /\
    run_trace (run os (main inv) w) = tc ++ ta ++ tl /\
    (ra = Val (-1) ->
     tl = [] /\ run_result (run os (main inv) w) = Halt (Exited 1)).
Proof.
  intros Hin Hk.
  destruct (main_run_split os w inv)
    as [(out & _ & H) | (l & tc & tn & tl & rn & Hg & _ & Cc & Hn & Cl & Et & Hl)].
  - exfalso. apply main_getopt_exec in H.
    destruct H as [(E & _) | [(E & _) | (s & r0 & st & E & _)]];
      rewrite E in Hin; simpl in Hin; try contradiction.
    destruct Hin as [<- | []]. discriminate Hk.
  - assert (Hin' : In e tn).
    { rewrite Et in Hin. apply in_app_or in Hin.
      destruct Hin as [Hin | Hin].
      { exfalso. rewrite Forall_forall in Cc. apply Cc in Hin.
        destruct e; discriminate. }
      apply in_app_or in Hin. destruct Hin as [Hin | Hin]; [exact Hin |].
      exfalso. rewrite Forall_forall in Cl. apply Cl in Hin.
      destruct e; discriminate. }
    destruct (Z.eq_dec (attachpid l) 0) as [Ha | Ha].
    { exfalso. apply main_namespaces_cases in Hn.
      destruct Hn as [(Ha' & _) | (_ & r0 & tail & -> & Ht)];
        [contradiction |].
      destruct Ht as [-> | ->]; simpl in Hin';
        repeat (destruct Hin' as [Hin' | Hin']; try contradiction;
                try (subst e; discriminate Hk)). }
    destruct (@main_namespaces_attach l tn rn Ha Hn)
      as (_ & t' & ra & Hx & <- & Hra).
    exists l, tc, tn, tl, ra.
    repeat (split; [assumption |]).
    intros ->. simpl in Hra. subst rn.
    destruct Hl as [(out & E & -> & Er) | (l0 & E & _)]; [| discriminate E].
    injection E as <-. auto.
Qed.

Lemma attachns_open (pid : Z) (ns : namespace) (t : trace) (res : result Z)
  (p : string) (o r : Z) :
  exec (attachns pid ns) t res -> In (EOpen p o r) t ->
  o = O_RDONLY /\ p = ns_path pid ns.
Proof.
  intros H Hin. apply attachns_exec in H.
  destruct H as (s1 & s2 & [(_ & _ & ->) | (_ & nsid & [(_ & _ & r0 & ->) |
    (_ & err & [(_ & _ & r0 & ->) | (_ & _ & ->)])])]);
    simpl in Hin;
    repeat (destruct Hin as [Hin | Hin]; try discriminate Hin;
            try contradiction);
    injection Hin as <- <- _; auto.
Qed.

Lemma attachns_setns (pid : Z) (ns : namespace) (t : trace) (res : result Z)
  (fd ty r : Z) :
  exec (attachns pid ns) t res -> In (ESetns fd ty r) t ->
  ty = 0 /\ 0 <= fd /\
  exists ta tb p, t = ta ++ EOpen p O_RDONLY fd :: ESetns fd ty r :: tb.
Proof.
  intros H Hin. apply attachns_exec in H.
  destruct H as (s1 & s2 & [(_ & _ & ->) | (_ & nsid & [(_ & _ & r0 & ->) |
    (Hn & err & [(_ & _ & r0 & ->) | (_ & _ & ->)])])]);
    simpl in Hin;
    repeat (destruct Hin as [Hin | Hin]; try discriminate Hin;
            try contradiction);
    injection Hin as <- <- <-;
    (split; [reflexivity |]); (split; [assumption |]).
  - exists [EStat (ns_path pid ns) s1; EStat (ns_self ns) s2],
      [EPerror (Some "setns") tt;
       EEprintf ("Could not attach to " ++ name ns ++ " namespace"
                 ++ nl)%string r0],
      (ns_path pid ns).
    reflexivity.
  - exists [EStat (ns_path pid ns) s1; EStat (ns_self ns) s2], [],
      (ns_path pid ns).
    reflexivity.
Qed.

Lemma attach_loop_open (pid : Z) (nss : list namespace) :
  forall (flag : Z) (t : trace) (res : result (option Z)) (p : string)
         (o r : Z),
    exec (attach_loop pid nss flag) t res -> In (EOpen p o r) t ->
    o = O_RDONLY /\ exists ns, In ns nss /\ p = ns_path pid ns.
Proof.
  induction nss as [| ns nss IH]; intros flag t res p o r H Hin.
  - destruct H as [-> _]. contradiction.
  - apply attach_loop_step in H.
    destruct H as (ret & t1 & t2 & H1 & -> & H).
    apply in_app_or in Hin. destruct Hin as [Hin | Hin].
    { destruct (@attachns_open _ _ _ _ _ _ _ H1 Hin) as [-> ->].
      split; [reflexivity |]. exists ns. simpl. auto. }
    assert (Hrest : forall flag' t' , exec (attach_loop pid nss flag') t' res ->
                      In (EOpen p o r) t' ->
                      o = O_RDONLY /\
                      exists ns0, In ns0 (ns :: nss) /\ p = ns_path pid ns0).
    { intros flag' t' H' Hin'.
      destruct (IH _ _ _ _ _ _ H' Hin') as (-> & ns0 & Hns & ->).
      split; [reflexivity |]. exists ns0. simpl. auto. }
    destruct H as [(_ & H) | [(_ & _ & -> & _) | (_ & _ & c & H)]].
    + eapply Hrest; eassumption.
    + contradiction.
    + destruct H as [(_ & _ & ->) | (_ & t3 & -> & H)].
      * exfalso. in_cases.
      * destruct Hin as [Hin | Hin]; [discriminate Hin |].
        eapply Hrest; eassumption.
Qed.

Lemma attach_loop_setns (pid : Z) (nss : list namespace) :
  forall (flag : Z) (t : trace) (res : result (option Z)) (fd ty r : Z),
    exec (attach_loop pid nss flag) t res -> In (ESetns fd ty r) t ->
    ty = 0 /\ 0 <= fd /\
    exists ta tb p, t = ta ++ EOpen p O_RDONLY fd :: ESetns fd ty r :: tb.
Proof.
  induction nss as [| ns nss IH]; intros flag t res fd ty r H Hin.
  - destruct H as [-> _]. contradiction.
  - apply attach_loop_step in H.
    destruct H as (ret & t1 & t2 & H1 & -> & H).
    apply in_app_or in Hin. destruct Hin as [Hin | Hin].
    { destruct (@attachns_setns _ _ _ _ _ _ _ H1 Hin) as (-> & Hfd & ta & tb & p & ->).
      split; [reflexivity |]. split; [assumption |].
      exists ta, (tb ++ t2), p. rewrite <- app_assoc. reflexivity. }
    destruct H as [(_ & H) | [(_ & _ & -> & _) | (_ & _ & c & H)]].
    + destruct (IH _ _ _ _ _ _ H Hin) as (-> & Hfd & ta & tb & p & ->).
      split; [reflexivity |]. split; [assumption |].
      exists (t1 ++ ta), tb, p. rewrite <- app_assoc. reflexivity.
    + contradiction.
    + destruct H as [(_ & _ & ->) | (_ & t3 & -> & H)].
      * exfalso. in_cases.
      * destruct Hin as [Hin | Hin]; [discriminate Hin |].
        destruct (IH _ _ _ _ _ _ H Hin) as (-> & Hfd & ta & tb & p & ->).
        split; [reflexivity |]. split; [assumption |].
        exists (t1 ++ EChroot (root_path pid) c :: ta), tb, p.
        rewrite <- app_assoc. reflexivity.
Qed.

(** An event of attach that is not around the loop is in the loop. *)
Lemma attach_in_loop (pid : Z) (t : trace) (ra : result Z) (e : event) :
  exec (attach pid) t ra -> In e t ->
  is_getcwd e = false -> is_chdir e = false -> is_diag e = false ->
  exists ta t1 tb r,
    t = ta ++ t1 ++ tb /\ exec (attach_loop pid namespaces 0) t1 (Val r) /\
    In e t1.
Proof.
  intros H Hin Hg Hc Hd. apply attach_exec in H.
  destruct H as (cwd & t1 & r & H1 & H).
  assert (Hcase : exists tb, t = [EGet_current_dir_name cwd] ++ t1 ++ tb /\
                             Forall (fun e => is_chdir e || is_diag e = true) tb).
  { destruct H as [(_ & -> & _) | (flag & c & _ & [(_ & _ & ->) | (_ & _ & ->)])].
    - exists []. rewrite app_nil_r. split; [reflexivity | constructor].
    - exists [EChdir cwd c; EPerror cwd tt]. split; [reflexivity |].
      repeat constructor.
    - exists [EChdir cwd 0]. split; [reflexivity |]. repeat constructor. }
  destruct Hcase as (tb & -> & Ctb).
  exists [EGet_current_dir_name cwd], t1, tb, r.
  split; [reflexivity |]. split; [exact H1 |]. simpl in Hin.
  destruct Hin as [<- | Hin]; [discriminate Hg |].
  apply in_app_or in Hin. destruct Hin as [Hin | Hin]; [exact Hin |].
  exfalso. rewrite Forall_forall in Ctb. apply Ctb in Hin.
  rewrite Hc, Hd in Hin. discriminate Hin.
Qed.

(** X9: the namespace entries opened. Every open of a run of main is
    made read-only on the entry /proc/<pid>/ns/<name> of one of the four
    namespaces net, pid, uts and mnt, where pid is the non-zero int
    that atoi reads from the argument of a -a option. Descriptors are
    closed only before that: from the first open on, the run closes
    nothing, so a namespace descriptor that was opened is still open
    when the command is executed. *)
Theorem namespace_entries_opened_and_kept (W : Type) (os : handler W) (w : W)
  (inv : invocation) (p : string) (o r : Z) :
  In (EOpen p o r) (run_trace (run os (main inv) w)) ->
  o = O_RDONLY /\
  (exists step s ns,
      In step (inv_getopt inv) /\ go_c step = "a"%char /\
      go_optarg step = Some s /\ atoi s <> 0 /\
      In ns namespaces /\ p = ns_path (atoi s) ns) /\
  exists before rest,
    run_trace (run os (main inv) w) = before ++ rest /\
    In (EOpen p o r) rest /\ never is_close rest.
Proof.
  intros Hin.
  destruct (@main_run_attach _ os w inv _ Hin eq_refl)
    as (l & tc & ta & tl & ra & Hg & Ha & Cc & Hx & Hi & Cl & Et & _).
  destruct (@attach_in_loop _ _ _ _ Hx Hi eq_refl eq_refl eq_refl)
    as (t0 & t1 & t2 & r1 & _ & H1 & Hi1).
  destruct (@attach_loop_open _ _ _ _ _ _ _ _ H1 Hi1) as (-> & ns & Hns & ->).
  split; [reflexivity |]. split.
  - destruct (@main_getopt_attachpid _ _ _ _ _ Hg)
      as [E | (step & s & Hs & Hc & Ho & E)].
    + exfalso. apply Ha. rewrite E. reflexivity.
    + exists step, s, ns. rewrite <- E. auto 7.
  - exists tc, (ta ++ tl). split; [exact Et |].
    split; [apply in_or_app; auto |].
    apply never_app. split.
    + eapply never_cls;
        [eapply emits_exec; [apply emits_attach_only | exact Hx] | cls_side].
    + eapply never_cls; [exact Cl | cls_side].
Qed.

Lemma namespace_entries_opened_and_kept_witness :
  exists before rest,
    run_trace (run os_all_ns_differ (main inv_close_attach) tt)
    = before ++ rest /\
    In (EOpen "/proc/42/ns/net" O_RDONLY 3) rest /\ never is_close rest.
Proof.
  apply (@namespace_entries_opened_and_kept unit os_all_ns_differ tt
           inv_close_attach "/proc/42/ns/net" O_RDONLY 3).
  vm_compute. tauto.
Defined.

(** X10: entering a namespace. Every setns of a run of main is called
    with nstype 0, which accepts any kind of namespace, on a descriptor
    that is not negative and that the open just before it returned. *)
Theorem setns_uses_the_descriptor_just_opened (W : Type) (os : handler W)
  (w : W) (inv : invocation) (fd ty r : Z) :
  In (ESetns fd ty r) (run_trace (run os (main inv) w)) ->
  ty = 0 /\ 0 <= fd /\
  exists ta tb p,
    run_trace (run os (main inv) w)
    = ta ++ EOpen p O_RDONLY fd :: ESetns fd ty r :: tb.
Proof.
  intros Hin.
  destruct (@main_run_attach _ os w inv _ Hin eq_refl)
    as (l & tc & ta & tl & ra & Hg & Ha & Cc & Hx & Hi & Cl & Et & _).
  destruct (@attach_in_loop _ _ _ _ Hx Hi eq_refl eq_refl eq_refl)
    as (t0 & t1 & t2 & r1 & -> & H1 & Hi1).
  destruct (@attach_loop_setns _ _ _ _ _ _ _ _ H1 Hi1)
    as (-> & Hfd & ta' & tb' & p & ->).
  split; [reflexivity |]. split; [assumption |].
  exists (tc ++ t0 ++ ta'), (tb' ++ t2 ++ tl), p. rewrite Et.
  rewrite <- !app_assoc. reflexivity.
Qed.

Lemma setns_uses_the_descriptor_just_opened_witness :
  exists ta tb p,
    run_trace (run os_all_ns_differ (main inv_attach) tt)
    = ta ++ EOpen p O_RDONLY 3 :: ESetns 3 0 0 :: tb.
Proof.
  apply (@setns_uses_the_descriptor_just_opened unit os_all_ns_differ tt
           inv_attach 3 0 0).
  vm_compute. tauto.
Defined.

(** X11: the working directory. A chdir of a run of main goes to the
    directory that get_current_dir_name returned, which attach asked for
    before it entered any namespace: between the two the run makes the
    calls of the loop of attach only, before them it only closed
    descriptors, and after the chdir no call of attach follows. A chdir
    that does not return 0 ends the run with exit status 1. *)
Theorem attach_returns_to_the_saved_directory (W : Type) (os : handler W)
  (w : W) (inv : invocation) (p : option string) (c : Z) :
  In (EChdir p c) (run_trace (run os (main inv) w)) ->
  (exists ta tb tc,
      run_trace (run os (main inv) w)
      = ta ++ EGet_current_dir_name p :: tb ++ EChdir p c :: tc /\
      Forall (fun e => cls_closefds e = true) ta /\
      Forall (fun e => cls_attach_loop e = true) tb /\
      never is_attach_call tc) /\
  (c <> 0 -> run_result (run os (main inv) w) = Halt (Exited 1)).
Proof.
  intros Hin.
  destruct (@main_run_attach _ os w inv _ Hin eq_refl)
    as (l & tc & ta & tl & ra & Hg & Ha & Cc & Hx & Hi & Cl & Et & Hfail).
  apply attach_exec in Hx.
  destruct Hx as (cwd & t1 & r & H1 & Hx).
  assert (C1 : Forall (fun e => cls_attach_loop e = true) t1)
    by (eapply emits_exec; [apply emits_attach_loop_calls | exact H1]).
  assert (Hnot : ~ In (EChdir p c) t1).
  { intros Hi1. rewrite Forall_forall in C1. apply C1 in Hi1.
    discriminate Hi1. }
  assert (Hl : never is_attach_call tl)
    by (eapply never_cls; [exact Cl | cls_side]).
  destruct Hx as [(_ & -> & _) | (flag & c0 & _ & [(Hc & -> & ->) | (-> & _ & ->)])].
  - exfalso. destruct Hi as [Hi | Hi]; [discriminate Hi | auto].
  - destruct Hi as [Hi | Hi]; [discriminate Hi |].
    apply in_app_or in Hi. destruct Hi as [Hi | Hi]; [contradiction |].
    destruct Hi as [Hi | [Hi | []]]; [| discriminate Hi].
    injection Hi as <- <-. split; [| intros _; apply Hfail; reflexivity].
    exists tc, t1, (EPerror cwd tt :: tl). rewrite Et.
    split; [simpl; rewrite <- !app_assoc; reflexivity |].
    split; [assumption |]. split; [assumption |].
    apply never_cons. split; [reflexivity | exact Hl].
  - destruct Hi as [Hi | Hi]; [discriminate Hi |].
    apply in_app_or in Hi. destruct Hi as [Hi | Hi]; [contradiction |].
    destruct Hi as [Hi | []]. injection Hi as <- <-.
    split; [| intros Hc; exfalso; apply Hc; reflexivity].
    exists tc, t1, tl. rewrite Et.
    split; [simpl; rewrite <- !app_assoc; reflexivity |]. auto.
Qed.

Lemma attach_returns_to_the_saved_directory_witness :
  exists ta tb tc,
    run_trace (run (os_of all_ok) (main inv_attach) tt)
    = ta ++ EGet_current_dir_name (Some "/root") :: tb
         ++ EChdir (Some "/root") 0 :: tc /\
    Forall (fun e => cls_closefds e = true) ta /\
    Forall (fun e => cls_attach_loop e = true) tb /\
    never is_attach_call tc.
Proof.
  apply (@attach_returns_to_the_saved_directory unit (os_of all_ok) tt
           inv_attach (Some "/root") 0).
  vm_compute. tauto.
Defined.

(** ** The fork comes first *)

Lemma head_unique (f : event -> bool) (e e' : event) (t m tb : trace) :
  e :: t = m ++ e' :: tb -> never f t -> f e' = true ->
  m = [] /\ e = e' /\ t = tb.
Proof.
  intros E Hn He'. destruct m as [| a m]; simpl in E.
  - injection E as -> ->. auto.
  - exfalso. injection E as _ ->. apply never_app in Hn.
    destruct Hn as [_ Hn]. apply never_cons in Hn. destruct Hn as [Hn _].
    congruence.
Qed.

(** The launch around its fork. *)
Lemma launch_fork_split (inv : invocation) (l0 : locals) (t : trace)
  (res : result Z) (ta tb : trace) (pid : Z) :
  launch_parts inv l0 t res -> t = ta ++ EFork pid :: tb ->
  Forall (fun e => cls_session e = true) ta /\
  never is_fork tb /\
  (pid <> 0 -> never is_child_work tb).
Proof.
  intros (l & ts & tf & tp & tc & tm & tr & te & rf & rp & rc & rm & rr
          & Hs & Hf & Hp & Hc & Hm & Hr & He & ->) E.
  pose_classes.
  assert (Nrest : never is_fork (tp ++ tc ++ tm ++ tr ++ te)) by never_tac.
  assert (Ns : never is_fork ts) by never_tac.
  destruct (@split_skip is_fork ts _ _ _ (EFork pid) Ns eq_refl E)
    as (m & -> & E').
  apply main_fork_exec in Hf.
  destruct Hf as [(_ & -> & _) | (_ & pid' & Hf)].
  { exfalso. simpl in E'.
    assert (Hi : In (EFork pid) (tp ++ tc ++ tm ++ tr ++ te))
      by (rewrite E'; apply in_or_app; right; left; reflexivity).
    eapply never_In in Hi; [| exact Nrest]. discriminate Hi. }
  destruct Hf as [(_ & -> & ->) | [(Hz & -> & ->) |
    (Hp1 & Hp0 & -> & t1 & t2 & -> & Ht1 & Ht2)]].
  - halt_chain. simpl in E'.
    assert (Np : never is_fork [EPerror (Some "fork") tt])
      by (repeat constructor).
    destruct (@head_unique is_fork _ (EFork pid) _ _ _ E' Np eq_refl)
      as (-> & Ee & <-).
    injection Ee as <-. rewrite app_nil_r.
    split; [assumption |]. split; [repeat constructor |].
    intros _. repeat constructor.
  - simpl in E'.
    destruct (@head_unique is_fork _ (EFork pid) _ _ _ E' Nrest eq_refl)
      as (-> & Ee & <-).
    injection Ee as <-. rewrite app_nil_r.
    split; [assumption |]. split; [exact Nrest |].
    intros Hne. exfalso. apply Hne. exact Hz.
  - halt_chain. simpl in E'. rewrite !app_nil_r in E'.
    assert (N12 : never is_child_work (t1 ++ t2)).
    { apply never_app.
      destruct Ht1 as [(_ & r & r' & ->) | (_ & ->)];
        destruct Ht2 as [(_ & st & ->) | (_ & ->)];
        split; repeat constructor. }
    assert (N12' : never is_fork (t1 ++ t2)).
    { eapply Forall_impl; [| exact N12]. intros e He0.
      unfold is_child_work in He0. apply orb_false_iff in He0. tauto. }
    destruct (@head_unique is_fork _ (EFork pid) _ _ _ E' N12' eq_refl)
      as (-> & Ee & <-).
    injection Ee as <-. rewrite app_nil_r.
    split; [assumption |]. split; [exact N12' |]. intros _. exact N12.
Qed.

(** X12: the fork comes before everything that is done for the command.
    Before a fork, a run of main has parsed its options, closed
    descriptors, entered or created namespaces and chosen its session
    or process group, and nothing else: it has joined no cgroup, made no
    mount, set no priority and run nothing. After the fork there is no
    other fork; and the process in which fork did not return 0, the
    parent or the one whose fork failed, joins no cgroup, makes no mount,
    sets no priority and runs no command. *)
Theorem fork_precedes_cgroup_mounts_and_priority (W : Type) (os : handler W)
  (w : W) (inv : invocation) (ta tb : trace) (pid : Z) :
  run_trace (run os (main inv) w) = ta ++ EFork pid :: tb ->
  never is_child_work ta /\
  never is_fork tb /\
  (pid <> 0 -> never is_child_work tb).
Proof.
  intros E.
  destruct (main_run_split os w inv)
    as [(out & _ & H) | (l & tc & tn & tl & rn & _ & _ & Cc & Hn & Cl & Et & Hl)].
  - exfalso. apply main_getopt_exec in H.
    assert (Hin : In (EFork pid) (run_trace (run os (main inv) w)))
      by (rewrite E; apply in_or_app; right; left; reflexivity).
    destruct H as [(E0 & _) | [(E0 & _) | (s & r0 & st & E0 & _)]];
      rewrite E0 in Hin; simpl in Hin; try contradiction.
    destruct Hin as [Hin | []]. discriminate Hin.
  - assert (Nn : never is_child_work tn).
    { apply main_namespaces_cases in Hn.
      destruct Hn as [(_ & Ca) | (_ & r0 & tail & -> & Ht)];
        [eapply never_cls; [exact Ca | cls_side] |].
      destruct Ht as [-> | ->]; repeat constructor. }
    assert (Nc : never is_child_work tc)
      by (eapply never_cls; [exact Cc | cls_side]).
    assert (Npre : never is_fork (tc ++ tn)).
    { apply never_app. split; eapply Forall_impl; try eassumption;
        intros e He0; unfold is_child_work in He0;
        apply orb_false_iff in He0; tauto. }
    rewrite Et, app_assoc in E.
    destruct (@split_skip is_fork (tc ++ tn) _ _ _ (EFork pid) Npre eq_refl E)
      as (m & -> & E').
    destruct Hl as [(out & _ & -> & _) | (l0 & _ & Hp)].
    { exfalso. destruct m; discriminate E'. }
    destruct (@launch_fork_split _ _ _ _ _ _ _ Hp E') as (Cm & Nf & Nw).
    split; [| split; assumption].
    rewrite !never_app. split; [split; assumption |].
    eapply never_cls; [exact Cm | cls_side].
Qed.

Lemma fork_precedes_cgroup_mounts_and_priority_witness :
  never is_child_work
    [EUnshare (Z.lor CLONE_NEWPID CLONE_NEWNS) 0; ESetpgid 0 0 0] /\
  never is_child_work [EWait (101, 0)].
Proof.
  assert (E : run_trace (run (os_of (override all_ok fork_parent))
                           (main inv_pidns_group) tt)
              = [EUnshare (Z.lor CLONE_NEWPID CLONE_NEWNS) 0; ESetpgid 0 0 0]
                ++ EFork 101 :: [EWait (101, 0)])
    by (vm_compute; reflexivity).
  destruct (@fork_precedes_cgroup_mounts_and_priority unit
              (os_of (override all_ok fork_parent)) tt inv_pidns_group
              _ _ _ E) as (H1 & _ & H3).
  split; [exact H1 | apply H3; discriminate].
Defined.

(** ** The pid written to the tasks files *)

Lemma join_events_fprintf (gname : string) (pid : Z) (g : string)
  (o : option (Z * Z * Z)) (f : Z) (s : string) (n : Z) :
  In (EFprintf f s n) (join_events gname pid g o) ->
  s = (fmt_d pid ++ nl)%string /\
  exists c,
    join_events gname pid g o
    = [EFopen (tasks_path g gname) "w" (Some f); EFprintf f s n; EFclose f c].
Proof.
  destruct o as [[[f0 n0] c0] |]; simpl; intros Hin;
    repeat (destruct Hin as [Hin | Hin]; try discriminate Hin;
            try contradiction).
  injection Hin as <- <- <-. split; [reflexivity |]. exists c0. reflexivity.
Qed.

(** X13: the pid written to a tasks file. Every write of a run of main
    to a stream is the decimal text and a newline of the pid that getpid
    returned earlier in the same process: no fork lies between that
    getpid and the end of the run, so the pid registered is the pid of
    the process that goes on to run the command. The write is made on
    the stream that the fopen just before it returned, and the fclose of
    that stream follows at once. *)
Theorem tasks_file_gets_the_pid_of_the_caller (W : Type) (os : handler W)
  (w : W) (inv : invocation) (f : Z) (s : string) (n : Z) :
  In (EFprintf f s n) (run_trace (run os (main inv) w)) ->
  exists ta pid tb,
    run_trace (run os (main inv) w) = ta ++ EGetpid pid :: tb /\
    s = (fmt_d pid ++ nl)%string /\
    never is_fork tb /\
    exists t1 path c t2,
      tb = t1 ++ EFopen path "w" (Some f) :: EFprintf f s n :: EFclose f c
              :: t2.
Proof.
  intros Hin.
  destruct (main_run_split os w inv)
    as [(out & _ & H) | (l & tc & tn & tl & rn & _ & _ & Cc & Hn & Cl & Et & Hl)].
  - exfalso. apply main_getopt_exec in H.
    destruct H as [(E & _) | [(E & _) | (s0 & r0 & st & E & _)]];
      rewrite E in Hin; simpl in Hin; try contradiction.
    destruct Hin as [Hin | []]. discriminate Hin.
  - rewrite Et in Hin. apply in_app_or in Hin.
    destruct Hin as [Hin | Hin]; [not_in_class Cc Hin |].
    apply in_app_or in Hin. destruct Hin as [Hin | Hin].
    { exfalso. apply main_namespaces_cases in Hn.
      destruct Hn as [(_ & Ca) | (_ & r0 & tail & -> & Ht)];
        [not_in_class Ca Hin |].
      destruct Ht as [-> | ->]; simpl in Hin;
        repeat (destruct Hin as [Hin | Hin]; try discriminate Hin;
                try contradiction). }
    destruct Hl as [(out & _ & -> & _) | (l0 & _ & Hp)]; [contradiction |].
    destruct (@launch_cgroup_split inv l0 tl _ _ Hp Hin eq_refl)
      as (gname & t0 & tg & t1 & rg & _ & Hx & Hing & -> & Nf).
    assert (Cg : Forall (fun e => cls_cgroup e = true) tg)
      by (eapply emits_exec; [apply emits_cgroup | exact Hx]).
    destruct (valid_path gname) eqn:Hv.
    2:{ exfalso. eapply cgroup_invalid in Hx; [| exact Hv].
        destruct Hx as [(pid & r0 & ->) _]. simpl in Hing.
        repeat (destruct Hing as [Hing | Hing]; try discriminate Hing;
                try contradiction). }
    eapply cgroup_exec in Hx; [| exact Hv].
    destruct Hx as (pid & o1 & o2 & o3 & tail & -> & Ht).
    apply Forall_cons_iff in Cg. destruct Cg as [_ Cg].
    exists (tc ++ tn ++ t0), pid,
      ((join_events gname pid "cpu" o1 ++ join_events gname pid "cpuacct" o2
        ++ join_events gname pid "cpuset" o3 ++ tail) ++ t1).
    split; [rewrite Et; simpl; rewrite <- !app_assoc; reflexivity |].
    assert (Ng : never is_fork
                   (join_events gname pid "cpu" o1
                    ++ join_events gname pid "cpuacct" o2
                    ++ join_events gname pid "cpuset" o3 ++ tail))
      by (eapply never_cls; [exact Cg | cls_side]).
    assert (Etxt : s = (fmt_d pid ++ nl)%string /\
                   exists t1' path c t2',
                     join_events gname pid "cpu" o1
                     ++ join_events gname pid "cpuacct" o2
                     ++ join_events gname pid "cpuset" o3 ++ tail
                     = t1' ++ EFopen path "w" (Some f) :: EFprintf f s n
                           :: EFclose f c :: t2').
    { destruct Hing as [Hing | Hing]; [discriminate Hing |].
      apply in_app_or in Hing. destruct Hing as [Hing | Hing].
      { destruct (@join_events_fprintf _ _ _ _ _ _ _ Hing) as (-> & c & ->).
        split; [reflexivity |].
        exists [], (tasks_path "cpu" gname), c. eexists. reflexivity. }
      apply in_app_or in Hing. destruct Hing as [Hing | Hing].
      { destruct (@join_events_fprintf _ _ _ _ _ _ _ Hing) as (-> & c & ->).
        split; [reflexivity |].
        exists (join_events gname pid "cpu" o1),
          (tasks_path "cpuacct" gname), c. eexists. reflexivity. }
      apply in_app_or in Hing. destruct Hing as [Hing | Hing].
      { destruct (@join_events_fprintf _ _ _ _ _ _ _ Hing) as (-> & c & ->).
        split; [reflexivity |].
        exists (join_events gname pid "cpu" o1
                ++ join_events gname pid "cpuacct" o2),
          (tasks_path "cpuset" gname), c. eexists.
        rewrite <- !app_assoc. reflexivity. }
      exfalso.
      destruct Ht as [(_ & _ & _ & (r0 & ->) & _) | (_ & -> & _)];
        simpl in Hing; [destruct Hing as [Hing | []]; discriminate Hing
                       | contradiction]. }
    destruct Etxt as (-> & t1' & path & c & t2' & Ej).
    split; [reflexivity |].
    split; [apply never_app; split; assumption |].
    exists t1', path, c, (t2' ++ t1). rewrite Ej, <- app_assoc. reflexivity.
Qed.

Lemma tasks_file_gets_the_pid_of_the_caller_witness :
  exists ta pid tb,
    run_trace (run (os_of all_ok) (main inv_pidns_group) tt)
    = ta ++ EGetpid pid :: tb /\
    ("100" ++ nl)%string = (fmt_d pid ++ nl)%string /\
    never is_fork tb /\
    exists t1 path c t2,
      tb = t1 ++ EFopen path "w" (Some 7) :: EFprintf 7 ("100" ++ nl) 4
              :: EFclose 7 c :: t2.
Proof.
  apply (@tasks_file_gets_the_pid_of_the_caller unit (os_of all_ok) tt
           inv_pidns_group 7 ("100" ++ nl)%string 4).
  vm_compute. tauto.
Defined.

(** ** An attach pid of 0 *)

(** X15: -a with a pid that atoi reads as 0, such as a text that does not
    start with a number, is not attach mode. When this holds of every
    -a option, a run of main makes none of the calls of attach, no stat,
    open, setns, chroot or chdir: -a is silently ignored, and a run that
    gets through its options (all of them plain, -a and -r with their
    argument) calls unshare instead, with the flags of the other
    options. *)
Theorem attach_pid_zero_is_create_mode (W : Type) (os : handler W) (w : W)
  (inv : invocation) :
  (forall o s, In o (inv_getopt inv) -> go_c o = "a"%char ->
               go_optarg o = Some s -> atoi s = 0) ->
  never is_attach_call (run_trace (run os (main inv) w)) /\
  (Forall (fun o => plain_option (go_c o) = true /\
                    ((go_c o = "a"%char \/ go_c o = "r"%char) ->
                     go_optarg o <> None))
          (inv_getopt inv) ->
   exists tc f r rest,
     run_trace (run os (main inv) w) = tc ++ EUnshare f r :: rest /\
     Forall (fun e => cls_closefds e = true) tc /\ flags_built f).
Proof.
  intros Hz.
  assert (Hnot : forall e, In e (run_trace (run os (main inv) w)) ->
                           is_attach_call e = false).
  { intros e Hin. destruct (is_attach_call e) eqn:Hk; [| reflexivity].
    exfalso.
    destruct (@main_run_attach _ os w inv _ Hin Hk)
      as (l & tc & ta & tl & ra & Hg & Ha & _).
    destruct (@main_getopt_attachpid _ _ _ _ _ Hg)
      as [E | (o & s & Hi & Hc & Ho & E)].
    - apply Ha. rewrite E. reflexivity.
    - apply Ha. rewrite E. eapply Hz; eassumption. }
  split; [apply Forall_forall; exact Hnot |].
  intros Hplain.
  destruct (main_run_split os w inv)
    as [(out & _ & H) | (l & tc & tn & tl & rn & Hg & Hb & Cc & Hn & Cl & Et & _)].
  - exfalso. apply main_getopt_halt in H. destruct H as (o & l1 & Hin & H).
    rewrite Forall_forall in Hplain. destruct (Hplain o Hin) as [Hp Harg].
    apply main_switch_halt in H.
    destruct H as [(H & _) | (_ & _ & Hnone & Hc)];
      [congruence | exact (Harg Hc Hnone)].
  - apply main_namespaces_cases in Hn.
    destruct Hn as [(Ha & _) | (_ & r & tail & -> & _)].
    + exfalso.
      destruct (@main_getopt_attachpid _ _ _ _ _ Hg)
        as [E | (o & s & Hi & Hc & Ho & E)].
      * apply Ha. rewrite E. reflexivity.
      * apply Ha. rewrite E. eapply Hz; eassumption.
    + exists tc, (flags l), r, (tail ++ tl). rewrite Et.
      split; [reflexivity | auto].
Qed.

Lemma attach_pid_zero_is_create_mode_witness :
  never is_attach_call
    (run_trace (run (os_of all_ok) (main inv_attach_text) tt)) /\
  exists tc f r rest,
    run_trace (run (os_of all_ok) (main inv_attach_text) tt)
    = tc ++ EUnshare f r :: rest /\
    Forall (fun e => cls_closefds e = true) tc /\ flags_built f.
Proof.
  destruct (@attach_pid_zero_is_create_mode unit (os_of all_ok) tt
              inv_attach_text) as [H1 H2].
  - intros o s [<- | []] _ E. injection E as <-. reflexivity.
  - split; [exact H1 |]. apply H2.
    repeat constructor. intros _ E. discriminate E.
Defined.

(** ** The flags that attach returns *)

(** The flag of the loop only grows. *)
Lemma attach_loop_grows (pid : Z) (nss : list namespace) :
  forall (flag : Z) (t : trace) (f : Z),
    exec (attach_loop pid nss flag) t (Val (Some f)) ->
    exists g, f = Z.lor flag g.
Proof.
  induction nss as [| ns nss IH]; intros flag t f H.
  - destruct H as [_ E]. injection E as <-. exists 0.
    rewrite Z.lor_0_r. reflexivity.
  - apply attach_loop_step in H.
    destruct H as (ret & t1 & t2 & H1 & -> & H).
    assert (Hrest : forall t', exec (attach_loop pid nss (Z.lor flag ret)) t'
                                 (Val (Some f)) ->
                               exists g, f = Z.lor flag g).
    { intros t' H'. destruct (IH _ _ _ H') as (g & ->).
      exists (Z.lor ret g). rewrite Z.lor_assoc. reflexivity. }
    destruct H as [(_ & H) | [(_ & _ & _ & E) | (_ & _ & c & H)]].
    + eapply Hrest. exact H.
    + discriminate E.
    + destruct H as [(_ & E & _) | (_ & t3 & _ & H)]; [discriminate E |].
      eapply Hrest. exact H.
Qed.

(** A turn of the loop whose result is not negative in the end: the
    namespace was ours, or it was entered. *)
Lemma attach_loop_step_ok (pid : Z) (ns : namespace) (nss : list namespace)
  (flag : Z) (t : trace) (f : Z) :
  exec (attach_loop pid (ns :: nss) flag) t (Val (Some f)) -> 0 <= f ->
  exists ret t1 t2,
    t = t1 ++ t2 /\
    exec (attach_loop pid nss (Z.lor flag ret)) t2 (Val (Some f)) /\
    ((ret = 0 /\ exists s1 s2,
        t1 = [EStat (ns_path pid ns) s1; EStat (ns_self ns) s2]) \/
     (ret = type ns /\ exists s1 s2 fd r,
        0 <= fd /\ 0 <= r /\
        t1 = [EStat (ns_path pid ns) s1; EStat (ns_self ns) s2;
              EOpen (ns_path pid ns) O_RDONLY fd; ESetns fd 0 r])).
Proof.
  intros H Hf. apply attach_loop_step in H.
  destruct H as (ret & t1 & t2 & H1 & -> & H).
  assert (Hpos : forall t', exec (attach_loop pid nss (Z.lor flag ret)) t'
                              (Val (Some f)) -> 0 <= ret).
  { intros t' H'. destruct (@attach_loop_grows _ _ _ _ _ H') as (g & ->).
    apply Z.lor_nonneg in Hf. destruct Hf as [Hf _].
    apply Z.lor_nonneg in Hf. tauto. }
  destruct H as [(Hr & H) | [(_ & _ & _ & E) | (Hr & _ & c & H)]].
  - exists ret, t1, t2. split; [reflexivity |]. split; [exact H |].
    apply attachns_exec in H1.
    destruct H1 as (s1 & s2 & [(_ & E & ->) | (_ & nsid & [(Hn & E & _) |
      (Hn & err & [(He & E & _) | (He & E & ->)])])]);
      injection E as E; try (exfalso; lia).
    + left. split; [auto |]. exists s1, s2. reflexivity.
    + right. split; [auto |]. exists s1, s2, nsid, err. auto.
  - discriminate E.
  - exfalso. destruct H as [(_ & E & _) | (_ & t3 & _ & H)]; [discriminate E |].
    apply Hpos in H. lia.
Qed.

(** A result of the loop that is not negative holds the flags it
    started with and those of the namespaces entered, and nothing was
    opened without being entered. *)
Lemma attach_loop_flags (pid : Z) (nss : list namespace) :
  forall (flag : Z) (t : trace) (f : Z),
    Forall (fun ns => type ns <> 0) nss ->
    exec (attach_loop pid nss flag) t (Val (Some f)) -> 0 <= f ->
    (forall x, has_flag f x = true ->
       has_flag flag x = true \/
       exists ns fd r,
         In ns nss /\ has_flag (type ns) x = true /\
         In (EOpen (ns_path pid ns) O_RDONLY fd) t /\
         In (ESetns fd 0 r) t /\ 0 <= r) /\
    (forall p o fd, In (EOpen p o fd) t ->
       exists ns, In ns nss /\ p = ns_path pid ns /\
                  has_flag f (type ns) = true).
Proof.
  induction nss as [| ns nss IH]; intros flag t f Hty H Hf.
  - destruct H as [-> E]. injection E as <-. split; [auto | intros p o fd []].
  - apply Forall_cons_iff in Hty. destruct Hty as [Hty0 Hty].
    destruct (@attach_loop_step_ok _ _ _ _ _ _ H Hf)
      as (ret & t1 & t2 & -> & H2 & Hcase).
    destruct (IH _ _ _ Hty H2 Hf) as [IHa IHb].
    destruct (@attach_loop_grows _ _ _ _ _ H2) as (g & Eg).
    split.
    + intros x Hx.
      destruct (IHa x Hx) as [Hfl | (ns' & fd & r & Hi & Hb & Ho & Hs & Hr)].
      * rewrite has_flag_lor in Hfl. apply orb_true_iff in Hfl.
        destruct Hfl as [Hfl | Hfl]; [left; exact Hfl |].
        right.
        destruct Hcase as [(-> & _) | (-> & s1 & s2 & fd & r & _ & Hr & ->)];
          [discriminate Hfl |].
        exists ns, fd, r.
        split; [left; reflexivity |]. split; [exact Hfl |].
        split; [apply in_or_app; left; simpl; tauto |].
        split; [apply in_or_app; left; simpl; tauto | exact Hr].
      * right. exists ns', fd, r. simpl.
        repeat split; auto; apply in_or_app; auto.
    + intros p o fd Hin. apply in_app_or in Hin.
      destruct Hin as [Hin | Hin].
      * destruct Hcase as [(_ & s1 & s2 & ->) | (Er & s1 & s2 & fd0 & r & _ & _ & ->)];
          simpl in Hin;
          repeat (destruct Hin as [Hin | Hin]; try discriminate Hin;
                  try contradiction).
        injection Hin as <- _ _.
        exists ns. split; [simpl; auto |]. split; [reflexivity |].
        rewrite Eg, Er, !has_flag_lor.
        assert (Hself : has_flag (type ns) (type ns) = true).
        { unfold has_flag, truthy. rewrite Z.land_diag.
          destruct (Z.eqb_spec (type ns) 0); [contradiction | reflexivity]. }
        rewrite Hself, orb_true_r. reflexivity.
      * destruct (IHb _ _ _ Hin) as (ns' & Hi & -> & Hb).
        exists ns'. simpl. auto.
Qed.

Lemma namespaces_nonzero : Forall (fun ns => type ns <> 0) namespaces.
Proof. unfold namespaces. repeat constructor; vm_compute; discriminate. Qed.

(** The namespace bits are apart. *)
Lemma namespaces_apart (a b : namespace) :
  In a namespaces -> In b namespaces ->
  has_flag (type a) (type b) = true -> a = b.
Proof.
  unfold namespaces. simpl.
  intros [<- | [<- | [<- | [<- | []]]]] [<- | [<- | [<- | [<- | []]]]] H;
    try reflexivity; vm_compute in H; discriminate H.
Qed.

(** X16: what the flags returned by attach mean. When attach returns a
    value that is not negative, a namespace flag is in it exactly for the
    namespaces that were entered: for each of net, pid, uts and mnt
    whose flag is set, the entry of the target was opened and the setns
    on the descriptor succeeded; and every entry that was opened at all
    is that of a namespace whose flag is set. The namespaces that were
    found to be the caller's own leave no flag. *)
Theorem attach_flags_are_the_namespaces_entered (W : Type) (os : handler W)
  (w : W) (pid f : Z) :
  run_result (run os (attach pid) w) = Val f -> 0 <= f ->
  (forall ns, In ns namespaces -> has_flag f (type ns) = true ->
     exists fd r,
       In (EOpen (ns_path pid ns) O_RDONLY fd)
          (run_trace (run os (attach pid) w)) /\
       In (ESetns fd 0 r) (run_trace (run os (attach pid) w)) /\ 0 <= r) /\
  (forall p o fd,
     In (EOpen p o fd) (run_trace (run os (attach pid) w)) ->
     exists ns, In ns namespaces /\ p = ns_path pid ns /\
                has_flag f (type ns) = true).
Proof.
  intros Er Hf. pose proof (run_exec os (attach pid) w) as H.
  rewrite Er in H. apply attach_exec in H.
  destruct H as (cwd & t1 & r & H1 & H).
  destruct H as [(_ & _ & E) | (flag & c & -> & [(_ & E & _) | (_ & E & Et)])];
    try (injection E as E; exfalso; lia).
  injection E as ->. rewrite Et.
  destruct (@attach_loop_flags _ _ _ _ _ namespaces_nonzero H1 Hf) as [Ha Hb].
  split.
  - intros ns Hns Hfl.
    destruct (Ha _ Hfl) as [H0 | (ns' & fd & r & Hi & Hx & Ho & Hs & Hr)];
      [discriminate H0 |].
    assert (ns' = ns) by (apply namespaces_apart; assumption). subst ns'.
    exists fd, r. split; [| split; [| exact Hr]];
      right; apply in_or_app; left; assumption.
  - intros p o fd Hin. destruct Hin as [Hin | Hin]; [discriminate Hin |].
    apply in_app_or in Hin.
    destruct Hin as [Hin | [Hin | []]]; [| discriminate Hin].
    eapply Hb. exact Hin.
Qed.

Lemma attach_flags_are_the_namespaces_entered_witness :
  exists fd r,
    In (EOpen "/proc/42/ns/pid" O_RDONLY fd)
       (run_trace (run os_all_ns_differ (attach 42) tt)) /\
    In (ESetns fd 0 r) (run_trace (run os_all_ns_differ (attach 42) tt)) /\
    0 <= r.
Proof.
  destruct (@attach_flags_are_the_namespaces_entered unit os_all_ns_differ tt
              42 CLONE_ALL) as [H _].
  - vm_compute. reflexivity.
  - vm_compute. discriminate.
  - apply (H {| type := CLONE_NEWPID; name := "pid" |}).
    + unfold namespaces. simpl. auto.
    + reflexivity.
Defined.

(** ** Plan B on an example *)

Lemma attach_fallback_always_fails_witness :
  run_result (run (os_of (override all_ok mnt_open_fails)) (attach 42) tt)
  = Val (-1).
Proof.
  apply (@attach_fallback_always_fails unit
           (os_of (override all_ok mnt_open_fails)) tt 42 "/proc/42/root" 0).
  - intros p o r Hin Hr. vm_compute in Hin.
    repeat (destruct Hin as [Hin | Hin];
            [first [ discriminate Hin
                   | injection Hin as _ _ <-;
                     first [reflexivity | exfalso; lia] ] |]);
      contradiction.
  - intros fd ty r Hin Hr. vm_compute in Hin.
    repeat (destruct Hin as [Hin | Hin];
            [first [ discriminate Hin
                   | injection Hin as _ _ <-;
                     first [reflexivity | exfalso; lia] ] |]);
      contradiction.
  - vm_compute. tauto.
Defined.

(** ** No command *)

Ltac nonzero_leaf := let H := fresh in intro H; discriminate H.

Lemma nonzero_validate_from (path s : string) :
  halts_in (fun o => o <> Exited 0) (validate_from path s).
Proof.
  induction s as [| c s IH]; cbn [validate_from]; ends_tac nonzero_leaf.
  exact IH.
Qed.

Lemma nonzero_cgroup_loop (gptr : list string) (gname : string) (pid : Z) :
  forall n, halts_in (fun o => o <> Exited 0) (cgroup_loop gptr gname pid n).
Proof.
  induction gptr as [| g gptr IH]; intros n; cbn [cgroup_loop];
    ends_tac nonzero_leaf; try apply IH.
Qed.

Lemma nonzero_main_printpid (l : locals) :
  halts_in (fun o => o <> Exited 0) (main_printpid l).
Proof. unfold main_printpid, assert. ends_tac nonzero_leaf. Qed.

Lemma nonzero_main_cgroup (l : locals) :
  halts_in (fun o => o <> Exited 0) (main_cgroup l).
Proof.
  unfold main_cgroup, cgroup, validate. ends_tac nonzero_leaf;
    first [apply nonzero_validate_from | apply nonzero_cgroup_loop].
Qed.

Lemma nonzero_main_mounts (l : locals) :
  halts_in (fun o => o <> Exited 0) (main_mounts l).
Proof. unfold main_mounts. ends_tac nonzero_leaf. Qed.

Lemma nonzero_main_rtprio (inv : invocation) (l : locals) :
  halts_in (fun o => o <> Exited 0) (main_rtprio inv l).
Proof. unfold main_rtprio, atoi_ptr. ends_tac nonzero_leaf. Qed.

(** A launch that ends with status 0 outside the parent of a fork went
    through every part and ended in the last one. *)
Lemma launch_status_0 (inv : invocation) (l0 : locals) (t : trace)
  (res : result Z) :
  launch_parts inv l0 t res -> res = Halt (Exited 0) ->
  (forall pid, In (EFork pid) t -> pid = 0) ->
  exists t0 te, t = t0 ++ te /\ exec (main_exec inv) te res.
Proof.
  intros (l & ts & tf & tp & tc & tm & tr & te & rf & rp & rc & rm & rr
          & Hs & Hf & Hp & Hc & Hm & Hr & He & ->) Eres Hfork.
  assert (Ef : forall o, rf = Halt o -> o <> Exited 0).
  { intros o ->. apply main_fork_exec in Hf.
    destruct Hf as [(_ & _ & E) | (_ & pid & [(_ & _ & E) | [(_ & _ & E) |
      (Hp1 & Hp0 & _ & t1 & t2 & -> & _)]])]; try discriminate E.
    - injection E as ->. discriminate.
    - exfalso. apply Hp0. apply Hfork.
      apply in_or_app. right. left. reflexivity. }
  pose proof (@follows_ends _ _ _ _ _ _ _ (nonzero_main_printpid l) Ef Hp) as Ep.
  pose proof (@follows_ends _ _ _ _ _ _ _ (nonzero_main_cgroup l) Ep Hc) as Ec.
  pose proof (@follows_ends _ _ _ _ _ _ _ (nonzero_main_mounts l) Ec Hm) as Em.
  pose proof (@follows_ends _ _ _ _ _ _ _ (nonzero_main_rtprio inv l) Em Hr)
    as Er.
  destruct rr as [[] | o]; simpl in He.
  - exists (ts ++ tf ++ tp ++ tc ++ tm ++ tr), te.
    split; [rewrite <- !app_assoc; reflexivity | exact He].
  - exfalso. destruct He as [_ E]. rewrite Eres in E. injection E as <-.
    exact (Er _ eq_refl eq_refl).
Qed.

(** X18: no command. When getopt leaves no argument for a command, a
    run of main never calls execvp; and when such a run ends with exit
    status 0 in a process that is not the parent of a fork, the last
    thing it did was to print a text on stdout: the usage text, after
    all the work that the options asked for, or the version line when
    -v was given, and then nothing else was done. *)
Theorem no_command_ends_with_usage (W : Type) (os : handler W) (w : W)
  (inv : invocation) :
  skipn (optind inv) (argv inv) = [] ->
  never is_execvp (run_trace (run os (main inv) w)) /\
  (run_result (run os (main inv) w) = Halt (Exited 0) ->
   (forall pid, In (EFork pid) (run_trace (run os (main inv) w)) -> pid = 0) ->
   exists t' s r,
     run_trace (run os (main inv) w) = t' ++ [EPrintf s r] /\
     (s = usage_text (argv0 inv) \/ (s = (VERSION ++ nl)%string /\ t' = []))).
Proof.
  intros Hsk. split.
  - destruct (main_run_split os w inv)
      as [(out & _ & H) | (l & tc & tn & tl & rn & _ & _ & Cc & Hn & _ & Et & Hl)].
    + apply main_getopt_exec in H.
      destruct H as [(-> & _) | [(-> & _) | (s & r0 & st & -> & _)]];
        repeat constructor.
    + rewrite Et, !never_app.
      split; [eapply never_cls; [exact Cc | cls_side] |]. split.
      * apply main_namespaces_cases in Hn.
        destruct Hn as [(_ & Ca) | (_ & r0 & tail & -> & Ht)];
          [eapply never_cls; [exact Ca | cls_side] |].
        destruct Ht as [-> | ->]; repeat constructor.
      * destruct Hl as [(out & _ & -> & _) | (l0 & _ & Hp)]; [constructor |].
        apply launch_exec_part in Hp.
        destruct Hp as (t0 & te & -> & Hn0 & He).
        apply never_app. split; [exact Hn0 |].
        destruct He as [-> | He]; [constructor |].
        apply main_exec_exec in He.
        destruct He as [(_ & (r & ->) & _) | (f & rest & E & _)];
          [repeat constructor | rewrite Hsk in E; discriminate E].
  - intros Eres Hfork.
    destruct (main_run_split os w inv)
      as [(out & Er & H) | (l & tc & tn & tl & rn & _ & _ & _ & Hn & _ & Et & Hl)].
    + rewrite Eres in Er. injection Er as <-.
      apply main_getopt_halt in H. destruct H as (o & l1 & _ & H).
      apply main_switch_halt in H.
      destruct H as [(_ & s & r & -> & Hs) | (_ & E & _)]; [| discriminate E].
      exists [], s, r. split; [reflexivity |].
      destruct Hs as [(-> & _) | [(-> & _) | (-> & _)]]; auto.
    + destruct Hl as [(out & -> & _ & Er) | (l0 & _ & Hp)].
      * exfalso. eapply halts_in_exec in Hn; [| apply ends_main_namespaces].
        rewrite Hn, Eres in Er. discriminate Er.
      * assert (Hfork' : forall pid, In (EFork pid) tl -> pid = 0).
        { intros pid Hin. apply Hfork. rewrite Et.
          apply in_or_app. right. apply in_or_app. right. exact Hin. }
        destruct (@launch_status_0 _ _ _ _ Hp Eres Hfork')
          as (t0 & te & -> & He).
        apply main_exec_exec in He.
        destruct He as [(_ & (r & ->) & _) | (f & rest & E & _)];
          [| rewrite Hsk in E; discriminate E].
        exists (tc ++ tn ++ t0), (usage_text (argv0 inv)), r.
        split; [rewrite Et, <- !app_assoc; reflexivity | auto].
Qed.

Lemma no_command_ends_with_usage_witness :
  exists t' s r,
    run_trace (run (os_of all_ok) (main inv_no_command) tt)
    = t' ++ [EPrintf s r] /\
    (s = usage_text (argv0 inv_no_command) \/
     (s = (VERSION ++ nl)%string /\ t' = [])).
Proof.
  destruct (@no_command_ends_with_usage unit (os_of all_ok) tt inv_no_command
              eq_refl) as [_ H].
  apply H.
  - vm_compute. reflexivity.
  - intros pid Hin. vm_compute in Hin.
    repeat (destruct Hin as [Hin | Hin]; [discriminate Hin |]).
    contradiction.
Defined.


(** ** Detaching from the terminal *)

(** C3: the code does not do what the claim says. A setsid of a run of
    main is made right after getpgrp and getpid returned the same
    number, that is by the leader of a process group and by no other
    process, and before the fork, which follows at once whatever setsid
    returned; no setsid is made after it, so none by the child, and the
    run calls no setpgid. The kernel refuses setsid to a group leader:
    then every setsid of a run of main returns -1, and with -d the
    command never runs in a new session. *)
Theorem setsid_is_called_by_group_leaders_only (W : Type) (os : handler W)
  (w : W) (inv : invocation) (ta : trace) (r : Z) (tb : trace) :
  run_trace (run os (main inv) w) = ta ++ ESetsid r :: tb ->
  (exists ta' p,
      ta = ta' ++ [EGetpgrp p; EGetpid p] /\
      never is_setsid ta' /\ never is_fork ta') /\
  (exists pid tb', tb = EFork pid :: tb' /\ never is_setsid tb') /\
  never is_setpgid (run_trace (run os (main inv) w)) /\
  (setsid_refused_to_leaders (run_trace (run os (main inv) w)) -> r = -1).
Proof.
  intros E.
  assert (Hin : In (ESetsid r) (run_trace (run os (main inv) w)))
    by (rewrite E; apply in_or_app; right; left; reflexivity).
  destruct (main_run_split os w inv)
    as [(out & _ & H) | (l & tc & tn & tl & rn & _ & _ & Cc & Hn & Cl & Et & Hl)].
  { exfalso. apply main_getopt_exec in H.
    destruct H as [(E0 & _) | [(E0 & _) | (s & r0 & st & E0 & _)]];
      rewrite E0 in Hin; simpl in Hin; try contradiction.
    destruct Hin as [Hin | []]. discriminate Hin. }
  assert (Ca : Forall (fun e => cls_setup e = true) tn).
  { apply main_namespaces_cases in Hn.
    destruct Hn as [(_ & Ca) | (_ & r0 & tail & -> & Ht)].
    - eapply Forall_impl; [| exact Ca]. intros e He.
      destruct e; try discriminate He; reflexivity.
    - destruct Ht as [-> | ->]; repeat constructor. }
  assert (Npre : forall f, (forall e, cls_closefds e = true -> f e = false) ->
                           (forall e, cls_setup e = true -> f e = false) ->
                           never f (tc ++ tn)).
  { intros f H1 H2. apply never_app. split; eapply never_cls; eassumption. }
  assert (Ns : never is_setsid (tc ++ tn)) by (apply Npre; cls_side).
  rewrite Et, app_assoc in E.
  destruct (@split_skip is_setsid (tc ++ tn) _ _ _ (ESetsid r) Ns eq_refl E)
    as (m & -> & E').
  destruct Hl as [(out & _ & -> & _) | (l0 & _ & Hp)];
    [exfalso; destruct m; discriminate E' |].
  destruct Hp as (l1 & ts & tf & tp & tg & tm & tr & te & rf & rp & rc & rm
                  & rr & Hs & Hf & Hp & Hc & Hm & Hr & He & ->).
  pose_classes.
  assert (Nsr : never is_setsid (tp ++ tg ++ tm ++ tr ++ te)) by never_tac.
  assert (Npr : never is_setpgid (tp ++ tg ++ tm ++ tr ++ te)) by never_tac.
  assert (Nsf : never is_setsid tf) by never_tac.
  assert (Npf : never is_setpgid tf) by never_tac.
  apply main_session_exec in Hs.
  destruct Hs as (l' & El & _ & _ & _ & _ & _ & Hs). injection El as <-.
  assert (Hnot : forall t0, never is_setsid t0 ->
                            t0 <> m ++ ESetsid r :: tb).
  { intros t0 N0 E0. rewrite E0 in N0. apply never_app in N0.
    destruct N0 as [_ N0]. apply never_cons in N0. destruct N0 as [N0 _].
    discriminate N0. }
  destruct Hs as [(_ & (r0 & ->) & _) | (_ & pgrp & pid & r0 & Hs)].
  { exfalso.
    apply (Hnot ([ESetpgid 0 0 r0] ++ tf ++ tp ++ tg ++ tm ++ tr ++ te));
      [| exact E'].
    apply never_app. split; [repeat constructor |].
    apply never_app. split; assumption. }
  destruct Hs as [(Epp & -> & Hd) | (_ & -> & _)].
  2:{ exfalso.
      apply (Hnot ([EGetpgrp pgrp; EGetpid pid; ESetpgid 0 0 r0]
                   ++ tf ++ tp ++ tg ++ tm ++ tr ++ te));
        [| exact E'].
      apply never_app. split; [repeat constructor |].
      apply never_app. split; assumption. }
  subst pid.
  assert (N2 : never is_setsid [EGetpgrp pgrp; EGetpid pgrp])
    by (repeat constructor).
  change ([EGetpgrp pgrp; EGetpid pgrp; ESetsid r0] ++ tf ++ tp ++ tg ++ tm
          ++ tr ++ te)
    with ([EGetpgrp pgrp; EGetpid pgrp]
          ++ ESetsid r0 :: tf ++ tp ++ tg ++ tm ++ tr ++ te) in E'.
  destruct (@split_skip is_setsid _ _ _ _ (ESetsid r) N2 eq_refl E')
    as (m' & -> & E'').
  assert (Ntail : never is_setsid (tf ++ tp ++ tg ++ tm ++ tr ++ te))
    by (apply never_app; split; assumption).
  destruct (@head_unique is_setsid _ (ESetsid r) _ _ _ E'' Ntail eq_refl)
    as (-> & Er & <-).
  injection Er as <-. rewrite app_nil_r.
  apply main_fork_exec in Hf. rewrite Hd in Hf.
  destruct Hf as [(Hf & _) | (_ & fpid & Hf)]; [discriminate Hf |].
  assert (Ef : exists tf', tf = EFork fpid :: tf').
  { destruct Hf as [(_ & -> & _) | [(_ & -> & _) |
      (_ & _ & _ & t1 & t2 & -> & _)]]; eexists; reflexivity. }
  destruct Ef as (tf' & ->).
  split; [| split; [| split]].
  - exists (tc ++ tn), pgrp. split; [reflexivity |].
    split; [exact Ns | apply Npre; cls_side].
  - exists fpid, (tf' ++ tp ++ tg ++ tm ++ tr ++ te).
    split; [reflexivity |].
    apply never_cons in Ntail. apply Ntail.
  - rewrite Et. rewrite !never_app.
    split; [eapply never_cls; [exact Cc | cls_side] |].
    split; [eapply never_cls; [exact Ca | cls_side] |].
    split; [repeat constructor |]. split; [exact Npf |].
    rewrite !never_app in Npr. exact Npr.
  - intros Hk. eapply (Hk (tc ++ tn) pgrp r0).
    rewrite Et, <- app_assoc. reflexivity.
Qed.

Lemma setsid_is_called_by_group_leaders_only_witness :
  let os := os_of (override all_ok leader_setsid_refused) in
  run_trace (run os (main inv_detach) tt)
  = [EUnshare 0 0; EGetpgrp 100; EGetpid 100]
    ++ ESetsid (-1) :: [EFork 0; EExecvp "ls" ["ls"] None] /\
  run_result (run os (main inv_detach) tt) = Halt (Execed "ls" ["ls"]) /\
  setsid_refused_to_leaders (run_trace (run os (main inv_detach) tt)) /\
  never is_setsid [EFork 0; EExecvp "ls" ["ls"] None] /\
  never is_setpgid (run_trace (run os (main inv_detach) tt)).
Proof.
  intros os.
  assert (E : run_trace (run os (main inv_detach) tt)
              = [EUnshare 0 0; EGetpgrp 100; EGetpid 100]
                ++ ESetsid (-1) :: [EFork 0; EExecvp "ls" ["ls"] None])
    by (vm_compute; reflexivity).
  destruct (@setsid_is_called_by_group_leaders_only unit os tt inv_detach
              _ _ _ E) as (_ & (pid & tb' & Eb & Nb) & Np & _).
  split; [exact E |]. split; [vm_compute; reflexivity |].
  split.
  - intros ta p r tb Ek. rewrite E in Ek.
    destruct ta as [| a [| b [| c [| d [| e0 [| f0 ta]]]]]];
      simpl in Ek; try discriminate Ek;
      injection Ek as ? ? ? ? ; subst; try discriminate; try reflexivity.
    all: repeat match goal with
                | H : _ :: _ = _ :: _ |- _ => injection H as ? H; subst
                | H : [] = _ ++ _ :: _ |- _ => destruct ta; discriminate H
                | H : _ |- _ => discriminate H
                end.
  - split; [| exact Np].
    injection Eb as <- <-. constructor; [reflexivity | exact Nb].
Defined.

(** ** Option arguments that do not fit an int *)

(** -a 4294967338 attaches to pid 42, and -r 4294967296 stores 0, so
    that no priority is set. *)
Example int_arguments_wrap :
  In (EStat "/proc/42/ns/net" (Some (1, 2)))
     (run_trace (run os_all_ns_differ
                   (main {| argv := ["mnexec"; "-a"; "4294967338"; "ls"];
                            inv_getopt := [opt_arg "a" "4294967338"];
                            optarg := None; optind := 3 |}) tt)) /\
  run_trace (run (os_of all_ok)
               (main {| argv := ["mnexec"; "-r"; "4294967296"; "ls"];
                        inv_getopt := [opt_arg "r" "4294967296"];
                        optarg := Some "4294967296"; optind := 3 |}) tt)
  = [EUnshare 0 0; ESetpgid 0 0 0; EExecvp "ls" ["ls"] None].
Proof.
  split; [vm_compute; tauto | vm_compute; reflexivity].
Qed.
